(** * stickerV2.py: the sticker-pack downloader and its credential store

    A shallow embedding of [src/stickerV2.py].  Python strings are lists of
    code points, JSON documents are the values [json.load] and
    [response.json()] build, and the functions that touch the console, the
    filesystem, the progress bars or the network are written in a state and
    exception monad over an explicit [world].

    What the program does not decide is an [env]: the answers of the remote
    service, the streams of the downloads, the paths that cannot be written,
    read or removed, the image codec and the texts of the exceptions that
    are printed.  What the interpreter and its libraries decide is a [Python]:
    the Unicode database, the codec of text files, the depth [json] can
    recurse to, the limit on the digits of an [int] and the texts that
    [rich] refuses as console markup.  The model stops at these borders:
    - a file that was opened is written to its end, by [f.write] and by
      [img.save];
    - what the disk refuses is the same throughout a run;
    - the progress display raises nothing;
    - paths are POSIX paths; files are told apart by their paths as
      written, directories by their paths without empty components, [.]
      and [..]. *)

From Stdlib Require Import String Ascii.
From stdpp Require Import gmap list.

Local Open Scope N_scope.

(** ** Python strings *)

(** A [str] is a sequence of code points; a code point is below [0x110000]
    and may be a surrogate. *)
Abbreviation text := (list N) (only parsing).

(** An ASCII literal, as a [text]. *)
Definition txt (s : string) : text :=
  List.map N_of_ascii (list_ascii_of_string s).

Definition valid_text (s : text) : Prop := Forall (λ c, c < 0x110000) s.

Definition text_eqb (a b : text) : bool := bool_decide (a = b).

Definition is_high_surrogate (c : N) : bool := (0xD800 <=? c) && (c <=? 0xDBFF).
Definition is_low_surrogate (c : N) : bool := (0xDC00 <=? c) && (c <=? 0xDFFF).

(** No high surrogate is directly followed by a low surrogate. *)
Fixpoint no_surrogate_pair (s : text) : bool :=
  match s with
  | [] => true
  | c :: s' =>
      match s' with
      | [] => true
      | d :: _ => negb (is_high_surrogate c && is_low_surrogate d)
      end && no_surrogate_pair s'
  end.

(** [str.isalnum] and [str.lower] restricted to ASCII. *)
Definition ascii_isalnum (c : N) : bool :=
  ((48 <=? c) && (c <=? 57)) || ((65 <=? c) && (c <=? 90))
  || ((97 <=? c) && (c <=? 122)).

Definition ascii_lower (c : N) : N :=
  if (65 <=? c) && (c <=? 90) then c + 32 else c.

(** ** Exceptions and results *)

Inductive exn :=
  | KeyError (key : text)
  | TypeError
  | AttributeError
  | ValueError
  | OSError
  | RequestException
  | JSONDecodeError
  | UnidentifiedImageError
  | UnicodeDecodeError
  | RecursionError
  | MarkupError.

Inductive outcome (A : Type) :=
  | Ok (a : A)
  | Raise (e : exn).
Arguments Ok {A} a.
Arguments Raise {A} e.

#[export] Instance outcome_ret : MRet outcome := λ A a, Ok a.
#[export] Instance outcome_bind : MBind outcome := λ A B f r,
  match r with
  | Ok a => f a
  | Raise e => Raise e
  end.

(** ** JSON values, as Python objects *)

(** [JNull] is [None]; a float keeps the lexeme it was read from. *)
#[local] Set Warnings "-register-all".
Inductive json :=
  | JNull
  | JBool (b : bool)
  | JInt (z : Z)
  | JFloat (lexeme : text)
  | JStr (s : text)
  | JArr (items : list json)
  | JObj (fields : list (text * json)).

(** ** Builtins of Python that are not modelled

    [str.isalnum] of one character and [str.lower], which depend on the
    Unicode database; [str(v)] of a value that is not a string; the truth
    value of a float, given by its lexeme; [decode], the codec of the
    locale, which [open(path, 'r')] reads a file with ([None] stands for
    [UnicodeDecodeError]); [json_depth], the number of arrays and objects
    inside one another that [json.load] can enter before the interpreter
    raises [RecursionError]; [int_max_str_digits], the value of
    [sys.get_int_max_str_digits()], where [0] stands for no limit; and
    [markup_refused], whether [rich.markup.render] raises a [MarkupError]
    on a text, which depends on the style definitions [rich] knows.  They
    are not code of this program: the development is parametric in them, and
    only uses that the ASCII range is classified and decoded as usual and
    that [json.load] can enter one object. *)
Class Python := {
  isalnum : N → bool;
  lower : text → text;
  format_other : json → text;
  float_nonzero : text → bool;
  decode : list N → option (list N);
  json_depth : nat;
  int_max_str_digits : nat;
  markup_refused : text → bool;
  isalnum_ascii : ∀ c, c < 128 → isalnum c = ascii_isalnum c;
  decode_ascii : ∀ b, Forall (λ c, c < 128) b → decode b = Some b;
  json_depth_positive : (0 < json_depth)%nat;
}.

(** ** Console markup

    [rich.markup.render], as far as it raises.  A tag is an opening
    bracket, one of the characters [a-z], [#], [/] and [@], the shortest
    text without an opening bracket that a closing bracket follows, and
    that bracket; a tag after an odd number of backslashes is escaped; an
    opening tag is pushed on a stack; a closing tag pops the nearest tag of
    its name, or the last one when it has no name, and the text is refused
    when there is none.  Style names are
    compared as [Style.normalize] leaves the names that are no style
    definitions, stripped and in lower case, and a [@] tag with parameters
    is refused when it is closed. *)

Record tag := { tag_name : text; tag_parameters : option text }.

Definition is_space (c : N) : bool :=
  (c =? 32) || ((9 <=? c) && (c <=? 13)) || ((28 <=? c) && (c <=? 31)).

Fixpoint lstrip (s : text) : text :=
  match s with
  | c :: r => if is_space c then lstrip r else s
  | [] => []
  end.

Definition strip (s : text) : text := reverse (lstrip (reverse (lstrip s))).

Definition normalize (name : text) : text := List.map ascii_lower (strip name).

(** [[a-z#/@]] *)
Definition tag_start (c : N) : bool :=
  ((97 <=? c) && (c <=? 122)) || (c =? 35) || (c =? 47) || (c =? 64).

(** [tag_text.partition("=")] *)
Fixpoint partition_equals (s : text) : text * option text :=
  match s with
  | [] => ([], None)
  | c :: r =>
      if c =? 61 then ([], Some r)
      else let (name, parameters) := partition_equals r in (c :: name, parameters)
  end.

(** [pop_style]: the stack has its last tag first. *)
Fixpoint pop_style (name : text) (stack : list tag) : option (tag * list tag) :=
  match stack with
  | [] => None
  | t :: rest =>
      if text_eqb (tag_name t) name then Some (t, rest)
      else match pop_style name rest with
           | Some (found, rest') => Some (found, t :: rest')
           | None => None
           end
  end.

(** The stack after a tag, or [None] for a [MarkupError]. *)
Definition handle_tag (tag_text : text) (stack : list tag) : option (list tag) :=
  let (name, parameters) := partition_equals tag_text in
  match name with
  | 47 :: closed =>
      let popped :=
        match strip closed with
        | [] => match stack with t :: rest => Some (t, rest) | [] => None end
        | style_name => pop_style (normalize style_name) stack
        end in
      match popped with
      | Some (open_tag, rest) =>
          match tag_name open_tag, tag_parameters open_tag with
          | 64 :: _, Some (_ :: _) => None
          | _, _ => Some rest
          end
      | None => None
      end
  | _ => Some ({| tag_name := normalize name; tag_parameters := parameters |} :: stack)
  end.

Fixpoint leading_backslashes (s : text) : nat :=
  match s with
  | c :: r => if c =? 92 then S (leading_backslashes r) else O
  | [] => O
  end.

(** Where the scan is: outside a tag, after so many backslashes, or inside
    the brackets of what may be a tag, whose text so far is kept with its
    last character first. *)
Inductive scan_state :=
  | Outside (backslashes : nat)
  | Inside (escapes : nat) (tag_text : text).

Definition open_bracket (escapes : nat) (rest : text) : scan_state :=
  match rest with
  | c :: _ => if tag_start c then Inside escapes [] else Outside 0
  | [] => Outside 0
  end.

Fixpoint scan_markup (s : text) (state : scan_state) (stack : list tag) : bool :=
  match s with
  | [] => false
  | c :: r =>
      match state with
      | Outside backslashes =>
          if c =? 92 then scan_markup r (Outside (S backslashes)) stack
          else if c =? 91 then scan_markup r (open_bracket backslashes r) stack
          else scan_markup r (Outside 0) stack
      | Inside escapes tag_text =>
          if c =? 93 then
            if Nat.odd escapes then scan_markup r (Outside 0) stack
            else match handle_tag (reverse tag_text) stack with
                 | Some stack' => scan_markup r (Outside 0) stack'
                 | None => true
                 end
          else if c =? 91 then
            scan_markup r (open_bracket (leading_backslashes tag_text) r) stack
          else scan_markup r (Inside escapes (c :: tag_text)) stack
      end
  end.

Definition render_refused (s : text) : bool := scan_markup s (Outside 0) [].

(** The digits of a float lexeme before its exponent. *)
Fixpoint mantissa (lexeme : text) : text :=
  match lexeme with
  | [] => []
  | c :: r => if (c =? 101) || (c =? 69) then [] else c :: mantissa r
  end.

(** An instance to evaluate the program on ASCII strings and files, on
    floats within the range of a double and on markup whose tags are
    spelled the same where they mean the same style, with the limits of a
    default interpreter. *)
Instance ascii_python : Python := {|
  isalnum := ascii_isalnum;
  lower := List.map ascii_lower;
  format_other := λ _, txt "<object>";
  float_nonzero := λ lexeme,
    existsb (λ c, (49 <=? c) && (c <=? 57) || (c =? 78) || (c =? 73))
      (mantissa lexeme);
  decode := λ b, if bool_decide (Forall (λ c, c < 128) b) then Some b else None;
  json_depth := 1000;
  int_max_str_digits := 4300;
  markup_refused := render_refused;
  isalnum_ascii := λ _ _, eq_refl;
  decode_ascii := λ b Hb,
    @eq_ind_r bool true (λ x, (if x then Some b else None) = Some b) eq_refl
      _ (bool_decide_eq_true_2 _ Hb);
  json_depth_positive := Nat.lt_0_succ _;
|}.

(** What [f.read()] returns for a file opened with [open(path, 'r')]: the
    bytes decoded, with every line ending translated to a line feed. *)
Fixpoint universal_newlines (s : text) : text :=
  match s with
  | [] => []
  | c :: s' =>
      if c =? 13 then
        10 :: match s' with
              | d :: s'' =>
                  if d =? 10 then universal_newlines s''
                  else universal_newlines s'
              | [] => []
              end
      else c :: universal_newlines s'
  end.

Definition read_text `{Python} (content : list N) : outcome (list N) :=
  match decode content with
  | Some s => Ok (universal_newlines s)
  | None => Raise UnicodeDecodeError
  end.

(** [dict] lookup and insertion on the fields of an object. *)
Fixpoint dict_lookup (k : text) (d : list (text * json)) : option json :=
  match d with
  | [] => None
  | (k', v) :: d' => if text_eqb k k' then Some v else dict_lookup k d'
  end.

Fixpoint dict_set (k : text) (v : json) (d : list (text * json))
  : list (text * json) :=
  match d with
  | [] => [(k, v)]
  | (k', v') :: d' =>
      if text_eqb k k' then (k', v) :: d' else (k', v') :: dict_set k v d'
  end.

(** [f"{v}"] *)
Definition format `{Python} (v : json) : text :=
  match v with
  | JStr s => s
  | _ => format_other v
  end.

(** [bool(v)] *)
Definition truthy `{Python} (v : json) : bool :=
  match v with
  | JNull => false
  | JBool b => b
  | JInt z => negb (Z.eqb z 0)
  | JFloat lexeme => float_nonzero lexeme
  | JStr s => negb (text_eqb s [])
  | JArr l => match l with [] => false | _ => true end
  | JObj d => match d with [] => false | _ => true end
  end.

(** [v.get(k, fallback)]: only a [dict] has the method. *)
Definition py_get (v : json) (k : text) (fallback : json) : outcome json :=
  match v with
  | JObj d => Ok (default fallback (dict_lookup k d))
  | _ => Raise AttributeError
  end.

(** [v[k]] for a string key [k]. *)
Definition py_getitem (v : json) (k : text) : outcome json :=
  match v with
  | JObj d =>
      match dict_lookup k d with
      | Some x => Ok x
      | None => Raise (KeyError k)
      end
  | _ => Raise TypeError
  end.

(** [len(v)] *)
Definition py_len (v : json) : outcome nat :=
  match v with
  | JStr s => Ok (length s)
  | JArr l => Ok (length l)
  | JObj d => Ok (length d)
  | _ => Raise TypeError
  end.

(** The items [for x in v] visits. *)
Definition py_iter (v : json) : outcome (list json) :=
  match v with
  | JStr s => Ok (List.map (λ c, JStr [c]) s)
  | JArr l => Ok l
  | JObj d => Ok (List.map (λ kv, JStr (fst kv)) d)
  | _ => Raise TypeError
  end.

(** ** The [json] module

    [json.dump] with its defaults ([ensure_ascii=True]) on the one shape
    [save_token] writes, and [json.load] on any text. *)
Module Json.

Definition hex_digit (n : N) : N := if n <? 10 then 48 + n else 87 + n.

(** ['{0:04x}'.format(n)] for [n < 0x10000] *)
Definition hex4 (n : N) : text :=
  [hex_digit (n / 4096 mod 16); hex_digit (n / 256 mod 16);
   hex_digit (n / 16 mod 16); hex_digit (n mod 16)].

Definition u_escape (n : N) : text := 92 :: 117 :: hex4 n.

(** [py_encode_basestring_ascii]'s replacement of one character. *)
Definition encode_char (c : N) : text :=
  if c =? 92 then [92; 92]
  else if c =? 34 then [92; 34]
  else if c =? 8 then [92; 98]
  else if c =? 12 then [92; 102]
  else if c =? 10 then [92; 110]
  else if c =? 13 then [92; 114]
  else if c =? 9 then [92; 116]
  else if (32 <=? c) && (c <=? 126) then [c]
  else if c <? 0x10000 then u_escape c
  else
    let n := c - 0x10000 in
    u_escape (N.lor 0xD800 (N.land (N.shiftr n 10) 0x3FF))
    ++ u_escape (N.lor 0xDC00 (N.land n 0x3FF)).

Definition encode_basestring_ascii (s : text) : text :=
  34 :: flat_map encode_char s ++ [34].

(** [json.dumps({key: value})] for two strings. *)
Definition dumps_singleton (key value : text) : text :=
  [123] ++ encode_basestring_ascii key ++ [58; 32]
  ++ encode_basestring_ascii value ++ [125].

Definition hex_value (c : N) : option N :=
  if (48 <=? c) && (c <=? 57) then Some (c - 48)
  else if (97 <=? c) && (c <=? 102) then Some (c - 87)
  else if (65 <=? c) && (c <=? 70) then Some (c - 55)
  else None.

Definition decode_hex4 (a b c d : N) : option N :=
  match hex_value a, hex_value b, hex_value c, hex_value d with
  | Some x3, Some x2, Some x1, Some x0 =>
      Some (4096 * x3 + 256 * x2 + 16 * x1 + x0)
  | _, _, _, _ => None
  end.

(** The [BACKSLASH] table of the decoder. *)
Definition backslash (esc : N) : option N :=
  if esc =? 34 then Some 34
  else if esc =? 92 then Some 92
  else if esc =? 47 then Some 47
  else if esc =? 98 then Some 8
  else if esc =? 102 then Some 12
  else if esc =? 110 then Some 10
  else if esc =? 114 then Some 13
  else if esc =? 116 then Some 9
  else None.

Definition join_surrogates (hi lo : N) : N :=
  0x10000 + N.lor (N.shiftl (hi - 0xD800) 10) (lo - 0xDC00).

Definition prepend (c : N) (r : option (text * text)) : option (text * text) :=
  match r with
  | Some (body, rest) => Some (c :: body, rest)
  | None => None
  end.

(** [scanstring] (strict), started after the opening quote: the decoded
    string and the text after the closing quote, [None] for a
    [JSONDecodeError]. *)
Fixpoint scanstring (s : text) : option (text * text) :=
  match s with
  | [] => None
  | c :: s1 =>
      if c =? 34 then Some ([], s1)
      else if c =? 92 then
        match s1 with
        | [] => None
        | esc :: s2 =>
            if esc =? 117 then
              match s2 with
              | h3 :: h2 :: h1 :: h0 :: s3 =>
                  match decode_hex4 h3 h2 h1 h0 with
                  | None => None
                  | Some uni =>
                      if is_high_surrogate uni then
                        match s3 with
                        | b :: s4 =>
                            if b =? 92 then
                              match s4 with
                              | u :: s5 =>
                                  if u =? 117 then
                                    match s5 with
                                    | l3 :: l2 :: l1 :: l0 :: s6 =>
                                        match decode_hex4 l3 l2 l1 l0 with
                                        | None => None
                                        | Some uni2 =>
                                            if is_low_surrogate uni2
                                            then prepend (join_surrogates uni uni2)
                                                   (scanstring s6)
                                            else prepend uni (scanstring s3)
                                        end
                                    | _ => None
                                    end
                                  else prepend uni (scanstring s3)
                              | [] => prepend uni (scanstring s3)
                              end
                            else prepend uni (scanstring s3)
                        | [] => prepend uni (scanstring s3)
                        end
                      else prepend uni (scanstring s3)
                  end
              | _ => None
              end
            else
              match backslash esc with
              | Some ch => prepend ch (scanstring s2)
              | None => None
              end
        end
      else if c <? 32 then None
      else prepend c (scanstring s1)
  end.

(** What the scanner finds after a high surrogate escape: [true] when it
    does not simply go on with the next character. *)
Definition pairs_ahead (s : text) : bool :=
  match s with
  | b :: u :: s' =>
      (b =? 92) && (u =? 117) &&
      match s' with
      | l3 :: l2 :: l1 :: l0 :: _ =>
          match decode_hex4 l3 l2 l1 l0 with
          | Some uni2 => is_low_surrogate uni2
          | None => true
          end
      | _ => true
      end
  | _ => false
  end.

Definition is_ws (c : N) : bool :=
  (c =? 32) || (c =? 9) || (c =? 10) || (c =? 13).

Fixpoint skip_ws (s : text) : text :=
  match s with
  | c :: s' => if is_ws c then skip_ws s' else s
  | [] => []
  end.

Fixpoint strip_prefix (p s : text) : option text :=
  match p, s with
  | [], _ => Some s
  | a :: p', b :: s' => if a =? b then strip_prefix p' s' else None
  | _ :: _, [] => None
  end.

Definition is_digit (c : N) : bool := (48 <=? c) && (c <=? 57).

Fixpoint span_digits (s : text) : text * text :=
  match s with
  | c :: s' =>
      if is_digit c then let (d, r) := span_digits s' in (c :: d, r)
      else ([], s)
  | [] => ([], [])
  end.

Definition digits_value (d : text) : Z :=
  fold_left (λ acc c, 10 * acc + Z.of_N (c - 48))%Z d 0%Z.

(** [NUMBER_RE]: an optional minus sign and an integer part, zero or a
    digit sequence that does not start with zero; then, each optional, a
    point with digits and an exponent with digits.  Each part is returned
    with the text after it. *)
Definition number_sign (s : text) : bool * text :=
  match s with
  | c :: s' => if c =? 45 then (true, s') else (false, s)
  | [] => (false, s)
  end.

Definition number_integer (s : text) : option (text * text) :=
  match s with
  | c :: s' =>
      if c =? 48 then Some ([48], s')
      else if is_digit c then
        let (d, r) := span_digits s' in Some (c :: d, r)
      else None
  | [] => None
  end.

Definition number_fraction (s : text) : text * text :=
  match s with
  | c :: s' =>
      if c =? 46 then
        match span_digits s' with
        | ([], _) => ([], s)
        | (d, r) => (46 :: d, r)
        end
      else ([], s)
  | [] => ([], s)
  end.

Definition number_exponent (s : text) : text * text :=
  match s with
  | c :: s' =>
      if (c =? 101) || (c =? 69) then
        let (sg, s'') :=
          match s' with
          | g :: t => if (g =? 45) || (g =? 43) then ([g], t) else ([], s')
          | [] => ([], s')
          end in
        match span_digits s'' with
        | ([], _) => ([], s)
        | (d, r) => (c :: sg ++ d, r)
        end
      else ([], s)
  | [] => ([], s)
  end.

(** A match of [NUMBER_RE]: the lexeme of an integer, with its sign apart,
    or of a float. *)
Inductive number :=
  | IntLexeme (negative : bool) (digits : text)
  | FloatLexeme (lexeme : text).

Definition match_number (s : text) : option (number * text) :=
  let (neg, s0) := number_sign s in
  match number_integer s0 with
  | None => None
  | Some (ip, s1) =>
      let (frac, s2) := number_fraction s1 in
      let (exp, s3) := number_exponent s2 in
      match frac, exp with
      | [], [] => Some (IntLexeme neg ip, s3)
      | _, _ => Some (FloatLexeme ((if neg then [45] else []) ++ ip ++ frac ++ exp), s3)
      end
  end.

Section Scanner.
Context `{Python}.

(** [int(digits)] refuses more digits than the limit allows, which is not
    looked at below 640 digits. *)
Definition too_many_digits (digits : text) : bool :=
  (640 <? length digits)%nat && (0 <? int_max_str_digits)%nat
  && (int_max_str_digits <? length digits)%nat.

(** The value of a number: an integer lexeme becomes an [int], any other a
    [float]. *)
Definition number_value (n : number) : outcome json :=
  match n with
  | IntLexeme neg digits =>
      if too_many_digits digits then Raise ValueError
      else Ok (JInt (if neg then - digits_value digits else digits_value digits)%Z)
  | FloatLexeme lexeme => Ok (JFloat lexeme)
  end.

(** The values that are no string, object or array, in the order
    [_scan_once] tries them. *)
Definition scan_literal (s : text) : outcome (json * text) :=
  match strip_prefix (txt "null") s with
  | Some r => Ok (JNull, r)
  | None =>
  match strip_prefix (txt "true") s with
  | Some r => Ok (JBool true, r)
  | None =>
  match strip_prefix (txt "false") s with
  | Some r => Ok (JBool false, r)
  | None =>
  match match_number s with
  | Some (n, r) =>
      match number_value n with
      | Ok v => Ok (v, r)
      | Raise e => Raise e
      end
  | None =>
  match strip_prefix (txt "NaN") s with
  | Some r => Ok (JFloat (txt "NaN"), r)
  | None =>
  match strip_prefix (txt "Infinity") s with
  | Some r => Ok (JFloat (txt "Infinity"), r)
  | None =>
  match strip_prefix (txt "-Infinity") s with
  | Some r => Ok (JFloat (txt "-Infinity"), r)
  | None => Raise JSONDecodeError
  end end end end end end end.

(** The scanner: [_scan_once], [JSONObject] and [JSONArray].  [depth] is
    the number of arrays and objects that can still be entered: entering
    one more raises [RecursionError].  Every call spends one unit of fuel;
    [scan_once_enough] shows that [loads] gives them enough, so that the
    result for no fuel is never seen. *)
Fixpoint scan_once (fuel depth : nat) (s : text) {struct fuel}
  : outcome (json * text) :=
  match fuel with
  | O => Raise JSONDecodeError
  | S n =>
      match s with
      | [] => Raise JSONDecodeError
      | c :: s' =>
          if c =? 34 then
            match scanstring s' with
            | Some (body, r) => Ok (JStr body, r)
            | None => Raise JSONDecodeError
            end
          else if c =? 123 then
            match depth with
            | O => Raise RecursionError
            | S d => json_object n d s'
            end
          else if c =? 91 then
            match depth with
            | O => Raise RecursionError
            | S d => json_array n d s'
            end
          else scan_literal s
      end
  end

with json_object (fuel depth : nat) (s : text) {struct fuel}
  : outcome (json * text) :=
  match fuel with
  | O => Raise JSONDecodeError
  | S n =>
      match skip_ws s with
      | c :: r =>
          if c =? 125 then Ok (JObj [], r)
          else if c =? 34 then object_members n depth r []
          else Raise JSONDecodeError
      | [] => Raise JSONDecodeError
      end
  end

with object_members (fuel depth : nat) (s : text) (pairs : list (text * json))
  {struct fuel} : outcome (json * text) :=
  match fuel with
  | O => Raise JSONDecodeError
  | S n =>
      match scanstring s with
      | None => Raise JSONDecodeError
      | Some (key, s1) =>
          match skip_ws s1 with
          | c :: s2 =>
              if c =? 58 then
                match scan_once n depth (skip_ws s2) with
                | Raise e => Raise e
                | Ok (value, s3) =>
                    let pairs' := dict_set key value pairs in
                    match skip_ws s3 with
                    | d :: s4 =>
                        if d =? 125 then Ok (JObj pairs', s4)
                        else if d =? 44 then
                          match skip_ws s4 with
                          | q :: s5 =>
                              if q =? 34 then object_members n depth s5 pairs'
                              else Raise JSONDecodeError
                          | [] => Raise JSONDecodeError
                          end
                        else Raise JSONDecodeError
                    | [] => Raise JSONDecodeError
                    end
                end
              else Raise JSONDecodeError
          | [] => Raise JSONDecodeError
          end
      end
  end

with json_array (fuel depth : nat) (s : text) {struct fuel}
  : outcome (json * text) :=
  match fuel with
  | O => Raise JSONDecodeError
  | S n =>
      match skip_ws s with
      | c :: r =>
          if c =? 93 then Ok (JArr [], r)
          else array_items n depth (c :: r) []
      | [] => Raise JSONDecodeError
      end
  end

with array_items (fuel depth : nat) (s : text) (values : list json)
  {struct fuel} : outcome (json * text) :=
  match fuel with
  | O => Raise JSONDecodeError
  | S n =>
      match scan_once n depth s with
      | Raise e => Raise e
      | Ok (value, s1) =>
          let values' := values ++ [value] in
          match skip_ws s1 with
          | d :: s2 =>
              if d =? 93 then Ok (JArr values', s2)
              else if d =? 44 then array_items n depth (skip_ws s2) values'
              else Raise JSONDecodeError
          | [] => Raise JSONDecodeError
          end
      end
  end.

(** [json.loads]: the value, or the exception that leaves it: a
    [JSONDecodeError] for a text that is not JSON, a [RecursionError] for
    one that is nested too deep, a [ValueError] for an integer of too many
    digits, whichever comes first in the text. *)
Definition loads (s : text) : outcome json :=
  match s with
  | 0xFEFF :: _ => Raise JSONDecodeError
  | _ =>
      match scan_once (4 + 4 * length s) json_depth (skip_ws s) with
      | Ok (v, r) =>
          match skip_ws r with
          | [] => Ok v
          | _ :: _ => Raise JSONDecodeError
          end
      | Raise e => Raise e
      end
  end.

End Scanner.

End Json.

(** ** [os.path] (POSIX) *)

(** [p.rfind(c)] *)
Fixpoint rfind (c : N) (p : text) : option nat :=
  match p with
  | [] => None
  | x :: p' =>
      match rfind c p' with
      | Some i => Some (S i)
      | None => if x =? c then Some O else None
      end
  end.

(** [os.path.splitext]: the extension starts at the last dot of the last
    component, unless only dots precede it there. *)
Definition splitext (p : text) : text * text :=
  match rfind 46 p with
  | None => (p, [])
  | Some dotIndex =>
      let start := match rfind 47 p with Some i => S i | None => O end in
      if bool_decide (start ≤ dotIndex)%nat
         && existsb (λ x, negb (x =? 46)) (take (dotIndex - start) (drop start p))
      then (take dotIndex p, drop dotIndex p)
      else (p, [])
  end.

(** [os.path.join(a, b)] *)
Definition path_join (a b : text) : text :=
  match b with
  | 47 :: _ => b
  | _ =>
      match a with
      | [] => b
      | _ => if bool_decide (last a = Some 47) then a ++ b else a ++ 47 :: b
      end
  end.

(** [link.split('/')[-1]] *)
Definition last_segment (link : text) : text :=
  match rfind 47 link with
  | Some i => drop (S i) link
  | None => link
  end.

(** The components of a path: [p.split('/')]. *)
Fixpoint split_slash (p : text) : list (list N) :=
  match p with
  | [] => [[]]
  | c :: p' =>
      if c =? 47 then [] :: split_slash p'
      else
        match split_slash p' with
        | comp :: rest => (c :: comp) :: rest
        | [] => [[c]]
        end
  end.

(** The directory reached from [place] through the component [comp].  A
    place is the list of the names that lead to it, the last one first, from
    the root when the path is absolute and from the current directory
    otherwise; above the current directory the names are [..]. *)
Definition walk (absolute : bool) (place : list (list N)) (comp : list N)
  : list (list N) :=
  if text_eqb comp [] || text_eqb comp (txt ".") then place
  else if text_eqb comp (txt "..") then
    match place with
    | [] => if absolute then [] else [comp]
    | name :: above =>
        if text_eqb name (txt "..") then comp :: place else above
    end
  else comp :: place.

(** The path of a place, without empty components, [.] and [..] inside. *)
Definition place_path (absolute : bool) (place : list (list N)) : list N :=
  (if absolute then [47] else [])
  ++ match reverse place with
     | [] => []
     | name :: names => name ++ flat_map (λ n, 47 :: n) names
     end.

(** A place that [mkdir] can create: not the root, the current directory or
    a directory above it. *)
Definition creatable (place : list (list N)) : bool :=
  match place with
  | [] => false
  | name :: _ => negb (text_eqb name (txt ".."))
  end.

Fixpoint places_from (absolute : bool) (place : list (list N))
    (comps : list (list N)) : list (list N) :=
  match comps with
  | [] => []
  | comp :: comps' =>
      let place' := walk absolute place comp in
      (if creatable place' then [place_path absolute place'] else [])
      ++ places_from absolute place' comps'
  end.

(** The directories [os.makedirs(path)] needs, the outermost first: the
    directory of every prefix of [path] that ends with a component. *)
Definition makedirs_places (path : list N) : list (list N) :=
  places_from (match path with 47 :: _ => true | _ => false end) []
    (split_slash path).

(** ** The world the program runs in *)

(** A task of [rich.progress.Progress]. *)
Record task := { total : nat; completed : nat }.

(** What the program prints. *)
Inductive message :=
  | ApiRequestError        (* Error making API request *)
  | DownloadError          (* Error downloading file *)
  | ConvertError (e : exn) (* Error converting image *)
  | PackUnavailable        (* Could not retrieve sticker pack information *)
  | PackTitle (title : json)
  | DownloadComplete.

(** The calls of the helpers, in order. *)
Inductive call :=
  | make_api_request_call (endpoint : text) (param : text * json)
  | download_file_call (file_path save_path : text)
  | convert_webp_to_png_call (webp_path png_path : text).

Record world := {
  files : gmap text (list N);
  dirs : gset text;
  console : list message;
  download_task : task;
  convert_task : task;
  calls : list call;
}.

(** The [content-length] header of a response. *)
Inductive content_length :=
  | NoHeader
  | Header (n : nat)
  | BadHeader.

(** A streamed download: the request fails, or a response arrives whose body
    comes in chunks, after which the stream ends or breaks. *)
Inductive stream :=
  | Refused
  | Body (header : content_length) (chunks : list (list N)) (broken : bool).

(** What the program does not decide.  The first argument of the two
    responses is the number of helper calls made so far, the asking one
    included.
    - [api_response]: what [requests.get], [raise_for_status] and
      [response.json()] lead to, the body or the exception one of them
      raises: a [RequestException] or another one;
    - [stream_response]: the stream of a download;
    - [unwritable]: the paths that [open] cannot open for writing and
      [mkdir] cannot create;
    - [unreadable]: the paths at which there is something that [open]
      cannot open for reading, a directory or a file that may not be read;
    - [unremovable]: the paths that [os.remove] cannot remove;
    - [reencode_png]: the PNG image of a file that [Image.open] and
      [img.save] can read;
    - [error_text]: [str(e)] of the exception whose message is printed
      after so many others. *)
Record env := {
  api_response : nat → text → text * json → outcome json;
  stream_response : nat → text → stream;
  unwritable : text → bool;
  unreadable : text → bool;
  unremovable : text → bool;
  reencode_png : list N → option (list N);
  error_text : nat → text;
}.

(** ** The markup of the messages

    The text of [PackUnavailable] and of [DownloadComplete] is fixed and is
    valid markup; the other messages interpolate the title of the pack or
    the text of an exception. *)

Definition title_markup `{Python} (title : json) : text :=
  txt "[bold cyan]Downloading Sticker Pack:[/bold cyan] [yellow]"
  ++ format title ++ txt "[/yellow]".

Definition markup `{Python} (E : env) (n : nat) (m : message) : option text :=
  match m with
  | ApiRequestError =>
      Some (txt "[bold red]Error making API request:[/bold red] " ++ error_text E n)
  | DownloadError =>
      Some (txt "[bold red]Error downloading file:[/bold red] " ++ error_text E n)
  | ConvertError _ =>
      Some (txt "[bold red]Error converting image:[/bold red] " ++ error_text E n)
  | PackTitle title => Some (title_markup title)
  | PackUnavailable | DownloadComplete => None
  end.

(** [console.print] refuses the message printed after [n] others. *)
Definition markup_error `{Python} (E : env) (n : nat) (m : message) : bool :=
  match markup E n m with
  | Some s => markup_refused s
  | None => false
  end.

(** ** State and exceptions *)

Definition M (A : Type) : Type := world → outcome A * world.

#[export] Instance M_ret : MRet M := λ A a w, (Ok a, w).
#[export] Instance M_bind : MBind M := λ A B f m w,
  match m w with
  | (Ok a, w') => f a w'
  | (Raise e, w') => (Raise e, w')
  end.

Definition raise {A} (e : exn) : M A := λ w, (Raise e, w).
Definition lift {A} (r : outcome A) : M A := λ w, (r, w).
Definition get_world : M world := λ w, (Ok w, w).
Definition modify (f : world → world) : M unit := λ w, (Ok (), f w).

(** [try: m except <catches> as e: handler e] *)
Definition try_except {A} (m : M A) (catches : exn → bool) (handler : exn → M A)
  : M A := λ w,
  match m w with
  | (Raise e, w') => if catches e then handler e w' else (Raise e, w')
  | r => r
  end.

Definition is_RequestException (e : exn) : bool :=
  match e with RequestException => true | _ => false end.
Definition is_JSONDecodeError (e : exn) : bool :=
  match e with JSONDecodeError => true | _ => false end.
Definition is_Exception (e : exn) : bool := true.

Fixpoint for_each {A} (l : list A) (body : A → M unit) : M unit :=
  match l with
  | [] => mret ()
  | x :: l' => body x;; for_each l' body
  end.

(** Updates of one field of the world. *)
Definition say (m : message) (w : world) : world :=
  {| files := files w; dirs := dirs w; console := console w ++ [m];
     download_task := download_task w; convert_task := convert_task w;
     calls := calls w |}.

Definition log_call (c : call) (w : world) : world :=
  {| files := files w; dirs := dirs w; console := console w;
     download_task := download_task w; convert_task := convert_task w;
     calls := calls w ++ [c] |}.

Definition with_files (f : gmap (list N) (list N)) (w : world) : world :=
  {| files := f; dirs := dirs w; console := console w;
     download_task := download_task w; convert_task := convert_task w;
     calls := calls w |}.

Definition with_dirs (d : gset (list N)) (w : world) : world :=
  {| files := files w; dirs := d; console := console w;
     download_task := download_task w; convert_task := convert_task w;
     calls := calls w |}.

Definition with_download_task (t : task) (w : world) : world :=
  {| files := files w; dirs := dirs w; console := console w;
     download_task := t; convert_task := convert_task w; calls := calls w |}.

Definition with_convert_task (t : task) (w : world) : world :=
  {| files := files w; dirs := dirs w; console := console w;
     download_task := download_task w; convert_task := t; calls := calls w |}.

Definition record_call (c : call) : M unit := modify (log_call c).
Definition set_files (f : gmap (list N) (list N)) : M unit := modify (with_files f).
Definition set_download_task (t : task) : M unit := modify (with_download_task t).
Definition set_convert_task (t : task) : M unit := modify (with_convert_task t).

Definition advance (n : nat) (t : task) : task :=
  {| total := total t; completed := completed t + n |}.

(** ** The program *)

Definition OUTPUT_FOLDER : text := txt "stickers".
Definition CONFIG_FILE : text := txt "config.json".

Section Program.
Context `{Python} (E : env).

(** [console.print] of a message, printed after [n] others: a
    [MarkupError] when its markup is refused. *)
Definition print (m : message) : M unit :=
  w ← get_world;
  if markup_error E (length (console w)) m
  then raise MarkupError
  else modify (say m).

(** *** class TelegramStickerDownloader *)

(** [requests.get(url, params=params)], [raise_for_status()] and [json()]:
    the body, or the exception that one of the three raises. *)
Definition requests_get_json (endpoint : text) (param : text * json) : M json :=
  w ← get_world;
  lift (api_response E (length (calls w)) endpoint param).

Definition _make_api_request (endpoint : text) (param : text * json) : M json :=
  record_call (make_api_request_call endpoint param);;
  try_except (requests_get_json endpoint param)
    is_RequestException
    (λ _, print ApiRequestError;; mret JNull).

Definition _get_sticker_set (pack_name : text) : M json :=
  _make_api_request (txt "getStickerSet") (txt "name", JStr pack_name).

Definition _get_file_info (file_id : json) : M json :=
  _make_api_request (txt "getFile") (txt "file_id", file_id).

(** [f.write(chunk)] and [progress.update(task_id, advance=len(chunk))],
    where [task_id] is the download task. *)
Definition write_chunk (save_path : text) (chunk : list N) : M unit :=
  w ← get_world;
  set_files (<[save_path := default [] (files w !! save_path) ++ chunk]> (files w));;
  w ← get_world;
  set_download_task (advance (length chunk) (download_task w)).

(** The body of the [try] of [_download_file]. *)
Definition stream_to_file (file_path save_path : text) : M unit :=
  w ← get_world;
  match stream_response E (length (calls w)) file_path with
  | Refused => raise RequestException
  | Body header chunks broken =>
      total_size ← match header with
                   | NoHeader => mret O
                   | Header n => mret n
                   | BadHeader => raise ValueError
                   end;
      set_download_task {| total := total_size;
                           completed := completed (download_task w) |};;
      (if unwritable E save_path then raise OSError
       else set_files (<[save_path := []]> (files w)));;
      for_each chunks (write_chunk save_path);;
      if broken then raise RequestException else mret ()
  end.

Definition _download_file (file_path save_path : text) : M unit :=
  record_call (download_file_call file_path save_path);;
  try_except (stream_to_file file_path save_path)
    is_RequestException
    (λ _, print DownloadError).

(** The body of the [try] of [_convert_webp_to_png]: [Image.open],
    [img.save(png_path, 'PNG')] and [os.remove(webp_path)]. *)
Definition open_save_remove (webp_path png_path : text) : M unit :=
  w ← get_world;
  if unreadable E webp_path then raise OSError
  else
    match files w !! webp_path with
    | None => raise OSError
    | Some source =>
        match reencode_png E source with
        | None => raise UnidentifiedImageError
        | Some png =>
            if unwritable E png_path then raise OSError
            else
              set_files (<[png_path := png]> (files w));;
              if unremovable E webp_path then raise OSError
              else
                w ← get_world;
                set_files (delete webp_path (files w))
        end
    end.

Definition _convert_webp_to_png (webp_path png_path : text) : M unit :=
  record_call (convert_webp_to_png_call webp_path png_path);;
  try_except (open_save_remove webp_path png_path)
    is_Exception
    (λ e, print (ConvertError e)).


(** [s.isalnum()] of a string *)
Definition str_isalnum (s : text) : bool :=
  negb (text_eqb s []) && forallb isalnum s.

(** [''.join(c for c in x if c.isalnum())]: the items of [x] must be
    strings to have the method. *)
Fixpoint join_alnum (items : list json) : outcome text :=
  match items with
  | [] => Ok []
  | JStr c :: items' =>
      r ← join_alnum items';
      mret (if str_isalnum c then c ++ r else r)
  | _ :: _ => Raise AttributeError
  end.

Definition sanitize (emoji : json) : outcome text :=
  match emoji with
  | JStr s => Ok (List.filter isalnum s)
  | _ => items ← py_iter emoji; join_alnum items
  end.

(** Lines 143 to 148: the part of both file names before the extension. *)
Definition sticker_stem (sticker : json) : outcome text :=
  file_unique_id ← py_getitem sticker (txt "file_unique_id");
  emoji ← py_get sticker (txt "emoji") (JStr (txt "sticker"));
  sanitized_emoji ← sanitize emoji;
  mret (format file_unique_id ++ [95] ++ sanitized_emoji).

Definition is_webp (file_extension : text) : bool :=
  text_eqb (lower file_extension) (txt ".webp").

(** [response and response.get("ok")], as a truth value. *)
Definition is_ok (response : json) : outcome bool :=
  if truthy response
  then ok ← py_get response (txt "ok") JNull; mret (truthy ok)
  else mret false.

(** The body of the [if file_info and file_info.get("ok")]. *)
Definition fetch_sticker (pack_folder : text) (sticker file_info : json) : M unit :=
  result ← lift (py_getitem file_info (txt "result"));
  file_path ← lift (py_getitem result (txt "file_path"));
  match file_path with
  | JStr file_path =>
      let file_extension := (splitext file_path).2 in
      stem ← lift (sticker_stem sticker);
      let file_name := stem ++ file_extension in
      let webp_save_path := path_join pack_folder file_name in
      _download_file file_path webp_save_path;;
      (if is_webp file_extension then
         let png_file_name := stem ++ txt ".png" in
         let png_save_path := path_join pack_folder png_file_name in
         _convert_webp_to_png webp_save_path png_save_path
       else mret ());;
      w ← get_world;
      set_convert_task (advance 1 (convert_task w))
  | _ => raise TypeError
  end.

(** The body of the [for sticker in stickers]. *)
Definition process_sticker (pack_folder : text) (sticker : json) : M unit :=
  file_id ← lift (py_getitem sticker (txt "file_id"));
  file_info ← _get_file_info file_id;
  ok ← lift (is_ok file_info);
  (if ok : bool then fetch_sticker pack_folder sticker file_info else mret ());;
  w ← get_world;
  set_download_task (advance 1 (download_task w)).

(** [os.makedirs(path, exist_ok=True)] creates the directories that are
    not there, the outermost first, and stops at the first one that is a
    file or cannot be created; the empty path is no directory. *)
Fixpoint ensure_dirs (present : gmap (list N) (list N)) (made : gset (list N))
    (places : list (list N)) : outcome unit * gset (list N) :=
  match places with
  | [] => (Ok (), made)
  | place :: places' =>
      if bool_decide (place ∈ made) then ensure_dirs present made places'
      else if bool_decide (is_Some (present !! place)) || unwritable E place
      then (Raise OSError, made)
      else ensure_dirs present ({[place]} ∪ made) places'
  end.

Definition makedirs (path : text) : M unit := λ w,
  if text_eqb path [] then (Raise OSError, w)
  else
    let (r, made) := ensure_dirs (files w) (dirs w) (makedirs_places path) in
    (r, with_dirs made w).

Definition download_sticker_pack (sticker_pack_link output_folder : text) : M unit :=
  let pack_name := last_segment sticker_pack_link in
  pack_info ← _get_sticker_set pack_name;
  ok ← lift (is_ok pack_info);
  if negb (ok : bool) then print PackUnavailable
  else
    let pack_folder := path_join output_folder pack_name in
    makedirs pack_folder;;
    result ← lift (py_getitem pack_info (txt "result"));
    title ← lift (py_getitem result (txt "title"));
    print (PackTitle title);;
    result ← lift (py_getitem pack_info (txt "result"));
    stickers ← lift (py_getitem result (txt "stickers"));
    n ← lift (py_len stickers);
    set_download_task {| total := n; completed := 0 |};;
    n ← lift (py_len stickers);
    set_convert_task {| total := n; completed := 0 |};;
    items ← lift (py_iter stickers);
    for_each items (process_sticker pack_folder);;
    print DownloadComplete.

(** *** The credential store *)

(** [json.load(f)] for a file opened with [open(path, 'r')] *)
Definition json_load (content : list N) : M json :=
  s ← lift (read_text content);
  lift (Json.loads s).

(** [os.path.exists] is true of a file and of what [open] cannot read, and
    the [OSError] of [open] is not caught. *)
Definition load_token : M json :=
  w ← get_world;
  if unreadable E CONFIG_FILE then raise OSError
  else
    match files w !! CONFIG_FILE with
    | Some content =>
        try_except
          (config ← json_load content;
           lift (py_get config (txt "bot_token") JNull))
          is_JSONDecodeError
          (λ _, mret JNull)
    | None => mret JNull
    end.

(** [json.dump] writes ASCII characters only, which every codec of a
    locale writes as the bytes of the same values. *)
Definition save_token (token : text) : M unit :=
  if unwritable E CONFIG_FILE then raise OSError
  else
    w ← get_world;
    set_files (<[CONFIG_FILE := Json.dumps_singleton (txt "bot_token") token]> (files w)).

End Program.

(** The states of the configuration file in which no token is stored: there
    is no file, its text is refused by [json.load] with a
    [JSONDecodeError], or it is a JSON object without the field. *)
Inductive no_token_stored `{Python} (w : world) : Prop :=
  | config_absent :
      files w !! CONFIG_FILE = None → no_token_stored w
  | config_not_json content s :
      files w !! CONFIG_FILE = Some content →
      read_text content = Ok s → Json.loads s = Raise JSONDecodeError →
      no_token_stored w
  | config_without_field content s d :
      files w !! CONFIG_FILE = Some content →
      read_text content = Ok s → Json.loads s = Ok (JObj d) →
      dict_lookup (txt "bot_token") d = None →
      no_token_stored w.

(** ** Responses *)

(** The pack fetch returns absence ([None] after a [RequestException], or a
    falsy body) or a result that is not ok. *)
Definition fetch_failed `{Python} (response : outcome json) : bool :=
  match response with
  | Raise e => is_RequestException e
  | Ok (JObj d) => negb (truthy (default JNull (dict_lookup (txt "ok") d)))
  | Ok v => negb (truthy v)
  end.

(** ** The console *)

(** The messages that report an exception. *)
Definition is_error (m : message) : bool :=
  match m with
  | ApiRequestError | DownloadError | ConvertError _ => true
  | _ => false
  end.

(** The text of every exception that is reported is valid markup. *)
Definition renders `{Python} (E : env) : Prop :=
  ∀ n m, is_error m = true → markup_error E n m = false.

(** The request of [_make_api_request] returns in the world [w]: it raises
    nothing but a [RequestException] whose message is valid markup. *)
Definition request_returns `{Python} (E : env) (endpoint : text) (param : text * json)
    (w : world) : bool :=
  match api_response E (S (length (calls w))) endpoint param with
  | Ok _ => true
  | Raise e =>
      is_RequestException e
      && negb (markup_error E (length (console w)) ApiRequestError)
  end.

(** ** The conversion *)

(** Every step of [_convert_webp_to_png] succeeds in the world [w]: the
    source is there, can be read and is an image, the destination can be
    written and the source can be removed. *)
Definition converts (E : env) (webp_path png_path : text) (w : world) : bool :=
  negb (unreadable E webp_path)
  && match files w !! webp_path with
     | Some source =>
         match reencode_png E source with
         | Some _ => negb (unwritable E png_path) && negb (unremovable E webp_path)
         | None => false
         end
     | None => false
     end.

(** ** Streams *)

(** The world after a chunk, and after a sequence of chunks, is written to
    [save_path] by [write_chunk]. *)
Definition chunk_written (save_path : text) (w : world) (chunk : list N) : world :=
  with_download_task (advance (length chunk) (download_task w))
    (with_files (<[save_path := default [] (files w !! save_path) ++ chunk]> (files w)) w).

Definition chunks_written (save_path : text) (chunks : list (list N)) (w : world)
  : world :=
  fold_left (chunk_written save_path) chunks w.

(** The size a [content-length] header announces. *)
Definition announced (header : content_length) : nat :=
  match header with Header n => n | _ => O end.

(** The number of bytes a stream delivers. *)
Definition delivered (s : stream) : nat :=
  match s with
  | Refused => O
  | Body _ chunks _ => length (concat chunks)
  end.

(** The stream fails with a [RequestException]. *)
Definition request_fails (s : stream) : bool :=
  match s with
  | Refused => true
  | Body _ _ broken => broken
  end.

(** *** The documented shapes *)

(** A sticker descriptor: an object with a file identifier, a unique
    identifier and, when there is an emoji annotation, a string. *)
Definition sticker_shaped (sticker : json) : Prop :=
  ∃ d, sticker = JObj d
       ∧ is_Some (dict_lookup (txt "file_id") d)
       ∧ is_Some (dict_lookup (txt "file_unique_id") d)
       ∧ (dict_lookup (txt "emoji") d = None
          ∨ ∃ e, dict_lookup (txt "emoji") d = Some (JStr e)).

(** A file-information response: falsy, or an object that is not ok, or an
    object whose result names a file path. *)
Definition file_info_shaped `{Python} (file_info : json) : Prop :=
  fetch_failed (Ok file_info) = true
  ∨ ∃ d r p, file_info = JObj d
             ∧ dict_lookup (txt "result") d = Some (JObj r)
             ∧ dict_lookup (txt "file_path") r = Some (JStr p).

(** A pack response: no response, a falsy one or one that is not ok, or an
    object whose result has a title, which is valid markup between the tags
    of its message, and a list of sticker descriptors. *)
Definition pack_shaped `{Python} (response : outcome json) : Prop :=
  fetch_failed response = true
  ∨ ∃ d r title stickers,
      response = Ok (JObj d)
      ∧ dict_lookup (txt "result") d = Some (JObj r)
      ∧ dict_lookup (txt "title") r = Some title
      ∧ markup_refused (title_markup title) = false
      ∧ dict_lookup (txt "stickers") r = Some (JArr stickers)
      ∧ Forall sticker_shaped stickers.

(** The stream raises nothing but a [RequestException]: its header is
    absent or a number, and the file can be opened for writing. *)
Definition stream_accepted (E : env) (s : stream) (save_path : text) : bool :=
  match s with
  | Refused => true
  | Body BadHeader _ _ => false
  | Body _ _ _ => negb (unwritable E save_path)
  end.

(** The file-location lookup succeeded: [file_info and file_info.get("ok")]
    is true. *)
Definition lookup_succeeded `{Python} (file_info : json) : bool :=
  match is_ok file_info with
  | Ok ok => ok
  | Raise _ => false
  end.

(** The file information the lookup of an item returns in the world [w]:
    [None] after a [RequestException]. *)
Definition file_info_for (E : env) (sticker : json) (w : world) : json :=
  match py_getitem sticker (txt "file_id") with
  | Ok file_id =>
      match api_response E (S (length (calls w))) (txt "getFile")
              (txt "file_id", file_id) with
      | Ok body => body
      | Raise _ => JNull
      end
  | Raise _ => JNull
  end.

(** The path a file-information response names. *)
Definition file_path_of (file_info : json) : text :=
  match file_info with
  | JObj d =>
      match dict_lookup (txt "result") d with
      | Some (JObj r) =>
          match dict_lookup (txt "file_path") r with
          | Some (JStr p) => p
          | _ => []
          end
      | _ => []
      end
  | _ => []
  end.

(** ** Counting on a run *)

Definition is_convert_call (c : call) : bool :=
  match c with convert_webp_to_png_call _ _ => true | _ => false end.

(** The number of calls of [_convert_webp_to_png]. *)
Definition convert_calls (cs : list call) : nat :=
  length (List.filter is_convert_call cs).

(** The file extension a file-information response leads to. *)
Definition file_extension_of (file_info : json) : text :=
  match file_info with
  | JObj d =>
      match dict_lookup (txt "result") d with
      | Some (JObj r) =>
          match dict_lookup (txt "file_path") r with
          | Some (JStr p) => (splitext p).2
          | _ => []
          end
      | _ => []
      end
  | _ => []
  end.

(** ** Logging on a run *)

(** The message a helper call logs when its request fails: the call is the
    [i]-th of the run. *)
Definition request_error (E : env) (i : nat) (c : call) : list message :=
  match c with
  | make_api_request_call endpoint param =>
      match api_response E i endpoint param with
      | Ok _ => []
      | Raise _ => [ApiRequestError]
      end
  | download_file_call file_path _ =>
      if request_fails (stream_response E i file_path) then [DownloadError]
      else []
  | convert_webp_to_png_call _ _ => []
  end.

(** The messages of the failed requests among the calls that follow the
    first [i] calls of the run. *)
Fixpoint request_errors (E : env) (i : nat) (cs : list call) : list message :=
  match cs with
  | [] => []
  | c :: cs' => request_error E (S i) c ++ request_errors E (S i) cs'
  end.

Definition is_request_error (m : message) : bool :=
  match m with
  | ApiRequestError | DownloadError => true
  | _ => false
  end.

(** From [w] to [w'] calls were made and messages printed, and the request
    errors among the messages are those of the requests that failed, in the
    order of the calls. *)
Definition requests_logged (E : env) (w w' : world) : Prop :=
  ∃ made said,
    calls w' = calls w ++ made
    ∧ console w' = console w ++ said
    ∧ List.filter is_request_error said
      = request_errors E (length (calls w)) made.

(** ** A pack to run the program on

    The pack [UtyaTheDuck] with two stickers: [AAA], a duck emoji, stored as
    [.webp]; and [BBB], an empty emoji, stored as [.tgs]. *)
Module Example.

Definition stickerA : json :=
  JObj [(txt "file_id", JStr (txt "fA"));
        (txt "file_unique_id", JStr (txt "AAA"));
        (txt "emoji", JStr [0x1F986])].

(** Two descriptors whose identifiers differ by a dot. *)
Definition dotless : json :=
  JObj [(txt "file_id", JStr (txt "f1"));
        (txt "file_unique_id", JStr (txt "A")); (txt "emoji", JStr [])].

Definition dotted : json :=
  JObj [(txt "file_id", JStr (txt "f2"));
        (txt "file_unique_id", JStr (txt "A_.")); (txt "emoji", JStr [])].

Definition stickerB : json :=
  JObj [(txt "file_id", JStr (txt "fB"));
        (txt "file_unique_id", JStr (txt "BBB"));
        (txt "emoji", JStr [])].

Definition pack_of (stickers : list json) : json :=
  JObj [(txt "ok", JBool true);
        (txt "result", JObj [(txt "title", JStr (txt "Utya The Duck"));
                             (txt "stickers", JArr stickers)])].

Definition file_info (path : text) : json :=
  JObj [(txt "ok", JBool true);
        (txt "result", JObj [(txt "file_path", JStr path)])].

Definition link : text := txt "https://t.me/addstickers/UtyaTheDuck".

(** A service that answers the pack request with [pack], or fails it with
    a [RequestException] when there is none, knows both files and answers
    every download with [download]; a disk that takes every write and
    removal; a codec that converts every file; error texts that are valid
    markup. *)
Definition service (pack : option json) (download : stream) : env := {|
  api_response := λ _ endpoint param,
    if text_eqb endpoint (txt "getStickerSet") then
      match pack with
      | Some body => Ok body
      | None => Raise RequestException
      end
    else match param.2 with
         | JStr id =>
             if text_eqb id (txt "fA")
             then Ok (file_info (txt "stickers/file_1.webp"))
             else Ok (file_info (txt "stickers/file_2.tgs"))
         | _ => Raise RequestException
         end;
  stream_response := λ _ _, download;
  unwritable := λ _, false;
  unreadable := λ _, false;
  unremovable := λ _, false;
  reencode_png := λ source, Some (80 :: 78 :: 71 :: source);
  error_text := λ _, txt "404 Client Error: Not Found";
|}.

Definition three_bytes : stream := Body (Header 3) [[1; 2]; [3]] false.

(** A service for the pack of [dotless] and [dotted]: the file of the first
    is stored as [documents/x._] and holds the byte 1, the file of the
    second as [documents/x] and holds the byte 2. *)
Definition twins : env := {|
  api_response := λ _ endpoint param,
    if text_eqb endpoint (txt "getStickerSet")
    then Ok (pack_of [dotless; dotted])
    else match param.2 with
         | JStr id =>
             if text_eqb id (txt "f1")
             then Ok (file_info (txt "documents/x._"))
             else Ok (file_info (txt "documents/x"))
         | _ => Raise RequestException
         end;
  stream_response := λ _ file_path,
    if text_eqb file_path (txt "documents/x._")
    then Body (Header 1) [[1]] false
    else Body (Header 1) [[2]] false;
  unwritable := λ _, false;
  unreadable := λ _, false;
  unremovable := λ _, false;
  reencode_png := λ source, Some (80 :: 78 :: 71 :: source);
  error_text := λ _, txt "404 Client Error: Not Found";
|}.

(** The service of [service], on a disk on which no file can be removed. *)
Definition locked (pack : option json) (download : stream) : env := {|
  api_response := api_response (service pack download);
  stream_response := stream_response (service pack download);
  unwritable := λ _, false;
  unreadable := λ _, false;
  unremovable := λ _, true;
  reencode_png := reencode_png (service pack download);
  error_text := λ _, txt "[Errno 13] Permission denied";
|}.

(** A disk that holds the file [path] with this content. *)
Definition with_file (path content : list N) : world := {|
  files := {[ path := content ]}; dirs := ∅; console := [];
  download_task := {| total := 0; completed := 0 |};
  convert_task := {| total := 0; completed := 0 |};
  calls := [];
|}.

(** The answer of the service to an unknown pack name. *)
Definition not_ok : json :=
  JObj [(txt "ok", JBool false); (txt "error_code", JInt 400);
        (txt "description", JStr (txt "Bad Request: STICKERSET_INVALID"))].

(** An answer that is ok and has no title. *)
Definition untitled : json :=
  JObj [(txt "ok", JBool true);
        (txt "result", JObj [(txt "stickers", JArr [])])].

(** An answer whose title closes a tag that was not opened. *)
Definition cats : json :=
  JObj [(txt "ok", JBool true);
        (txt "result", JObj [(txt "title", JStr (txt "Cats [/meow]"));
                             (txt "stickers", JArr [])])].

(** The service of [service], where the exceptions name a file whose name
    closes a tag that was not opened. *)
Definition bracketed (pack : option json) (download : stream) : env := {|
  api_response := api_response (service pack download);
  stream_response := stream_response (service pack download);
  unwritable := λ _, false;
  unreadable := λ _, false;
  unremovable := λ _, false;
  reencode_png := reencode_png (service pack download);
  error_text := λ _, txt "[Errno 2] No such file or directory: '[/b].webp'";
|}.

Definition pack_folder : text := txt "stickers/UtyaTheDuck".

Definition empty_world : world := {|
  files := ∅; dirs := ∅; console := [];
  download_task := {| total := 0; completed := 0 |};
  convert_task := {| total := 0; completed := 0 |};
  calls := [];
|}.

(** A disk that holds the configuration file with this content. *)
Definition with_config (content : text) : world := {|
  files := {[ CONFIG_FILE := content ]}; dirs := ∅; console := [];
  download_task := {| total := 0; completed := 0 |};
  convert_task := {| total := 0; completed := 0 |};
  calls := [];
|}.

End Example.

(** ** The interactive shell *)

(** What [main] prints on its own console. *)
Inductive shell_message :=
  | Welcome
  | NoSavedToken
  | TokenSaved
  | TokenLoaded.

(** How a part of [main] ends: it is done, an exception leaves it, or
    [Prompt.ask] finds no more input. *)
Inductive ending (A : Type) :=
  | Done (a : A)
  | Crash (e : exn)
  | NoInput.
Arguments Done {A} a.
Arguments Crash {A} e.
Arguments NoInput {A}.

Section Shell.
Context `{Python} (E : env).

(** Lines 192 to 199: the token [main] goes on with and the answers of the
    operator it has not read, with the world and the messages printed.  The
    answers are the strings [Prompt.ask] returns, in order. *)
Definition startup (answers : list (list N)) (w : world)
  : ending (json * list (list N)) * world * list shell_message :=
  match load_token E w with
  | (Raise e, w1) => (Crash e, w1, [])
  | (Ok bot_token, w1) =>
      if negb (truthy bot_token) then
        match answers with
        | [] => (NoInput, w1, [NoSavedToken])
        | answer :: rest =>
            match save_token E answer w1 with
            | (Raise e, w2) => (Crash e, w2, [NoSavedToken])
            | (Ok _, w2) => (Done (JStr answer, rest), w2, [NoSavedToken; TokenSaved])
            end
        end
      else (Done (bot_token, answers), w1, [TokenLoaded])
  end.

(** Lines 203 to 208: the [while True] over the links the operator
    enters. *)
Fixpoint prompt_loop (answers : list (list N)) (w : world) : ending unit * world :=
  match answers with
  | [] => (NoInput, w)
  | sticker_pack_link :: rest =>
      if text_eqb (lower sticker_pack_link) (txt "quit") then (Done (), w)
      else
        match download_sticker_pack E sticker_pack_link OUTPUT_FOLDER w with
        | (Ok _, w') => prompt_loop rest w'
        | (Raise e, w') => (Crash e, w')
        end
  end.

(** [main]: [E] holds the answers of the service to the downloader that is
    built with the token. *)
Definition main (answers : list (list N)) (w : world)
  : ending unit * world * list shell_message :=
  match startup answers w with
  | (Done (_, rest), w1, said) =>
      let (r, w2) := prompt_loop rest w1 in (r, w2, Welcome :: said)
  | (Crash e, w1, said) => (Crash e, w1, Welcome :: said)
  | (NoInput, w1, said) => (NoInput, w1, Welcome :: said)
  end.

End Shell.

(** The identifiers of the file lookups among the calls, in order. *)
Fixpoint requested_files (cs : list call) : list json :=
  match cs with
  | [] => []
  | make_api_request_call endpoint (_, id) :: cs' =>
      if text_eqb endpoint (txt "getFile") then id :: requested_files cs'
      else requested_files cs'
  | _ :: cs' => requested_files cs'
  end.

(** [m] changes no file whose path holds no underscore, whether it returns
    or raises. *)
Definition leaves_plain_paths {A} (m : M A) : Prop :=
  ∀ w path, 95 ∉ path → files (m w).2 !! path = files w !! path.

(** * Properties *)

(** ** The [json] codec *)
Module JsonFacts.
Import Json.

Lemma hex_value_digit k : k < 16 → hex_value (hex_digit k) = Some k.
Proof.
  intros Hk. unfold hex_value, hex_digit.
  destruct (N.ltb_spec k 10).
  - replace ((48 <=? 48 + k) && (48 + k <=? 57)) with true.
    + f_equal. lia.
    + symmetry. apply andb_true_iff. split; apply N.leb_le; lia.
  - replace ((48 <=? 87 + k) && (87 + k <=? 57)) with false.
    + replace ((97 <=? 87 + k) && (87 + k <=? 102)) with true.
      * f_equal. lia.
      * symmetry. apply andb_true_iff. split; apply N.leb_le; lia.
    + symmetry. apply andb_false_iff. right. apply N.leb_gt. lia.
Qed.

Lemma decode_hex4_hex4 n :
  n < 65536 →
  decode_hex4 (hex_digit (n / 4096 mod 16)) (hex_digit (n / 256 mod 16))
              (hex_digit (n / 16 mod 16)) (hex_digit (n mod 16)) = Some n.
Proof.
  intros Hn. unfold decode_hex4.
  rewrite !hex_value_digit by (apply N.mod_lt; lia).
  f_equal. zify. Z.to_euclidean_division_equations. lia.
Qed.

Lemma lor_disjoint a b : N.land a b = 0 → N.lor a b = a + b.
Proof.
  intros Hd. rewrite <- N.lxor_lor by exact Hd.
  symmetry. apply N.add_nocarry_lxor. exact Hd.
Qed.

Lemma land_shiftl_small q k r : r < 2 ^ k → N.land (N.shiftl q k) r = 0.
Proof.
  intros Hr. apply N.bits_inj. intros i.
  rewrite N.land_spec, N.bits_0.
  destruct (N.lt_ge_cases i k) as [Hlt | Hge].
  - by rewrite N.shiftl_spec_low.
  - rewrite andb_comm.
    destruct (N.eq_dec r 0) as [-> | Hnz]; [by rewrite N.bits_0 |].
    rewrite (N.bits_above_log2 r i); [done |].
    apply N.lt_le_trans with k; [| exact Hge].
    apply N.log2_lt_pow2; lia.
Qed.

(** The two halves of the escape of a code point above the BMP. *)
Lemma high_half n :
  N.lor 0xD800 (N.land (N.shiftr n 10) 0x3FF) = 0xD800 + (n / 1024) mod 1024.
Proof.
  change 0x3FF with (N.ones 10). rewrite N.land_ones, N.shiftr_div_pow2.
  change (2 ^ 10) with 1024. change 0xD800 with (N.shiftl 54 10) at 1.
  rewrite lor_disjoint; [done |].
  apply land_shiftl_small. change (2 ^ 10) with 1024. apply N.mod_lt. lia.
Qed.

Lemma low_half n :
  N.lor 0xDC00 (N.land n 0x3FF) = 0xDC00 + n mod 1024.
Proof.
  change 0x3FF with (N.ones 10). rewrite N.land_ones.
  change (2 ^ 10) with 1024. change 0xDC00 with (N.shiftl 55 10) at 1.
  rewrite lor_disjoint; [done |].
  apply land_shiftl_small. change (2 ^ 10) with 1024. apply N.mod_lt. lia.
Qed.

Lemma join_halves n :
  n < 0x100000 →
  join_surrogates (0xD800 + (n / 1024) mod 1024) (0xDC00 + n mod 1024)
  = 0x10000 + n.
Proof.
  intros Hn. unfold join_surrogates. f_equal.
  assert (n / 1024 < 1024) as Hq
    by (apply N.Div0.div_lt_upper_bound; exact Hn).
  rewrite (N.mod_small (n / 1024)) by exact Hq.
  rewrite (N.add_comm 0xD800), (N.add_comm 0xDC00), !N.add_sub.
  rewrite lor_disjoint.
  - rewrite N.shiftl_mul_pow2. change (2 ^ 10) with 1024.
    rewrite (N.mul_comm (n / 1024)). symmetry. apply N.div_mod. done.
  - apply land_shiftl_small. change (2 ^ 10) with 1024. apply N.mod_lt. lia.
Qed.

(** *** Unfolding [scanstring] *)

#[local] Arguments decode_hex4 : simpl never.
#[local] Arguments is_high_surrogate : simpl never.
#[local] Arguments is_low_surrogate : simpl never.
#[local] Arguments backslash : simpl never.
#[local] Arguments N.eqb : simpl nomatch.
#[local] Arguments N.ltb : simpl nomatch.

Lemma scanstring_plain c s :
  (32 <=? c) && (c <=? 126) = true → c ≠ 34 → c ≠ 92 →
  scanstring (c :: s) = prepend c (scanstring s).
Proof.
  intros Hr H34 H92. apply andb_true_iff in Hr as [Hlo _].
  apply N.leb_le in Hlo. simpl.
  rewrite (proj2 (N.eqb_neq c 34) H34), (proj2 (N.eqb_neq c 92) H92).
  by rewrite (proj2 (N.ltb_ge c 32) Hlo).
Qed.

Lemma scanstring_named esc ch s :
  backslash esc = Some ch → esc ≠ 117 →
  scanstring (92 :: esc :: s) = prepend ch (scanstring s).
Proof.
  intros Hb Hu. simpl.
  by rewrite (proj2 (N.eqb_neq esc 117) Hu), Hb.
Qed.

Lemma scanstring_u h3 h2 h1 h0 uni s :
  decode_hex4 h3 h2 h1 h0 = Some uni →
  is_high_surrogate uni && pairs_ahead s = false →
  scanstring (92 :: 117 :: h3 :: h2 :: h1 :: h0 :: s) = prepend uni (scanstring s).
Proof.
  intros Hd Hp. simpl. rewrite Hd.
  destruct (is_high_surrogate uni); [| done]. simpl in Hp.
  destruct s as [| b [| u s']]; try done.
  { simpl. by destruct (b =? 92). }
  unfold pairs_ahead in Hp.
  destruct (b =? 92); [| done]. destruct (u =? 117); [| done].
  simpl in Hp. destruct s' as [| l3 [| l2 [| l1 [| l0 s']]]]; try done.
  destruct (decode_hex4 l3 l2 l1 l0); [| done]. by rewrite Hp.
Qed.

Lemma scanstring_pair h3 h2 h1 h0 l3 l2 l1 l0 hi lo s :
  decode_hex4 h3 h2 h1 h0 = Some hi → decode_hex4 l3 l2 l1 l0 = Some lo →
  is_high_surrogate hi = true → is_low_surrogate lo = true →
  scanstring (92 :: 117 :: h3 :: h2 :: h1 :: h0
              :: 92 :: 117 :: l3 :: l2 :: l1 :: l0 :: s)
  = prepend (join_surrogates hi lo) (scanstring s).
Proof.
  intros Hh Hl Hhi Hlo. simpl. by rewrite Hh, Hhi, Hl, Hlo.
Qed.

Lemma half_bounds n :
  let hi := 0xD800 + (n / 1024) mod 1024 in
  let lo := 0xDC00 + n mod 1024 in
  hi < 65536 ∧ lo < 65536 ∧ is_high_surrogate hi = true
  ∧ is_low_surrogate hi = false ∧ is_low_surrogate lo = true.
Proof.
  pose proof (N.mod_lt (n / 1024) 1024) as Hq.
  pose proof (N.mod_lt n 1024) as Hr.
  generalize dependent ((n / 1024) mod 1024). intros q Hq.
  generalize dependent (n mod 1024). intros r Hr. simpl.
  assert (q < 1024) by (apply Hq; done). assert (r < 1024) by (apply Hr; done).
  unfold is_high_surrogate, is_low_surrogate.
  repeat split; try lia.
  - apply andb_true_iff; split; apply N.leb_le; lia.
  - apply andb_false_iff; left; apply N.leb_gt; lia.
  - apply andb_true_iff; split; apply N.leb_le; lia.
Qed.

Lemma scanstring_encode_char c s :
  c < 0x110000 → is_high_surrogate c && pairs_ahead s = false →
  scanstring (encode_char c ++ s) = prepend c (scanstring s).
Proof.
  intros Hc Hp. unfold encode_char.
  destruct (N.eqb_spec c 92) as [-> | H92]; [by apply scanstring_named |].
  destruct (N.eqb_spec c 34) as [-> | H34]; [by apply scanstring_named |].
  destruct (N.eqb_spec c 8) as [-> | _]; [by apply scanstring_named |].
  destruct (N.eqb_spec c 12) as [-> | _]; [by apply scanstring_named |].
  destruct (N.eqb_spec c 10) as [-> | _]; [by apply scanstring_named |].
  destruct (N.eqb_spec c 13) as [-> | _]; [by apply scanstring_named |].
  destruct (N.eqb_spec c 9) as [-> | _]; [by apply scanstring_named |].
  destruct ((32 <=? c) && (c <=? 126)) eqn:Hplain;
    [by apply scanstring_plain |].
  destruct (N.ltb_spec c 0x10000) as [Hbmp | Hastral].
  - apply scanstring_u; [by apply decode_hex4_hex4 | exact Hp].
  - rewrite high_half, low_half.
    destruct (half_bounds (c - 0x10000)) as (Hh & Hl & Hhi & _ & Hlo).
    unfold u_escape, hex4. simpl app.
    erewrite scanstring_pair;
      [| by apply decode_hex4_hex4 | by apply decode_hex4_hex4 | done | done].
    rewrite join_halves by lia. f_equal. lia.
Qed.

Lemma pairs_ahead_encode t rest :
  match t with
  | [] => True
  | d :: _ => is_low_surrogate d = false
  end →
  pairs_ahead (flat_map encode_char t ++ 34 :: rest) = false.
Proof.
  destruct t as [| d t]; [by destruct rest |]. intros Hd.
  cbn [flat_map]. rewrite <- app_assoc.
  generalize (flat_map encode_char t ++ 34 :: rest). intros s.
  unfold encode_char.
  destruct (N.eqb_spec d 92) as [-> | H92]; [done |].
  destruct (N.eqb_spec d 34) as [-> | _]; [done |].
  destruct (N.eqb_spec d 8) as [-> | _]; [done |].
  destruct (N.eqb_spec d 12) as [-> | _]; [done |].
  destruct (N.eqb_spec d 10) as [-> | _]; [done |].
  destruct (N.eqb_spec d 13) as [-> | _]; [done |].
  destruct (N.eqb_spec d 9) as [-> | _]; [done |].
  destruct ((32 <=? d) && (d <=? 126)).
  { destruct s as [| u s]; [done |]. simpl.
    by rewrite (proj2 (N.eqb_neq d 92) H92). }
  destruct (N.ltb_spec d 0x10000) as [Hbmp | Hastral].
  - unfold u_escape, hex4. simpl. by rewrite decode_hex4_hex4, Hd.
  - rewrite high_half.
    destruct (half_bounds (d - 0x10000)) as (Hh & _ & _ & Hnl & _).
    unfold u_escape, hex4. simpl. by rewrite decode_hex4_hex4, Hnl.
Qed.

(** Reading back an escaped string gives the string, unless it holds a
    high surrogate directly followed by a low one. *)
Lemma scanstring_encode t rest :
  valid_text t → no_surrogate_pair t = true →
  scanstring (flat_map encode_char t ++ 34 :: rest) = Some (t, rest).
Proof.
  induction t as [| c t IH]; intros Hv Hn; [done |].
  apply Forall_cons in Hv as [Hc Hv].
  simpl in Hn. apply andb_true_iff in Hn as [Hhead Hn].
  cbn [flat_map]. rewrite <- app_assoc.
  rewrite scanstring_encode_char, IH; [done | done | done | exact Hc |].
  destruct (is_high_surrogate c) eqn:Hhi; [| done]. simpl.
  apply pairs_ahead_encode.
  destruct t as [| d t]; [done |].
  simpl in Hhead. by destruct (is_low_surrogate d).
Qed.

Section Scanner.
Context `{Python}.

Lemma loads_dumps_singleton key value :
  valid_text key → no_surrogate_pair key = true →
  valid_text value → no_surrogate_pair value = true →
  loads (dumps_singleton key value) = Ok (JObj [(key, JStr value)]).
Proof.
  intros Hk1 Hk2 Hv1 Hv2.
  unfold loads, dumps_singleton, encode_basestring_ascii.
  pose proof json_depth_positive as Hdepth.
  destruct json_depth as [| depth]; [lia |].
  simpl app. simpl skip_ws.
  change (4 + ?n)%nat with (S (S (S (S n)))).
  simpl scan_once.
  rewrite <- app_assoc. simpl app.
  rewrite scanstring_encode by done.
  simpl. rewrite <- app_assoc. simpl app.
  rewrite scanstring_encode by done.
  done.
Qed.

(** *** What [json.dump] writes is read as it is *)

Lemma hex_digit_printable n : n < 16 → 32 ≤ hex_digit n ∧ hex_digit n ≤ 126.
Proof.
  intros Hn. unfold hex_digit. destruct (N.ltb_spec n 10); lia.
Qed.

Lemma u_escape_printable n :
  Forall (λ c, 32 ≤ c ∧ c ≤ 126) (u_escape n).
Proof.
  unfold u_escape, hex4.
  repeat (constructor;
          [first [lia | apply hex_digit_printable; by apply N.mod_lt] |]).
  constructor.
Qed.

Lemma encode_char_printable c :
  Forall (λ c, 32 ≤ c ∧ c ≤ 126) (encode_char c).
Proof.
  unfold encode_char.
  repeat match goal with
         | |- context [if ?x =? ?y then _ else _] =>
             destruct (x =? y); [by repeat constructor |]
         end.
  destruct (_ && _) eqn:Hc.
  { apply andb_true_iff in Hc as [Hlo Hhi].
    apply N.leb_le in Hlo, Hhi. by repeat constructor. }
  destruct (c <? 0x10000); [apply u_escape_printable |].
  apply Forall_app. split; apply u_escape_printable.
Qed.

Lemma dumps_singleton_printable key value :
  Forall (λ c, 32 ≤ c ∧ c ≤ 126) (dumps_singleton key value).
Proof.
  assert (∀ s, Forall (λ c, 32 ≤ c ∧ c ≤ 126) (encode_basestring_ascii s))
    as Hstr.
  { intros s. unfold encode_basestring_ascii.
    apply Forall_cons. split; [lia |]. apply Forall_app. split.
    - induction s as [| c s IH]; [constructor |]. cbn [flat_map].
      apply Forall_app. split; [apply encode_char_printable | exact IH].
    - by repeat constructor. }
  unfold dumps_singleton.
  repeat (apply Forall_app; split); try apply Hstr; by repeat constructor.
Qed.

Lemma universal_newlines_printable s :
  Forall (λ c, 32 ≤ c ∧ c ≤ 126) s → universal_newlines s = s.
Proof.
  induction 1 as [| c s [Hlo Hhi] _ IH]; [done |]. cbn [universal_newlines].
  destruct (N.eqb_spec c 13); [lia |]. by rewrite IH.
Qed.

Lemma read_text_dumps_singleton key value :
  read_text (dumps_singleton key value) = Ok (dumps_singleton key value).
Proof.
  pose proof (dumps_singleton_printable key value) as Hp.
  unfold read_text. rewrite decode_ascii.
  - by rewrite universal_newlines_printable.
  - eapply Forall_impl; [exact Hp |]. cbn. lia.
Qed.

(** *** The fuel of the scanner *)

Lemma prepend_inv c x body r :
  prepend c x = Some (body, r) → ∃ body', x = Some (body', r).
Proof. destruct x as [[body' r'] |]; [| done]. intros [= _ <-]. by eexists. Qed.

(** [scanstring] consumes at least the closing quote. *)
Lemma scanstring_shorter s body r :
  scanstring s = Some (body, r) → (length r < length s)%nat.
Proof.
  remember (length s) as n eqn:Hn. revert s body r Hn.
  induction n as [n IH] using lt_wf_ind. intros s body r -> Hs.
  assert (∀ c s' body r, (length s' < length s)%nat →
            prepend c (scanstring s') = Some (body, r) →
            (length r < length s)%nat) as Hstep.
  { intros c s' body' r' Hlen Hp. apply prepend_inv in Hp as [body'' Hp].
    specialize (IH (length s') Hlen s' body'' r' eq_refl Hp). lia. }
  destruct s as [| c s1]; [done |]. cbn [scanstring] in Hs.
  destruct (c =? 34); [injection Hs as _ <-; cbn; lia |].
  destruct (c =? 92); cycle 1.
  { destruct (c <? 32); [done |]. eapply Hstep; [| exact Hs]. cbn. lia. }
  destruct s1 as [| esc s2]; [done |].
  destruct (esc =? 117); cycle 1.
  { destruct (backslash esc); [| done]. eapply Hstep; [| exact Hs]. cbn. lia. }
  destruct s2 as [| h3 [| h2 [| h1 [| h0 s3]]]]; try done.
  destruct (decode_hex4 h3 h2 h1 h0) as [uni |]; [| done].
  assert (prepend uni (scanstring s3) = Some (body, r) →
          (length r < length (c :: esc :: h3 :: h2 :: h1 :: h0 :: s3))%nat)
    as Hplain by (intros Hp; eapply Hstep; [| exact Hp]; cbn; lia).
  destruct (is_high_surrogate uni); [| by apply Hplain].
  destruct s3 as [| b s4]; [by apply Hplain |].
  destruct (b =? 92); [| by apply Hplain].
  destruct s4 as [| u s5]; [by apply Hplain |].
  destruct (u =? 117); [| by apply Hplain].
  destruct s5 as [| l3 [| l2 [| l1 [| l0 s6]]]]; try done.
  destruct (decode_hex4 l3 l2 l1 l0) as [uni2 |]; [| done].
  destruct (is_low_surrogate uni2); [| by apply Hplain].
  eapply Hstep; [| exact Hs]. cbn. lia.
Qed.

Lemma skip_ws_length s : (length (skip_ws s) ≤ length s)%nat.
Proof.
  induction s as [| c s IH]; [done |]. cbn.
  destruct (is_ws c); cbn; lia.
Qed.

Lemma strip_prefix_shorter p s r :
  p ≠ [] → strip_prefix p s = Some r → (length r < length s)%nat.
Proof.
  intros Hp. assert (∀ p s r, strip_prefix p s = Some r →
                              (length r ≤ length s)%nat) as Hle.
  { clear. induction p as [| a p IH]; intros s r.
    - by intros [= ->].
    - destruct s as [| b s]; [done |]. cbn. destruct (a =? b); [| done].
      intros Hr. apply IH in Hr. lia. }
  destruct p as [| a p]; [done |]. destruct s as [| b s]; [done |]. cbn.
  destruct (a =? b); [| done]. intros Hr. apply Hle in Hr. lia.
Qed.

Lemma span_digits_length s d r :
  span_digits s = (d, r) → (length r ≤ length s)%nat.
Proof.
  revert d r. induction s as [| c s IH]; intros d r; cbn.
  - by intros [= _ <-].
  - destruct (is_digit c); [| by intros [= _ <-]].
    destruct (span_digits s) as [d' r']. intros [= _ <-].
    specialize (IH d' r' eq_refl). lia.
Qed.

Lemma number_sign_length s neg r :
  number_sign s = (neg, r) → (length r ≤ length s)%nat.
Proof.
  destruct s as [| c s]; cbn; [by intros [= _ <-] |].
  destruct (c =? 45); intros [= _ <-]; cbn; lia.
Qed.

Lemma number_integer_shorter s ip r :
  number_integer s = Some (ip, r) → (length r < length s)%nat.
Proof.
  destruct s as [| c s]; cbn; [done |].
  destruct (c =? 48); [intros [= _ <-]; lia |].
  destruct (is_digit c); [| done].
  destruct (span_digits s) as [d r'] eqn:Hd. intros [= _ <-].
  apply span_digits_length in Hd. lia.
Qed.

Lemma number_fraction_length s frac r :
  number_fraction s = (frac, r) → (length r ≤ length s)%nat.
Proof.
  destruct s as [| c s]; cbn; [by intros [= _ <-] |].
  destruct (c =? 46); [| by intros [= _ <-]].
  destruct (span_digits s) as [d r'] eqn:Hd. apply span_digits_length in Hd.
  destruct d; intros [= _ <-]; cbn; lia.
Qed.

Lemma number_exponent_length s exp r :
  number_exponent s = (exp, r) → (length r ≤ length s)%nat.
Proof.
  destruct s as [| c s]; cbn; [by intros [= _ <-] |].
  destruct ((c =? 101) || (c =? 69)); [| by intros [= _ <-]].
  destruct (match s with
            | [] => ([], s)
            | g :: t => if (g =? 45) || (g =? 43) then ([g], t) else ([], s)
            end) as [sg s''] eqn:Hsg.
  assert (length s'' ≤ length s)%nat as Hle.
  { destruct s as [| g t]; [by injection Hsg as _ <- |].
    destruct ((g =? 45) || (g =? 43)); injection Hsg as _ <-; cbn; lia. }
  destruct (span_digits s'') as [d r'] eqn:Hd.
  apply span_digits_length in Hd.
  destruct d; intros [= _ <-]; cbn; lia.
Qed.

Lemma match_number_shorter s v r :
  match_number s = Some (v, r) → (length r < length s)%nat.
Proof.
  unfold match_number.
  destruct (number_sign s) as [neg s0] eqn:Hsign.
  destruct (number_integer s0) as [[ip s1] |] eqn:Hint; [| done].
  destruct (number_fraction s1) as [frac s2] eqn:Hfrac.
  destruct (number_exponent s2) as [exp s3] eqn:Hexp.
  apply number_sign_length in Hsign. apply number_integer_shorter in Hint.
  apply number_fraction_length in Hfrac. apply number_exponent_length in Hexp.
  destruct frac, exp; intros [= _ <-]; lia.
Qed.

Lemma scan_literal_shorter s v r :
  scan_literal s = Ok (v, r) → (length r < length s)%nat.
Proof.
  unfold scan_literal.
  repeat match goal with
         | |- context [strip_prefix ?p s] =>
             let Hp := fresh "Hp" in
             destruct (strip_prefix p s) eqn:Hp;
             [apply strip_prefix_shorter in Hp; [| done];
              by intros [= _ <-] |]
         | |- context [match_number s] =>
             let Hm := fresh "Hm" in
             destruct (match_number s) as [[n' r'] |] eqn:Hm;
             [apply match_number_shorter in Hm;
              destruct (number_value n'); [by intros [= _ <-] | done] |]
         end.
  done.
Qed.

Lemma skip_ws_cons s c r : skip_ws s = c :: r → (S (length r) ≤ length s)%nat.
Proof. intros Hs. pose proof (skip_ws_length s) as Hle. rewrite Hs in Hle. done. Qed.

(** Every function of the scanner consumes input. *)
Lemma scanner_shorter fuel :
  (∀ depth s v r, scan_once fuel depth s = Ok (v, r) → (length r < length s)%nat)
  ∧ (∀ depth s v r, json_object fuel depth s = Ok (v, r) →
       (length r < length s)%nat)
  ∧ (∀ depth s pairs v r, object_members fuel depth s pairs = Ok (v, r) →
       (length r < length s)%nat)
  ∧ (∀ depth s v r, json_array fuel depth s = Ok (v, r) →
       (length r < length s)%nat)
  ∧ (∀ depth s values v r, array_items fuel depth s values = Ok (v, r) →
       (length r < length s)%nat).
Proof.
  induction fuel as [| n (IHscan & IHobj & IHmem & IHarr & IHitems)];
    [by repeat split |].
  split; [| split; [| split; [| split]]].
  - intros depth s v r. cbn [scan_once]. destruct s as [| c s']; [done |].
    destruct (c =? 34).
    { destruct (scanstring s') as [[body r'] |] eqn:Hstr; [| done].
      apply scanstring_shorter in Hstr. intros [= _ <-]. cbn. lia. }
    destruct (c =? 123).
    { destruct depth as [| d]; [done |]. intros Hr; apply IHobj in Hr; cbn; lia. }
    destruct (c =? 91).
    { destruct depth as [| d]; [done |]. intros Hr; apply IHarr in Hr; cbn; lia. }
    apply scan_literal_shorter.
  - intros depth s v r. cbn [json_object].
    destruct (skip_ws s) as [| c r'] eqn:Hws; [done |].
    apply skip_ws_cons in Hws.
    destruct (c =? 125); [intros [= _ <-]; lia |].
    destruct (c =? 34); [| done]. intros Hr. apply IHmem in Hr. lia.
  - intros depth s pairs v r. cbn [object_members].
    destruct (scanstring s) as [[key s1] |] eqn:Hkey; [| done].
    apply scanstring_shorter in Hkey.
    destruct (skip_ws s1) as [| c s2] eqn:Hws1; [done |].
    apply skip_ws_cons in Hws1. destruct (c =? 58); [| done].
    destruct (scan_once n depth (skip_ws s2)) as [[value s3] |] eqn:Hval; [| done].
    apply IHscan in Hval. pose proof (skip_ws_length s2).
    destruct (skip_ws s3) as [| d s4] eqn:Hws3; [done |].
    apply skip_ws_cons in Hws3.
    destruct (d =? 125); [intros [= _ <-]; lia |].
    destruct (d =? 44); [| done].
    destruct (skip_ws s4) as [| q s5] eqn:Hws4; [done |].
    apply skip_ws_cons in Hws4. destruct (q =? 34); [| done].
    intros Hr. apply IHmem in Hr. lia.
  - intros depth s v r. cbn [json_array].
    destruct (skip_ws s) as [| c r'] eqn:Hws; [done |].
    apply skip_ws_cons in Hws.
    destruct (c =? 93); [intros [= _ <-]; lia |].
    intros Hr. apply IHitems in Hr. cbn in Hr. lia.
  - intros depth s values v r. cbn [array_items].
    destruct (scan_once n depth s) as [[value s1] |] eqn:Hval; [| done].
    apply IHscan in Hval.
    destruct (skip_ws s1) as [| d s2] eqn:Hws1; [done |].
    apply skip_ws_cons in Hws1.
    destruct (d =? 93); [intros [= _ <-]; lia |].
    destruct (d =? 44); [| done].
    intros Hr. apply IHitems in Hr. pose proof (skip_ws_length s2). lia.
Qed.

(** With fuel for three calls a character, more fuel changes nothing. *)
Lemma scanner_fuel fuel :
  (∀ depth s k, (3 * length s + 1 ≤ fuel)%nat →
     scan_once (k + fuel) depth s = scan_once fuel depth s)
  ∧ (∀ depth s k, (3 * length s + 1 ≤ fuel)%nat →
       json_object (k + fuel) depth s = json_object fuel depth s)
  ∧ (∀ depth s pairs k, (3 * length s + 1 ≤ fuel)%nat →
       object_members (k + fuel) depth s pairs = object_members fuel depth s pairs)
  ∧ (∀ depth s k, (3 * length s + 3 ≤ fuel)%nat →
       json_array (k + fuel) depth s = json_array fuel depth s)
  ∧ (∀ depth s values k, (3 * length s + 2 ≤ fuel)%nat →
       array_items (k + fuel) depth s values = array_items fuel depth s values).
Proof.
  induction fuel as [| n (IHscan & IHobj & IHmem & IHarr & IHitems)].
  { repeat split; intros; lia. }
  destruct (scanner_shorter n) as (Hscan & _).
  split; [| split; [| split; [| split]]].
  - intros depth s k Hn. rewrite Nat.add_succ_r. cbn [scan_once].
    destruct s as [| c s']; [done |]. cbn in Hn.
    destruct (c =? 34); [done |].
    destruct (c =? 123); [destruct depth; [done |]; apply IHobj; lia |].
    destruct (c =? 91); [destruct depth; [done |]; apply IHarr; lia |]. done.
  - intros depth s k Hn. rewrite Nat.add_succ_r. cbn [json_object].
    destruct (skip_ws s) as [| c r'] eqn:Hws; [done |].
    apply skip_ws_cons in Hws.
    destruct (c =? 125); [done |].
    destruct (c =? 34); [| done]. apply IHmem. lia.
  - intros depth s pairs k Hn. rewrite Nat.add_succ_r. cbn [object_members].
    destruct (scanstring s) as [[key s1] |] eqn:Hkey; [| done].
    apply scanstring_shorter in Hkey.
    destruct (skip_ws s1) as [| c s2] eqn:Hws1; [done |].
    apply skip_ws_cons in Hws1. destruct (c =? 58); [| done].
    pose proof (skip_ws_length s2).
    rewrite IHscan by lia.
    destruct (scan_once n depth (skip_ws s2)) as [[value s3] |] eqn:Hval; [| done].
    apply Hscan in Hval.
    destruct (skip_ws s3) as [| d s4] eqn:Hws3; [done |].
    apply skip_ws_cons in Hws3.
    destruct (d =? 125); [done |].
    destruct (d =? 44); [| done].
    destruct (skip_ws s4) as [| q s5] eqn:Hws4; [done |].
    apply skip_ws_cons in Hws4. destruct (q =? 34); [| done].
    apply IHmem. lia.
  - intros depth s k Hn. rewrite Nat.add_succ_r. cbn [json_array].
    destruct (skip_ws s) as [| c r'] eqn:Hws; [done |].
    apply skip_ws_cons in Hws.
    destruct (c =? 93); [done |]. apply IHitems. cbn. lia.
  - intros depth s values k Hn. rewrite Nat.add_succ_r. cbn [array_items].
    rewrite IHscan by lia.
    destruct (scan_once n depth s) as [[value s1] |] eqn:Hval; [| done].
    apply Hscan in Hval.
    destruct (skip_ws s1) as [| d s2] eqn:Hws1; [done |].
    apply skip_ws_cons in Hws1.
    destruct (d =? 93); [done |].
    destruct (d =? 44); [| done].
    pose proof (skip_ws_length s2). apply IHitems. lia.
Qed.

(** The fuel of [loads] is enough: the scanner never stops for lack of it,
    so that what [loads] raises is what [json.loads] raises. *)
Lemma scan_once_enough s fuel depth :
  (4 + 4 * length s ≤ fuel)%nat →
  scan_once fuel depth (skip_ws s) = scan_once (4 + 4 * length s) depth (skip_ws s).
Proof.
  intros Hfuel. pose proof (skip_ws_length s) as Hws.
  destruct (scanner_fuel (4 + 4 * length s)) as (Hscan & _).
  replace fuel with ((fuel - (4 + 4 * length s)) + (4 + 4 * length s))%nat
    by lia.
  apply Hscan. lia.
Qed.

End Scanner.

End JsonFacts.

(** ** The state and exception monad *)

Lemma bind_ok {A B} (m : M A) (f : A → M B) w a w' :
  m w = (Ok a, w') → (m ≫= f) w = f a w'.
Proof. intros Hm. unfold mbind, M_bind. by rewrite Hm. Qed.

Lemma bind_raise {A B} (m : M A) (f : A → M B) w e w' :
  m w = (Raise e, w') → (m ≫= f) w = (Raise e, w').
Proof. intros Hm. unfold mbind, M_bind. by rewrite Hm. Qed.

Ltac run :=
  repeat (progress (unfold mbind, M_bind, mret, M_ret, get_world, modify,
                      raise, lift, try_except, print, record_call, set_files,
                      set_download_task, set_convert_task, say, log_call,
                      with_files, with_dirs, with_download_task,
                      with_convert_task in *;
                    cbn [files dirs console download_task convert_task calls
                         total completed] in *)).

(** ** The console *)

Lemma print_run `{Python} E m w :
  print E m w
  = if markup_error E (length (console w)) m
    then (Raise MarkupError, w) else (Ok (), say m w).
Proof. unfold print. run. by destruct (markup_error _ _ _). Qed.

Lemma print_rendered `{Python} E m w :
  markup_error E (length (console w)) m = false →
  print E m w = (Ok (), say m w).
Proof. intros Hm. by rewrite print_run, Hm. Qed.

Lemma print_inv `{Python} E m w w' :
  print E m w = (Ok (), w') → w' = say m w.
Proof. rewrite print_run. destruct (markup_error _ _ _); by intros [= <-]. Qed.

(** ** The credential store *)
Section ConfigStore.
Context `{Python} (E : env).

Lemma load_token_run w :
  load_token E w
  = (if unreadable E CONFIG_FILE then Raise OSError
     else match files w !! CONFIG_FILE with
          | None => Ok JNull
          | Some content =>
              match read_text content with
              | Raise e => Raise e
              | Ok s =>
                  match Json.loads s with
                  | Raise JSONDecodeError => Ok JNull
                  | Raise e => Raise e
                  | Ok config => py_get config (txt "bot_token") JNull
                  end
              end
          end, w).
Proof.
  unfold load_token, json_load. run.
  destruct (unreadable E CONFIG_FILE); [done |].
  destruct (files w !! CONFIG_FILE) as [content |]; [| done].
  unfold read_text. destruct (decode content) as [s |]; [| done].
  destruct (Json.loads _) as [config | e]; [| by destruct e].
  by destruct config.
Qed.


(** C9, as amended: a token written by [save_token] is the token
    [load_token] reads back, for every token in which no high surrogate is
    directly followed by a low surrogate, on a disk that takes the write
    and lets the file be read. *)
Theorem save_then_load token w :
  unwritable E CONFIG_FILE = false →
  unreadable E CONFIG_FILE = false →
  valid_text token → no_surrogate_pair token = true →
  ∃ w1, save_token E token w = (Ok (), w1)
        ∧ load_token E w1 = (Ok (JStr token), w1).
Proof.
  intros Hw Hr Hv Hn. unfold save_token. rewrite Hw. run.
  eexists. split; [reflexivity |].
  rewrite load_token_run, Hr. cbn [files]. rewrite lookup_insert_eq.
  rewrite JsonFacts.read_text_dumps_singleton.
  rewrite JsonFacts.loads_dumps_singleton; try done.
  unfold valid_text. by repeat constructor.
Qed.

End ConfigStore.



(** C9 on the token made of the two code points U+D800 and U+DC00: it is
    written as two escapes, which [json.load] reads as the one code point
    U+10000. *)
Lemma surrogate_pair_token_not_restored :
  let E := Example.service None Refused in
  let token := [0xD800; 0xDC00] in
  let w1 := (save_token E token Example.empty_world).2 in
  (load_token E w1).1 = Ok (JStr [0x10000])
  ∧ (load_token E w1).1 ≠ Ok (JStr token).
Proof. split; [vm_compute; reflexivity | vm_compute; discriminate]. Qed.

Lemma save_then_load_witness :
  let E := Example.service None Refused in
  let token := txt "110201543:AAHdqTcvCH1vGWJxfSeofSAs0K5PALDsaw" in
  ∃ w1, save_token E token Example.empty_world = (Ok (), w1)
        ∧ load_token E w1 = (Ok (JStr token), w1).
Proof.
  apply (save_then_load (Example.service None Refused)).
  - reflexivity.
  - reflexivity.
  - unfold valid_text. repeat constructor.
  - reflexivity.
Defined.

(** ** File names *)
Section FileNames.
Context `{Python}.

Lemma filter_sticker : List.filter isalnum (txt "sticker") = txt "sticker".
Proof.
  change (txt "sticker") with [115; 116; 105; 99; 107; 101; 114].
  cbn [List.filter]. by rewrite !isalnum_ascii.
Qed.

(** C1, as amended: the stem is the unique identifier, an underscore and
    the emoji annotation filtered to its alphanumeric characters, where a
    descriptor without annotation counts as annotated with the word
    [sticker]; an annotation that is present and filters to nothing gives
    a stem that ends in the underscore. *)
Theorem sticker_stem_spec d uid :
  dict_lookup (txt "file_unique_id") d = Some (JStr uid) →
  (dict_lookup (txt "emoji") d = None →
   sticker_stem (JObj d) = Ok (uid ++ txt "_sticker"))
  ∧ (∀ e, dict_lookup (txt "emoji") d = Some (JStr e) →
       sticker_stem (JObj d) = Ok (uid ++ [95] ++ List.filter isalnum e)
       ∧ (List.filter isalnum e = [] →
          sticker_stem (JObj d) = Ok (uid ++ txt "_"))).
Proof.
  intros Hid. unfold sticker_stem, py_getitem, py_get. rewrite Hid.
  split.
  - intros ->. cbn [from_option].
    unfold mbind, outcome_bind, mret, outcome_ret, sanitize, format, id.
    by rewrite filter_sticker.
  - intros e ->. cbn. split; [done |]. by intros ->.
Qed.

(** *** Distinct identifiers, distinct names *)

Lemma rfind_lookup c p i : rfind c p = Some i → p !! i = Some c.
Proof.
  revert i. induction p as [| x p IH]; intros i; [done |]. simpl.
  destruct (rfind c p) as [j |].
  - intros [= <-]. by apply IH.
  - destruct (N.eqb_spec x c) as [-> |]; [| done]. by intros [= <-].
Qed.

(** An extension is empty or starts with the dot. *)
Lemma splitext_extension p :
  (splitext p).2 = [] ∨ ∃ r, (splitext p).2 = 46 :: r.
Proof.
  unfold splitext. destruct (rfind 46 p) as [i |] eqn:Hdot; [| by left].
  destruct (_ && _); [| by left].
  right. exists (drop (S i) p). simpl.
  apply drop_S. by apply rfind_lookup.
Qed.

Lemma join_alnum_alnum items r :
  join_alnum items = Ok r → Forall (λ c, isalnum c = true) r.
Proof.
  revert r. induction items as [| item items IH]; intros r.
  - intros [= <-]. constructor.
  - simpl. destruct item; try done.
    destruct (join_alnum items) as [r' |]; [| done].
    intros [= <-].
    destruct (str_isalnum s) eqn:Hs; [| by apply IH].
    apply Forall_app. split; [| by apply IH].
    apply andb_true_iff in Hs as [_ Hs].
    apply Forall_forall. intros c Hc. rewrite forallb_forall in Hs.
    apply Hs. by apply list_elem_of_In.
Qed.

Lemma sanitize_alnum emoji r :
  sanitize emoji = Ok r → Forall (λ c, isalnum c = true) r.
Proof.
  destruct emoji as [| b | z | x | s | items | d]; simpl; try done.
  - intros [= <-]. apply Forall_forall. intros c Hc.
    apply list_elem_of_In, filter_In in Hc. tauto.
  - apply join_alnum_alnum.
  - apply join_alnum_alnum.
Qed.

Lemma sticker_stem_shape d uid stem :
  dict_lookup (txt "file_unique_id") d = Some (JStr uid) →
  sticker_stem (JObj d) = Ok stem →
  ∃ san, stem = uid ++ 95 :: san ∧ Forall (λ c, isalnum c = true) san.
Proof.
  intros Hid. unfold sticker_stem, py_getitem, py_get. rewrite Hid. cbn.
  destruct (sanitize _) as [san |] eqn:Hsan; [| done].
  intros [= <-]. exists san. split; [done |]. by eapply sanitize_alnum.
Qed.

(** Two texts that agree after their first dot agree before it. *)
Lemma before_first_dot (a b x y : list N) :
  46 ∉ a → 46 ∉ b →
  (x = [] ∨ ∃ r, x = 46 :: r) → (y = [] ∨ ∃ r, y = 46 :: r) →
  a ++ x = b ++ y → a = b.
Proof.
  revert b. induction a as [| c a IH]; intros b Ha Hb Hx Hy Heq.
  - destruct b as [| c b]; [done |]. simpl in Heq.
    destruct Hx as [-> | [r ->]]; [done |].
    injection Heq as <- _. exfalso. apply Hb. by left.
  - destruct b as [| c' b]; simpl in Heq.
    + destruct Hy as [-> | [r ->]]; [done |].
      injection Heq as -> _. exfalso. apply Ha. by left.
    + injection Heq as -> Heq. f_equal.
      apply IH; [| | done | done | done].
      * intros Hin. apply Ha. by right.
      * intros Hin. apply Hb. by right.
Qed.

(** Two texts that agree after their last underscore agree before it. *)
Lemma before_last_underscore (a b x y : list N) :
  95 ∉ x → 95 ∉ y → a ++ 95 :: x = b ++ 95 :: y → a = b.
Proof.
  revert b. induction a as [| c a IH]; intros b Hx Hy Heq.
  - destruct b as [| c b]; [done |]. simpl in Heq.
    injection Heq as <- ->. exfalso. apply Hx.
    apply elem_of_app. right. by left.
  - destruct b as [| c' b]; simpl in Heq.
    + injection Heq as -> <-. exfalso. apply Hy.
      apply elem_of_app. right. by left.
    + injection Heq as -> Heq. f_equal. by apply IH.
Qed.

Lemma alnum_without c (san : list N) :
  c < 128 → ascii_isalnum c = false →
  Forall (λ c, isalnum c = true) san → c ∉ san.
Proof.
  intros Hc Hn Hsan Hin. rewrite Forall_forall in Hsan.
  specialize (Hsan c Hin). rewrite isalnum_ascii in Hsan by done. congruence.
Qed.

(** X22: the file names of line 148 of two descriptors whose unique
    identifiers are distinct strings without a dot are distinct, whatever
    their emoji annotations and whatever the paths their files are stored
    under. *)
Theorem file_names_distinct d1 d2 uid1 uid2 stem1 stem2 p1 p2 :
  dict_lookup (txt "file_unique_id") d1 = Some (JStr uid1) →
  dict_lookup (txt "file_unique_id") d2 = Some (JStr uid2) →
  uid1 ≠ uid2 → 46 ∉ uid1 → 46 ∉ uid2 →
  sticker_stem (JObj d1) = Ok stem1 →
  sticker_stem (JObj d2) = Ok stem2 →
  stem1 ++ (splitext p1).2 ≠ stem2 ++ (splitext p2).2.
Proof.
  intros Hid1 Hid2 Hne Hdot1 Hdot2 Hs1 Hs2 Heq.
  destruct (sticker_stem_shape _ _ _ Hid1 Hs1) as (san1 & -> & Hsan1).
  destruct (sticker_stem_shape _ _ _ Hid2 Hs2) as (san2 & -> & Hsan2).
  assert (46 ∉ san1) by (by apply alnum_without).
  assert (46 ∉ san2) by (by apply alnum_without).
  assert (∀ uid san, 46 ∉ uid → 46 ∉ san → 46 ∉ uid ++ 95 :: san) as Hfree.
  { intros uid san Hu Hs Hin. apply elem_of_app in Hin as [Hin | Hin]; [done |].
    by apply elem_of_cons in Hin as [Hin | Hin]. }
  apply before_first_dot in Heq;
    [| by apply Hfree | by apply Hfree | apply splitext_extension
     | apply splitext_extension].
  apply before_last_underscore in Heq; [done | |]; by apply alnum_without.
Qed.

End FileNames.

(** C1 on the descriptor [BBB] with the empty annotation: the stem ends in
    the underscore, the placeholder is not used. *)
Lemma empty_annotation_stem :
  sticker_stem Example.stickerB = Ok (txt "BBB_")
  ∧ sticker_stem Example.stickerB ≠ Ok (txt "BBB_sticker").
Proof. split; [vm_compute; reflexivity | vm_compute; discriminate]. Qed.

Lemma sticker_stem_spec_witness :
  let d := [(txt "file_unique_id", JStr (txt "CCC"))] in
  (dict_lookup (txt "emoji") d = None →
   sticker_stem (JObj d) = Ok (txt "CCC" ++ txt "_sticker"))
  ∧ (∀ e, dict_lookup (txt "emoji") d = Some (JStr e) →
       sticker_stem (JObj d) = Ok (txt "CCC" ++ [95] ++ List.filter isalnum e)
       ∧ (List.filter isalnum e = [] →
          sticker_stem (JObj d) = Ok (txt "CCC" ++ txt "_"))).
Proof. apply (sticker_stem_spec _ (txt "CCC")). reflexivity. Defined.

(** C2 on the pack of the identifiers [A] and [A_.]: the file of the first
    is stored with the extension [._], the file of the second without
    extension, and [download_sticker_pack] saves both under the name
    [A_._]: the run returns and leaves one file for the two stickers, the
    second written over the first. *)
Theorem dotted_identifier_collides :
  let run :=
    download_sticker_pack Example.twins Example.link OUTPUT_FOLDER
      Example.empty_world in
  let saved := txt "stickers/UtyaTheDuck/A_._" in
  py_getitem Example.dotless (txt "file_unique_id") = Ok (JStr (txt "A"))
  ∧ py_getitem Example.dotted (txt "file_unique_id") = Ok (JStr (txt "A_."))
  ∧ run.1 = Ok ()
  ∧ calls run.2
    = [make_api_request_call (txt "getStickerSet")
         (txt "name", JStr (txt "UtyaTheDuck"));
       make_api_request_call (txt "getFile") (txt "file_id", JStr (txt "f1"));
       download_file_call (txt "documents/x._") saved;
       make_api_request_call (txt "getFile") (txt "file_id", JStr (txt "f2"));
       download_file_call (txt "documents/x") saved]
  ∧ files run.2 = {[ saved := [2] ]}.
Proof. repeat split; vm_compute; reflexivity. Qed.

Lemma file_names_distinct_witness :
  txt "AAA_" ++ (splitext (txt "stickers/file_1.webp")).2
  ≠ txt "BBB_" ++ (splitext (txt "stickers/file_2.tgs")).2.
Proof.
  apply (file_names_distinct
           [(txt "file_id", JStr (txt "fA"));
            (txt "file_unique_id", JStr (txt "AAA"));
            (txt "emoji", JStr [0x1F986])]
           [(txt "file_id", JStr (txt "fB"));
            (txt "file_unique_id", JStr (txt "BBB"));
            (txt "emoji", JStr [])]
           (txt "AAA") (txt "BBB")).
  - reflexivity.
  - reflexivity.
  - discriminate.
  - vm_compute. intros Hin. by repeat (apply elem_of_cons in Hin as [? | Hin]; [done |]); inversion Hin.
  - vm_compute. intros Hin. by repeat (apply elem_of_cons in Hin as [? | Hin]; [done |]); inversion Hin.
  - vm_compute. reflexivity.
  - vm_compute. reflexivity.
Defined.

(** ** The downloader *)
Section Downloader.
Context `{Python} (E : env).

(** What [_make_api_request] does, by the answer it is given. *)
Lemma make_api_request_run endpoint param w :
  let w1 := log_call (make_api_request_call endpoint param) w in
  _make_api_request E endpoint param w =
  match api_response E (length (calls w1)) endpoint param with
  | Ok body => (Ok body, w1)
  | Raise e =>
      if is_RequestException e then
        if markup_error E (length (console w)) ApiRequestError
        then (Raise MarkupError, w1)
        else (Ok JNull, say ApiRequestError w1)
      else (Raise e, w1)
  end.
Proof.
  unfold _make_api_request, requests_get_json. run.
  destruct (api_response E _ endpoint param) as [body | e]; [done |].
  destruct (is_RequestException e); [| done].
  by destruct (markup_error E _ _).
Qed.

Lemma make_api_request_inv endpoint param w body w1 :
  _make_api_request E endpoint param w = (Ok body, w1) →
  calls w1 = calls w ++ [make_api_request_call endpoint param]
  ∧ files w1 = files w ∧ dirs w1 = dirs w
  ∧ download_task w1 = download_task w ∧ convert_task w1 = convert_task w
  ∧ match api_response E (S (length (calls w))) endpoint param with
    | Ok answer => body = answer ∧ console w1 = console w
    | Raise e =>
        is_RequestException e = true ∧ body = JNull
        ∧ console w1 = console w ++ [ApiRequestError]
    end.
Proof.
  rewrite make_api_request_run. cbv zeta. cbn [log_call calls].
  rewrite length_app, Nat.add_1_r.
  destruct (api_response E _ endpoint param) as [answer | e].
  - by intros [= <- <-].
  - destruct (is_RequestException e); [| done].
    destruct (markup_error E _ _); [done |]. by intros [= <- <-].
Qed.

Lemma make_api_request_ok endpoint param w :
  request_returns E endpoint param w = true →
  ∃ body w1, _make_api_request E endpoint param w = (Ok body, w1).
Proof.
  unfold request_returns. rewrite make_api_request_run. cbv zeta.
  cbn [log_call calls]. rewrite length_app, Nat.add_1_r.
  destruct (api_response E _ endpoint param) as [answer | e];
    [by eexists _, _ |].
  intros [-> Hm%negb_true_iff]%andb_true_iff. rewrite Hm. by eexists _, _.
Qed.

Lemma is_ok_failed body : fetch_failed (Ok body) = true → is_ok body = Ok false.
Proof.
  intros Hfail. unfold is_ok.
  destruct body as [| b | z | x | s | l | d]; cbn [fetch_failed] in Hfail;
    apply negb_true_iff in Hfail.
  1-6: by (try done; cbn [truthy] in *; rewrite Hfail).
  destruct d as [| kv d]; [done |]. cbn [truthy py_get].
  unfold mbind, outcome_bind, mret, outcome_ret. by rewrite Hfail.
Qed.

(** What [download_sticker_pack] does when the pack is not there. *)
Lemma pack_unavailable_run link output_folder w :
  let request :=
    make_api_request_call (txt "getStickerSet")
      (txt "name", JStr (last_segment link)) in
  let response :=
    api_response E (length (calls (log_call request w)))
      (txt "getStickerSet") (txt "name", JStr (last_segment link)) in
  fetch_failed response = true →
  (∀ e, response = Raise e →
        markup_error E (length (console w)) ApiRequestError = false) →
  download_sticker_pack E link output_folder w =
  (Ok (),
   say PackUnavailable
     (match response with
      | Ok _ => log_call request w
      | Raise _ => say ApiRequestError (log_call request w)
      end)).
Proof.
  intros request response Hfail Hm.
  unfold download_sticker_pack, _get_sticker_set.
  unfold mbind at 1, M_bind at 1. rewrite make_api_request_run.
  fold request. fold response. destruct response as [body | e].
  - unfold mbind at 1, M_bind at 1, lift at 1.
    rewrite (is_ok_failed body Hfail). cbn [negb]. by rewrite print_run.
  - cbn [fetch_failed] in Hfail. rewrite Hfail, (Hm e eq_refl).
    unfold mbind at 1, M_bind at 1, lift at 1. cbn. by rewrite print_run.
Qed.

(** C5: when the pack fetch returns absence or a result that is not ok,
    [download_sticker_pack] prints the error and returns; no directory is
    created, no file is written, the progress tasks are untouched and no
    helper is called but the one request.  The fetch returns absence after
    a [RequestException] when the message of the exception is valid
    markup. *)
Theorem pack_fetch_failure link output_folder w :
  let request :=
    make_api_request_call (txt "getStickerSet")
      (txt "name", JStr (last_segment link)) in
  let response :=
    api_response E (length (calls (log_call request w)))
      (txt "getStickerSet") (txt "name", JStr (last_segment link)) in
  fetch_failed response = true →
  (∀ e, response = Raise e →
        markup_error E (length (console w)) ApiRequestError = false) →
  ∃ w', download_sticker_pack E link output_folder w = (Ok (), w')
        ∧ last (console w') = Some PackUnavailable
        ∧ dirs w' = dirs w ∧ files w' = files w
        ∧ download_task w' = download_task w
        ∧ convert_task w' = convert_task w
        ∧ calls w' = calls w ++ [request].
Proof.
  intros request response Hfail Hm. eexists.
  split; [by apply pack_unavailable_run |].
  fold request. fold response. destruct response; cbn;
    by rewrite last_snoc.
Qed.

Lemma write_chunks_run save_path chunks w :
  for_each chunks (write_chunk save_path) w
  = (Ok (), chunks_written save_path chunks w).
Proof.
  revert w. induction chunks as [| chunk chunks IH]; intros w; [done |].
  cbn [for_each]. unfold chunks_written. cbn [fold_left].
  erewrite bind_ok; [apply IH |]. done.
Qed.

Lemma chunks_written_frame save_path chunks w :
  let w' := chunks_written save_path chunks w in
  calls w' = calls w ∧ console w' = console w ∧ dirs w' = dirs w
  ∧ convert_task w' = convert_task w
  ∧ total (download_task w') = total (download_task w)
  ∧ completed (download_task w')
    = (completed (download_task w) + length (concat chunks))%nat
  ∧ files w' !! save_path
    = match chunks with
      | [] => files w !! save_path
      | _ => Some (default [] (files w !! save_path) ++ concat chunks)
      end
  ∧ ∀ path, path ≠ save_path → files w' !! path = files w !! path.
Proof.
  revert w. induction chunks as [| chunk chunks IH]; intros w.
  - cbn. repeat split; try done; lia.
  - unfold chunks_written. cbn [fold_left].
    destruct (IH (chunk_written save_path w chunk))
      as (Hc & Ho & Hd & Hv & Ht & Hn & Hf & Hother).
    fold (chunks_written save_path chunks (chunk_written save_path w chunk)).
    cbv zeta. rewrite Hc, Ho, Hd, Hv, Ht, Hn, Hf.
    repeat split; try done.
    + cbn. rewrite length_app. lia.
    + cbn [chunk_written with_download_task with_files files].
      rewrite lookup_insert_eq. cbn [concat].
      destruct chunks; [by rewrite app_nil_r |].
      cbn [default from_option id]. by rewrite app_assoc.
    + intros path Hne. rewrite Hother by done.
      cbn. by rewrite lookup_insert_ne.
Qed.

(** What [_download_file] does, by the stream it is given. *)
Lemma download_file_run file_path save_path w :
  let w1 := log_call (download_file_call file_path save_path) w in
  _download_file E file_path save_path w =
  match stream_response E (length (calls w1)) file_path with
  | Refused => print E DownloadError w1
  | Body BadHeader _ _ => (Raise ValueError, w1)
  | Body header chunks broken =>
      let w2 :=
        with_download_task
          {| total := announced header;
             completed := completed (download_task w1) |} w1 in
      if unwritable E save_path then (Raise OSError, w2)
      else
        let w3 :=
          chunks_written save_path chunks
            (with_files (<[save_path := []]> (files w1)) w2) in
        if broken then print E DownloadError w3 else (Ok (), w3)
  end.
Proof.
  cbv zeta. unfold _download_file, stream_to_file.
  unfold record_call at 1, modify at 1, mbind at 1, M_bind at 1.
  unfold try_except, get_world, mbind at 1, M_bind at 1.
  destruct (stream_response E _ file_path) as [| header chunks broken];
    [done |].
  destruct header as [| n |]; [| | done].
  all: unfold mbind at 1, M_bind at 1, mret at 1, M_ret at 1;
    unfold mbind at 1, M_bind at 1, set_download_task at 1, modify at 1;
    destruct (unwritable E save_path); [done |];
    unfold mbind at 1, M_bind at 1, set_files at 1, modify at 1;
    unfold mbind at 1, M_bind at 1; rewrite write_chunks_run;
    by destruct broken.
Qed.

Lemma chunks_written_files save_path chunks w old :
  files w !! save_path = Some old →
  files (chunks_written save_path chunks w)
  = <[save_path := old ++ concat chunks]> (files w).
Proof.
  intros Hold.
  destruct (chunks_written_frame save_path chunks w)
    as (_ & _ & _ & _ & _ & _ & Hsave & Hother).
  cbv zeta in *. apply map_eq. intros path.
  destruct (decide (path = save_path)) as [-> | Hne].
  - rewrite lookup_insert_eq, Hsave, Hold.
    destruct chunks; [by rewrite app_nil_r |]. done.
  - rewrite lookup_insert_ne by done. by apply Hother.
Qed.

(** The world after [_download_file] has written the chunks of a stream
    whose header is well formed to a file it could open. *)
Lemma chunks_written_world file_path save_path w header chunks :
  let w1 := log_call (download_file_call file_path save_path) w in
  let w3 :=
    chunks_written save_path chunks
      (with_files (<[save_path := []]> (files w1))
         (with_download_task
            {| total := announced header;
               completed := completed (download_task w1) |} w1)) in
  calls w3 = calls w ++ [download_file_call file_path save_path]
  ∧ console w3 = console w ∧ dirs w3 = dirs w
  ∧ convert_task w3 = convert_task w
  ∧ total (download_task w3) = announced header
  ∧ completed (download_task w3)
    = (completed (download_task w) + length (concat chunks))%nat
  ∧ files w3 = <[save_path := concat chunks]> (files w).
Proof.
  cbv zeta.
  match goal with
  | |- context [chunks_written ?p ?c ?w0] =>
      destruct (chunks_written_frame p c w0) as (Hc & Ho & Hd & Hv & Ht & Hn & _);
      pose proof (chunks_written_files p c w0 [] (lookup_insert_eq _ _ _)) as Hf
  end.
  cbv zeta in *. cbn [with_files with_download_task files] in Hf.
  rewrite insert_insert_eq in Hf. cbn [app] in Hf.
  by rewrite Hc, Ho, Hd, Hv, Ht, Hn, Hf.
Qed.

(** What a call of [_download_file] that returns has done. *)
Lemma download_file_inv file_path save_path w w' :
  _download_file E file_path save_path w = (Ok (), w') →
  let s := stream_response E (S (length (calls w))) file_path in
  stream_accepted E s save_path = true
  ∧ calls w' = calls w ++ [download_file_call file_path save_path]
  ∧ console w' = console w ++ (if request_fails s then [DownloadError] else [])
  ∧ convert_task w' = convert_task w
  ∧ dirs w' = dirs w
  ∧ completed (download_task w')
    = (completed (download_task w) + delivered s)%nat
  ∧ files w'
    = match s with
      | Refused => files w
      | Body _ chunks _ => <[save_path := concat chunks]> (files w)
      end.
Proof.
  rewrite download_file_run. cbv zeta. cbn [log_call calls].
  rewrite length_app, Nat.add_1_r.
  destruct (stream_response E _ file_path) as [| header chunks broken].
  - intros ->%print_inv. cbn. repeat split; first [done | lia].
  - assert (header = BadHeader ∨ header ≠ BadHeader) as [-> | Hh]
      by (destruct header; by auto).
    { done. }
    assert (∀ T (a b : T), match header with BadHeader => a | _ => b end = b)
      as Hmatch by (by destruct header).
    rewrite !Hmatch. cbn [stream_accepted request_fails delivered].
    rewrite Hmatch.
    destruct (unwritable E save_path); [done |].
    destruct (chunks_written_world file_path save_path w header chunks)
      as (Hc & Ho & Hd & Hv & _ & Hn & Hf).
    cbv zeta in *.
    destruct broken.
    + intros ->%print_inv.
      cbn [say log_call calls console convert_task dirs download_task files] in *.
      by rewrite Hc, Ho, Hd, Hv, Hn, Hf.
    + intros [= <-].
      cbn [say log_call calls console convert_task dirs download_task files] in *.
      by rewrite Hc, Ho, Hd, Hv, Hn, Hf, app_nil_r.
Qed.

(** [_download_file] returns when its stream raises nothing but a
    [RequestException] whose message is valid markup. *)
Lemma download_file_ok file_path save_path w :
  let s := stream_response E (S (length (calls w))) file_path in
  stream_accepted E s save_path = true →
  (request_fails s = true →
   markup_error E (length (console w)) DownloadError = false) →
  ∃ w', _download_file E file_path save_path w = (Ok (), w').
Proof.
  cbv zeta. rewrite download_file_run. cbv zeta. cbn [log_call calls].
  rewrite length_app, Nat.add_1_r.
  destruct (stream_response E _ file_path) as [| header chunks broken].
  - intros _ Hm. rewrite print_rendered; [by eexists | by apply Hm].
  - assert (header = BadHeader ∨ header ≠ BadHeader) as [-> | Hh]
      by (destruct header; by auto).
    { done. }
    assert (∀ T (a b : T), match header with BadHeader => a | _ => b end = b)
      as Hmatch by (by destruct header).
    rewrite !Hmatch. cbn [stream_accepted request_fails]. rewrite Hmatch.
    intros ->%negb_true_iff Hm.
    destruct broken; [| by eexists].
    rewrite print_rendered; [by eexists |].
    destruct (chunks_written_world file_path save_path w header chunks)
      as (_ & Ho & _).
    cbv zeta in Ho. rewrite Ho. by apply Hm.
Qed.

(** What [_convert_webp_to_png] does, by the source file it finds. *)
Lemma convert_run webp_path png_path w :
  let w1 := log_call (convert_webp_to_png_call webp_path png_path) w in
  _convert_webp_to_png E webp_path png_path w =
  if unreadable E webp_path then print E (ConvertError OSError) w1
  else
    match files w !! webp_path with
    | None => print E (ConvertError OSError) w1
    | Some source =>
        match reencode_png E source with
        | None => print E (ConvertError UnidentifiedImageError) w1
        | Some image =>
            if unwritable E png_path then print E (ConvertError OSError) w1
            else if unremovable E webp_path
            then print E (ConvertError OSError)
                   (with_files (<[png_path := image]> (files w)) w1)
            else (Ok (), with_files (delete webp_path (<[png_path := image]> (files w))) w1)
        end
    end.
Proof.
  unfold _convert_webp_to_png, open_save_remove.
  unfold record_call at 1, modify at 1, mbind at 1, M_bind at 1.
  unfold try_except, get_world, mbind at 1, M_bind at 1. cbn [log_call files].
  destruct (unreadable E webp_path); [done |].
  destruct (files w !! webp_path) as [source |]; [| done].
  destruct (reencode_png E source) as [image |]; [| done].
  destruct (unwritable E png_path); [done |].
  unfold mbind at 1, M_bind at 1, set_files at 1, modify at 1.
  by destruct (unremovable E webp_path).
Qed.

(** What [_convert_webp_to_png] leaves alone, however it ends: it returns,
    or the message of its error is no valid markup. *)
Lemma convert_inv webp_path png_path w r w' :
  _convert_webp_to_png E webp_path png_path w = (r, w') →
  calls w' = calls w ++ [convert_webp_to_png_call webp_path png_path]
  ∧ download_task w' = download_task w
  ∧ convert_task w' = convert_task w
  ∧ dirs w' = dirs w
  ∧ (r = Ok ()
     ∧ (console w' = console w ∨ ∃ e, console w' = console w ++ [ConvertError e])
     ∨ r = Raise MarkupError ∧ console w' = console w).
Proof.
  rewrite convert_run. cbv zeta.
  assert (∀ e w1,
            calls w1 = calls w ++ [convert_webp_to_png_call webp_path png_path] →
            download_task w1 = download_task w →
            convert_task w1 = convert_task w →
            dirs w1 = dirs w → console w1 = console w →
            print E (ConvertError e) w1 = (r, w') →
            calls w' = calls w ++ [convert_webp_to_png_call webp_path png_path]
            ∧ download_task w' = download_task w
            ∧ convert_task w' = convert_task w
            ∧ dirs w' = dirs w
            ∧ (r = Ok ()
               ∧ (console w' = console w
                  ∨ ∃ e, console w' = console w ++ [ConvertError e])
               ∨ r = Raise MarkupError ∧ console w' = console w)) as Hprint.
  { intros e w1 Hc Hn Hv Hd Ho. rewrite print_run.
    destruct (markup_error _ _ _); intros [= <- <-]; cbn; rewrite ?Hc, ?Hn, ?Hv, ?Hd, ?Ho;
      repeat split; try done; [by right | left; split; [done |]; right; by eexists]. }
  destruct (unreadable E webp_path); [by apply Hprint |].
  destruct (files w !! webp_path) as [source |]; [| by apply Hprint].
  destruct (reencode_png E source) as [image |]; [| by apply Hprint].
  destruct (unwritable E png_path); [by apply Hprint |].
  destruct (unremovable E webp_path); [by apply Hprint |].
  intros [= <- <-]. cbn. repeat split; try done. left. by auto.
Qed.

Lemma convert_ok webp_path png_path w :
  (∀ e, markup_error E (length (console w)) (ConvertError e) = false) →
  ∃ w', _convert_webp_to_png E webp_path png_path w = (Ok (), w').
Proof.
  intros Hm. rewrite convert_run. cbv zeta.
  destruct (unreadable E webp_path);
    [rewrite print_rendered; [by eexists | apply Hm] |].
  destruct (files w !! webp_path) as [source |];
    [| rewrite print_rendered; [by eexists | apply Hm]].
  destruct (reencode_png E source) as [image |];
    [| rewrite print_rendered; [by eexists | apply Hm]].
  destruct (unwritable E png_path);
    [rewrite print_rendered; [by eexists | apply Hm] |].
  destruct (unremovable E webp_path); [| by eexists].
  rewrite print_rendered; [by eexists | apply Hm].
Qed.

Lemma bind_inv {A B} (m : M A) (f : A → M B) w b w' :
  (m ≫= f) w = (Ok b, w') →
  ∃ a w1, m w = (Ok a, w1) ∧ f a w1 = (Ok b, w').
Proof.
  unfold mbind, M_bind. destruct (m w) as [[a | e] w1]; [| done].
  intros Hf. by exists a, w1.
Qed.

Lemma lift_inv {A} (r : outcome A) w a w' :
  lift r w = (Ok a, w') → r = Ok a ∧ w' = w.
Proof. unfold lift. by intros [= -> ->]. Qed.

Lemma lookups_extension file_info result file_path :
  py_getitem file_info (txt "result") = Ok result →
  py_getitem result (txt "file_path") = Ok (JStr file_path) →
  file_extension_of file_info = (splitext file_path).2
  ∧ file_path_of file_info = file_path.
Proof.
  unfold py_getitem, file_extension_of, file_path_of.
  destruct file_info as [| | | | | | d]; try done.
  destruct (dict_lookup (txt "result") d) as [r |]; [| done].
  intros [= ->]. destruct result as [| | | | | | d']; try done.
  destruct (dict_lookup (txt "file_path") d') as [p |]; [| done].
  by intros [= ->].
Qed.

(** The body of the item after the lookups of lines 139 to 148. *)
Lemma fetch_sticker_run pack_folder sticker file_info result file_path stem w :
  py_getitem file_info (txt "result") = Ok result →
  py_getitem result (txt "file_path") = Ok (JStr file_path) →
  sticker_stem sticker = Ok stem →
  fetch_sticker E pack_folder sticker file_info w =
  (let file_extension := (splitext file_path).2 in
   let webp_save_path := path_join pack_folder (stem ++ file_extension) in
   _download_file E file_path webp_save_path;;
   (if is_webp file_extension
    then _convert_webp_to_png E webp_save_path
           (path_join pack_folder (stem ++ txt ".png"))
    else mret ());;
   w ← get_world;
   set_convert_task (advance 1 (convert_task w))) w.
Proof.
  intros Hres Hpath Hstem. unfold fetch_sticker.
  unfold mbind at 1, M_bind at 1, lift at 1. rewrite Hres.
  unfold mbind at 1, M_bind at 1, lift at 1. rewrite Hpath.
  unfold mbind at 1, M_bind at 1, lift at 1. by rewrite Hstem.
Qed.

Lemma fetch_sticker_lookups pack_folder sticker file_info w w' :
  fetch_sticker E pack_folder sticker file_info w = (Ok (), w') →
  ∃ result file_path stem,
    py_getitem file_info (txt "result") = Ok result
    ∧ py_getitem result (txt "file_path") = Ok (JStr file_path)
    ∧ sticker_stem sticker = Ok stem.
Proof.
  unfold fetch_sticker. intros Hrun.
  apply bind_inv in Hrun as (result & w1 & Hres & Hrun).
  apply lift_inv in Hres as [Hres ->].
  apply bind_inv in Hrun as (path & w1 & Hpath & Hrun).
  apply lift_inv in Hpath as [Hpath ->].
  destruct path as [| | | | file_path | |]; try done.
  apply bind_inv in Hrun as (stem & w1 & Hstem & Hrun).
  apply lift_inv in Hstem as [Hstem ->].
  by exists result, file_path, stem.
Qed.

(** What a completed [fetch_sticker] has done: it was given a stream it
    accepts, called the download and, for a [.webp], the converter, printed
    the error of the download if there was one and then at most the error
    of the converter, and advanced the convert counter. *)
Lemma fetch_sticker_inv pack_folder sticker file_info result file_path stem w w' :
  py_getitem file_info (txt "result") = Ok result →
  py_getitem result (txt "file_path") = Ok (JStr file_path) →
  sticker_stem sticker = Ok stem →
  fetch_sticker E pack_folder sticker file_info w = (Ok (), w') →
  let file_extension := (splitext file_path).2 in
  let webp_save_path := path_join pack_folder (stem ++ file_extension) in
  let png_save_path := path_join pack_folder (stem ++ txt ".png") in
  let s := stream_response E (S (length (calls w))) file_path in
  stream_accepted E s webp_save_path = true
  ∧ calls w'
    = calls w ++ download_file_call file_path webp_save_path
        :: (if is_webp file_extension
            then [convert_webp_to_png_call webp_save_path png_save_path]
            else [])
  ∧ (∃ said, console w'
             = console w ++ (if request_fails s then [DownloadError] else [])
               ++ said
             ∧ List.filter is_request_error said = [])
  ∧ completed (convert_task w') = S (completed (convert_task w))
  ∧ total (convert_task w') = total (convert_task w)
  ∧ dirs w' = dirs w
  ∧ completed (download_task w')
    = (completed (download_task w) + delivered s)%nat.
Proof.
  intros Hres Hpath Hstem.
  rewrite (fetch_sticker_run _ _ _ _ _ _ _ Hres Hpath Hstem).
  intros Hrun ext save png s. cbv zeta in Hrun. fold ext save in Hrun.
  apply bind_inv in Hrun as ([] & w1 & Hdown & Hrun).
  apply download_file_inv in Hdown
    as (Hacc & Hc1 & Ho1 & Hv1 & Hd1 & Hn1 & _).
  fold s in Hacc, Ho1, Hn1. split; [done |].
  apply bind_inv in Hrun as ([] & w2 & Hconv & Hrun).
  injection Hrun as <-. cbn.
  destruct (is_webp ext).
  - apply convert_inv in Hconv as (Hc2 & Hn2 & Hv2 & Hd2 & Ho2).
    rewrite Hc2, Hc1, Hv2, Hv1, Hd2, Hd1, Hn2, Hn1, <- app_assoc.
    repeat split; try done; [| lia].
    destruct Ho2 as [[_ [-> | [e ->]]] | [? _]]; [| | done]; rewrite Ho1.
    + exists []. by rewrite app_nil_r.
    + exists [ConvertError e]. by rewrite app_assoc.
  - injection Hconv as <-. rewrite Hc1, Hv1, Hd1, Hn1.
    repeat split; try done; [| lia].
    exists []. by rewrite Ho1, app_nil_r.
Qed.

(** [fetch_sticker] returns when its lookups do, its stream is accepted
    and the error messages are valid markup. *)
Lemma fetch_sticker_ok pack_folder sticker file_info result file_path stem w :
  py_getitem file_info (txt "result") = Ok result →
  py_getitem result (txt "file_path") = Ok (JStr file_path) →
  sticker_stem sticker = Ok stem →
  stream_accepted E (stream_response E (S (length (calls w))) file_path)
    (path_join pack_folder (stem ++ (splitext file_path).2)) = true →
  renders E →
  ∃ w', fetch_sticker E pack_folder sticker file_info w = (Ok (), w').
Proof.
  intros Hres Hpath Hstem Hacc Hrender.
  rewrite (fetch_sticker_run _ _ _ _ _ _ _ Hres Hpath Hstem). cbv zeta.
  destruct (download_file_ok file_path _ w Hacc) as [w1 Hdown];
    [intros _; by apply Hrender |].
  unfold mbind at 1, M_bind at 1. rewrite Hdown.
  destruct (is_webp _).
  - match goal with
    | |- context [_convert_webp_to_png E ?a ?b] =>
        destruct (convert_ok a b w1) as [w2 Hconv]; [intros e; by apply Hrender |]
    end.
    unfold mbind at 1, M_bind at 1. rewrite Hconv. by eexists.
  - by eexists.
Qed.

Lemma get_file_info_inv sticker file_id w file_info w1 :
  py_getitem sticker (txt "file_id") = Ok file_id →
  _get_file_info E file_id w = (Ok file_info, w1) →
  let request :=
    make_api_request_call (txt "getFile") (txt "file_id", file_id) in
  file_info = file_info_for E sticker w
  ∧ calls w1 = calls w ++ [request]
  ∧ console w1 = console w ++ request_error E (S (length (calls w))) request
  ∧ download_task w1 = download_task w
  ∧ convert_task w1 = convert_task w
  ∧ dirs w1 = dirs w.
Proof.
  intros Hid Hrun. unfold _get_file_info in Hrun.
  apply make_api_request_inv in Hrun as (Hc & _ & Hd & Hn & Hv & Hbody).
  unfold file_info_for. rewrite Hid. cbn [request_error].
  destruct (api_response E _ _ _) as [answer | e].
  - destruct Hbody as [-> ->]. by rewrite app_nil_r.
  - by destruct Hbody as (_ & -> & ->).
Qed.

(** [process_sticker] as the steps it goes through when it returns. *)
Lemma process_sticker_inv pack_folder sticker w w' :
  process_sticker E pack_folder sticker w = (Ok (), w') →
  ∃ file_id w1 w2,
    py_getitem sticker (txt "file_id") = Ok file_id
    ∧ _get_file_info E file_id w = (Ok (file_info_for E sticker w), w1)
    ∧ is_ok (file_info_for E sticker w)
      = Ok (lookup_succeeded (file_info_for E sticker w))
    ∧ (if lookup_succeeded (file_info_for E sticker w)
       then fetch_sticker E pack_folder sticker (file_info_for E sticker w) w1
            = (Ok (), w2)
       else w2 = w1)
    ∧ w' = with_download_task (advance 1 (download_task w2)) w2.
Proof.
  unfold process_sticker. intros Hrun.
  apply bind_inv in Hrun as (file_id & w0 & Hid & Hrun).
  apply lift_inv in Hid as [Hid ->].
  apply bind_inv in Hrun as (file_info & w1 & Hinfo & Hrun).
  destruct (get_file_info_inv sticker file_id w file_info w1 Hid Hinfo)
    as (-> & _).
  apply bind_inv in Hrun as (ok & w1' & Hok & Hrun).
  apply lift_inv in Hok as [Hok ->].
  apply bind_inv in Hrun as ([] & w2 & Hfetch & Hrun).
  injection Hrun as <-. exists file_id, w1, w2.
  unfold lookup_succeeded. rewrite Hok. repeat split; try done.
  destruct ok; [done | by injection Hfetch].
Qed.

(** What a completed item has done to the counters and the calls. *)
Lemma process_sticker_counts pack_folder sticker w w' :
  process_sticker E pack_folder sticker w = (Ok (), w') →
  let file_info := file_info_for E sticker w in
  let s :=
    stream_response E (S (S (length (calls w)))) (file_path_of file_info) in
  completed (convert_task w')
  = (completed (convert_task w)
     + if lookup_succeeded file_info then 1 else 0)%nat
  ∧ convert_calls (calls w')
    = (convert_calls (calls w)
       + if lookup_succeeded file_info && is_webp (file_extension_of file_info)
         then 1 else 0)%nat
  ∧ completed (download_task w')
    = (completed (download_task w) + 1
       + if lookup_succeeded file_info then delivered s else 0)%nat
  ∧ total (convert_task w') = total (convert_task w)
  ∧ dirs w' = dirs w.
Proof.
  intros Hrun.
  apply process_sticker_inv in Hrun
    as (file_id & w1 & w2 & Hid & Hinfo & _ & Hfetch & ->).
  destruct (get_file_info_inv _ _ _ _ _ Hid Hinfo)
    as (_ & Hc1 & _ & Hn1 & Hv1 & Hd1).
  cbv zeta. destruct (lookup_succeeded _).
  - destruct (fetch_sticker_lookups _ _ _ _ _ Hfetch)
      as (result & file_path & stem & Hres & Hpath & Hstem).
    destruct (fetch_sticker_inv _ _ _ _ _ _ _ _ Hres Hpath Hstem Hfetch)
      as (_ & Hc2 & _ & Hv2 & Ht2 & Hd2 & Hn2).
    destruct (lookups_extension _ _ _ Hres Hpath) as [-> ->].
    rewrite Hc1, length_app in Hn2. cbn [length] in Hn2.
    rewrite Nat.add_1_r in Hn2.
    cbn. rewrite Hc2, Hv2, Ht2, Hd2, Hn2, Hc1, Hv1, Hd1, Hn1.
    unfold convert_calls. rewrite !List.filter_app, !length_app.
    cbn [List.filter is_convert_call length].
    destruct (is_webp _); cbn; repeat split; try done; lia.
  - subst w2. cbn. rewrite Hc1, Hv1, Hd1, Hn1.
    unfold convert_calls. rewrite !List.filter_app, !length_app. cbn.
    repeat split; try done; lia.
Qed.

(** C3, as amended: an item that is processed to its end advances the
    convert counter by one when its file-location lookup succeeded, and not
    otherwise; the converter is called for it when the lookup succeeded
    and the extension is [.webp] in some case of letters, and not
    otherwise. *)
Theorem convert_counter_advance pack_folder sticker w w' :
  process_sticker E pack_folder sticker w = (Ok (), w') →
  let file_info := file_info_for E sticker w in
  completed (convert_task w')
  = (completed (convert_task w)
     + if lookup_succeeded file_info then 1 else 0)%nat
  ∧ convert_calls (calls w')
    = (convert_calls (calls w)
       + if lookup_succeeded file_info && is_webp (file_extension_of file_info)
         then 1 else 0)%nat.
Proof.
  intros Hrun. destruct (process_sticker_counts _ _ _ _ Hrun) as (? & ? & _).
  by split.
Qed.


(** *** Failed requests are logged *)

Lemma request_errors_app i made made' :
  request_errors E i (made ++ made')
  = request_errors E i made ++ request_errors E (i + length made) made'.
Proof.
  revert i. induction made as [| c made IH]; intros i.
  - cbn. by rewrite Nat.add_0_r.
  - cbn [app request_errors length]. rewrite IH, <- app_assoc.
    by rewrite Nat.add_succ_r.
Qed.

Lemma requests_logged_same w w' :
  calls w' = calls w → console w' = console w → requests_logged E w w'.
Proof. intros Hc Ho. exists [], []. by rewrite Hc, Ho, !app_nil_r. Qed.

Lemma requests_logged_said w w' m :
  calls w' = calls w → console w' = console w ++ [m] →
  is_request_error m = false → requests_logged E w w'.
Proof.
  intros Hc Ho Hm. exists [], [m]. rewrite Hc, Ho, app_nil_r. cbn.
  by rewrite Hm.
Qed.

Lemma requests_logged_trans w1 w2 w3 :
  requests_logged E w1 w2 → requests_logged E w2 w3 → requests_logged E w1 w3.
Proof.
  intros (made & said & Hc & Ho & Hlog) (made' & said' & Hc' & Ho' & Hlog').
  exists (made ++ made'), (said ++ said').
  rewrite Hc', Hc, Ho', Ho, !app_assoc. repeat split.
  rewrite List.filter_app, request_errors_app, Hlog, Hlog'.
  by rewrite Hc, length_app.
Qed.

Lemma make_api_request_logs endpoint param w body w1 :
  _make_api_request E endpoint param w = (Ok body, w1) →
  requests_logged E w w1.
Proof.
  intros Hrun.
  apply make_api_request_inv in Hrun as (Hc & _ & _ & _ & _ & Hbody).
  exists [make_api_request_call endpoint param],
    (request_error E (S (length (calls w)))
       (make_api_request_call endpoint param)).
  split; [done |]. cbn [request_errors request_error].
  destruct (api_response E _ _ _) as [answer | e].
  - destruct Hbody as [_ ->]. by rewrite !app_nil_r.
  - by destruct Hbody as (_ & _ & ->).
Qed.

Lemma fetch_sticker_logs pack_folder sticker file_info w w' :
  fetch_sticker E pack_folder sticker file_info w = (Ok (), w') →
  requests_logged E w w'.
Proof.
  intros Hrun.
  destruct (fetch_sticker_lookups _ _ _ _ _ Hrun)
    as (result & file_path & stem & Hres & Hpath & Hstem).
  destruct (fetch_sticker_inv _ _ _ _ _ _ _ _ Hres Hpath Hstem Hrun)
    as (_ & Hc & (said & Ho & Hsaid) & _).
  eexists _, _. split; [exact Hc |]. split; [exact Ho |].
  rewrite List.filter_app, Hsaid, app_nil_r.
  cbn [request_errors request_error].
  destruct (request_fails _); destruct (is_webp _); by cbn.
Qed.

Lemma process_sticker_logs pack_folder sticker w w' :
  process_sticker E pack_folder sticker w = (Ok (), w') →
  requests_logged E w w'.
Proof.
  intros Hrun.
  apply process_sticker_inv in Hrun
    as (file_id & w1 & w2 & _ & Hinfo & _ & Hfetch & ->).
  apply make_api_request_logs in Hinfo.
  eapply requests_logged_trans; [exact Hinfo |].
  apply requests_logged_trans with w2; [| by apply requests_logged_same].
  destruct (lookup_succeeded _).
  - by eapply fetch_sticker_logs.
  - subst w2. by apply requests_logged_same.
Qed.

Lemma for_each_sticker_logs pack_folder stickers w w' :
  for_each stickers (process_sticker E pack_folder) w = (Ok (), w') →
  requests_logged E w w'.
Proof.
  revert w. induction stickers as [| sticker stickers IH]; intros w.
  - intros [= <-]. by apply requests_logged_same.
  - cbn [for_each]. intros Hrun.
    apply bind_inv in Hrun as ([] & w1 & Hitem & Hrest).
    eapply requests_logged_trans; [by eapply process_sticker_logs |].
    by apply IH.
Qed.

(** [os.makedirs] touches nothing but the directories. *)
Lemma makedirs_inv path w r w' :
  makedirs E path w = (r, w') →
  files w' = files w ∧ console w' = console w ∧ calls w' = calls w
  ∧ download_task w' = download_task w ∧ convert_task w' = convert_task w.
Proof.
  unfold makedirs. destruct (text_eqb path []); [by intros [= <- <-] |].
  destruct (ensure_dirs _ _ _ _) as [r' made]. by intros [= <- <-].
Qed.

Lemma makedirs_outcome path w w1 :
  files w1 = files w → dirs w1 = dirs w →
  (makedirs E path w1).1 = (makedirs E path w).1.
Proof.
  intros Hf Hd. unfold makedirs. rewrite Hf, Hd.
  destruct (text_eqb path []); [done |].
  by destruct (ensure_dirs _ _ _ _).
Qed.

(** The steps of a call of [download_sticker_pack] that returns. *)
Lemma download_sticker_pack_inv link output_folder w w' :
  download_sticker_pack E link output_folder w = (Ok (), w') →
  ∃ pack_info w1,
    _get_sticker_set E (last_segment link) w = (Ok pack_info, w1)
    ∧ ((is_ok pack_info = Ok false ∧ w' = say PackUnavailable w1)
       ∨ ∃ w2 title stickers n items w3 w4,
           is_ok pack_info = Ok true
           ∧ makedirs E (path_join output_folder (last_segment link)) w1
             = (Ok (), w2)
           ∧ print E (PackTitle title) w2 = (Ok (), w3)
           ∧ py_len stickers = Ok n
           ∧ py_iter stickers = Ok items
           ∧ for_each items
               (process_sticker E (path_join output_folder (last_segment link)))
               (with_convert_task {| total := n; completed := 0 |}
                  (with_download_task {| total := n; completed := 0 |} w3))
             = (Ok (), w4)
           ∧ w' = say DownloadComplete w4).
Proof.
  unfold download_sticker_pack. intros Hrun.
  apply bind_inv in Hrun as (pack_info & w1 & Hget & Hrun).
  exists pack_info, w1. split; [done |].
  apply bind_inv in Hrun as (ok & w1' & Hok & Hrun).
  apply lift_inv in Hok as [Hok ->].
  destruct ok; cbn [negb] in Hrun; cycle 1.
  { left. split; [done |]. by apply print_inv in Hrun. }
  right.
  apply bind_inv in Hrun as ([] & w2 & Hmk & Hrun).
  apply bind_inv in Hrun as (result & w2' & Hres & Hrun).
  apply lift_inv in Hres as [_ ->].
  apply bind_inv in Hrun as (title & w2' & Ht & Hrun).
  apply lift_inv in Ht as [_ ->].
  apply bind_inv in Hrun as ([] & w3 & Hp & Hrun).
  apply bind_inv in Hrun as (result' & w3' & Hres' & Hrun).
  apply lift_inv in Hres' as [_ ->].
  apply bind_inv in Hrun as (stickers & w3' & Hst & Hrun).
  apply lift_inv in Hst as [_ ->].
  apply bind_inv in Hrun as (n & w3' & Hn & Hrun).
  apply lift_inv in Hn as [Hn ->].
  apply bind_inv in Hrun as ([] & w4 & Hset & Hrun). injection Hset as <-.
  apply bind_inv in Hrun as (n' & w4 & Hn' & Hrun).
  apply lift_inv in Hn' as [Hn' ->].
  rewrite Hn in Hn'. injection Hn' as <-.
  apply bind_inv in Hrun as ([] & w5 & Hset & Hrun). injection Hset as <-.
  apply bind_inv in Hrun as (items & w6 & Hit & Hrun).
  apply lift_inv in Hit as [Hit ->].
  apply bind_inv in Hrun as ([] & w7 & Hloop & Hrun).
  apply print_inv in Hrun.
  by exists w2, title, stickers, n, items, w3, w7.
Qed.

(** In a call of [download_sticker_pack] that returns, the request errors
    printed are those of the requests that failed, in their order. *)
Lemma download_sticker_pack_logs link output_folder w w' :
  download_sticker_pack E link output_folder w = (Ok (), w') →
  requests_logged E w w'.
Proof.
  intros Hrun.
  apply download_sticker_pack_inv in Hrun
    as (pack_info & w1 & Hget & Hrest).
  apply make_api_request_logs in Hget.
  eapply requests_logged_trans; [exact Hget |].
  destruct Hrest as [[_ ->]
    | (w2 & title & stickers & n & items & w3 & w4
       & _ & Hmk & Hp & _ & _ & Hloop & ->)].
  { by apply requests_logged_said with (m := PackUnavailable). }
  apply makedirs_inv in Hmk as (_ & Ho2 & Hc2 & _).
  apply print_inv in Hp. subst w3.
  apply for_each_sticker_logs in Hloop.
  apply requests_logged_trans with w2; [by apply requests_logged_same |].
  apply requests_logged_trans with (say (PackTitle title) w2);
    [by apply requests_logged_said with (m := PackTitle title) |].
  apply requests_logged_trans with w4;
    [| by apply requests_logged_said with (m := DownloadComplete)].
  eapply requests_logged_trans; [| exact Hloop].
  by apply requests_logged_same.
Qed.

(** *** Responses of the documented shape *)

Lemma is_ok_object d :
  is_ok (JObj d)
  = Ok (truthy (JObj d) && truthy (default JNull (dict_lookup (txt "ok") d))).
Proof. unfold is_ok. by destruct d. Qed.

Lemma sticker_stem_shaped d :
  is_Some (dict_lookup (txt "file_unique_id") d) →
  dict_lookup (txt "emoji") d = None
  ∨ (∃ e, dict_lookup (txt "emoji") d = Some (JStr e)) →
  ∃ stem, sticker_stem (JObj d) = Ok stem.
Proof.
  intros [uid Hid] Hemoji. unfold sticker_stem, py_getitem, py_get.
  rewrite Hid. destruct Hemoji as [-> | [e ->]]; by eexists.
Qed.

(** A conversion that fails is logged, when the message of its error is
    valid markup. *)
Lemma convert_failure_logged webp_path png_path w :
  (∀ e, markup_error E (length (console w)) (ConvertError e) = false) →
  ∃ w', _convert_webp_to_png E webp_path png_path w = (Ok (), w')
    ∧ (converts E webp_path png_path w = false →
       ∃ e, console w' = console w ++ [ConvertError e]).
Proof.
  intros Hm. rewrite convert_run. cbv zeta. unfold converts.
  destruct (unreadable E webp_path); cbn [negb andb];
    [rewrite print_rendered by apply Hm; by eauto |].
  destruct (files w !! webp_path) as [source |];
    [| rewrite print_rendered by apply Hm; by eauto].
  destruct (reencode_png E source) as [image |];
    [| rewrite print_rendered by apply Hm; by eauto].
  destruct (unwritable E png_path);
    [rewrite print_rendered by apply Hm; by eauto |].
  destruct (unremovable E webp_path); [| by eexists].
  rewrite print_rendered by apply Hm. by eauto.
Qed.

Section Shaped.
Hypothesis requests_fail_as_requests :
  ∀ n endpoint param e,
    api_response E n endpoint param = Raise e → is_RequestException e = true.
Hypothesis file_infos_shaped :
  ∀ n param v,
    api_response E n (txt "getFile") param = Ok v → file_info_shaped v.
Hypothesis streams_accepted :
  ∀ n file_path save_path,
    stream_accepted E (stream_response E n file_path) save_path = true.
Hypothesis rendered : renders E.

Lemma request_returns_shaped endpoint param w :
  request_returns E endpoint param w = true.
Proof.
  unfold request_returns.
  destruct (api_response E _ _ _) as [answer | e] eqn:He; [done |].
  by rewrite (requests_fail_as_requests _ _ _ _ He), rendered.
Qed.

Lemma process_sticker_ok pack_folder sticker w :
  sticker_shaped sticker →
  ∃ w', process_sticker E pack_folder sticker w = (Ok (), w').
Proof.
  intros (d & -> & [file_id Hid] & Huid & Hemoji).
  destruct (sticker_stem_shaped d Huid Hemoji) as [stem Hstem].
  assert (py_getitem (JObj d) (txt "file_id") = Ok file_id) as Hget
    by (unfold py_getitem; by rewrite Hid).
  destruct (make_api_request_ok (txt "getFile") (txt "file_id", file_id) w
              (request_returns_shaped _ _ _)) as (file_info & w1 & Hinfo).
  fold (_get_file_info E file_id) in Hinfo.
  destruct (get_file_info_inv _ _ _ _ _ Hget Hinfo) as (-> & _).
  unfold process_sticker.
  unfold mbind at 1, M_bind at 1, lift at 1. rewrite Hget.
  unfold mbind at 1, M_bind at 1. rewrite Hinfo.
  assert (file_info_shaped (file_info_for E (JObj d) w)) as Hshape.
  { unfold file_info_for. rewrite Hget.
    destruct (api_response E _ _ _) as [v |] eqn:Hv; [| by left].
    by eapply file_infos_shaped. }
  unfold mbind at 1, M_bind at 1, lift at 1.
  destruct Hshape as [Hfail | (d' & r & p & Heq & Hr & Hp)].
  - rewrite (is_ok_failed _ Hfail). by eexists.
  - rewrite Heq, is_ok_object.
    destruct (truthy (JObj d') && _); [| by eexists].
    destruct (fetch_sticker_ok pack_folder (JObj d) (JObj d') (JObj r) p
                stem w1) as (w2 & Hrun); try done.
    + unfold py_getitem. by rewrite Hr.
    + unfold py_getitem. by rewrite Hp.
    + unfold mbind at 1, M_bind at 1. rewrite Hrun. by eexists.
Qed.

Lemma for_each_sticker_ok pack_folder stickers w :
  Forall sticker_shaped stickers →
  ∃ w', for_each stickers (process_sticker E pack_folder) w = (Ok (), w').
Proof.
  intros Hall. revert w.
  induction Hall as [| sticker stickers Hs _ IH]; intros w; [by eexists |].
  destruct (process_sticker_ok pack_folder sticker w Hs) as [w1 Hrun].
  destruct (IH w1) as [w2 Hrest]. exists w2.
  cbn [for_each]. by rewrite (bind_ok _ _ _ _ _ Hrun).
Qed.

Lemma download_sticker_pack_ok link output_folder w :
  pack_shaped
    (api_response E (S (length (calls w))) (txt "getStickerSet")
       (txt "name", JStr (last_segment link))) →
  (makedirs E (path_join output_folder (last_segment link)) w).1 = Ok () →
  ∃ w', download_sticker_pack E link output_folder w = (Ok (), w').
Proof.
  intros Hpack Hdir.
  destruct (decide (fetch_failed
              (api_response E (S (length (calls w))) (txt "getStickerSet")
                 (txt "name", JStr (last_segment link))) = true))
    as [Hfail | Hok].
  { eexists. apply pack_unavailable_run; [| intros; by apply rendered].
    cbn [log_call calls]. by rewrite length_app, Nat.add_1_r. }
  destruct Hpack
    as [Hfail | (d & r & title & stickers & Hresp & Hr & Ht & Hm & Hs & Hall)];
    [done |].
  unfold download_sticker_pack, _get_sticker_set.
  unfold mbind at 1, M_bind at 1. rewrite make_api_request_run.
  cbv zeta. cbn [log_call calls]. rewrite length_app, Nat.add_1_r.
  rewrite Hresp in *.
  unfold mbind at 1, M_bind at 1, lift at 1. rewrite is_ok_object.
  cbn [fetch_failed] in Hok. apply not_true_is_false, negb_false_iff in Hok.
  rewrite Hok, andb_true_r.
  destruct d as [| kv d]; [done |]. cbn [truthy negb].
  unfold mbind at 1, M_bind at 1.
  match goal with
  | |- context [makedirs E ?p ?w1] =>
      pose proof (makedirs_outcome p w w1 eq_refl eq_refl) as Hsame;
      rewrite Hdir in Hsame;
      destruct (makedirs E p w1) as [made w2] eqn:Hmk
  end.
  cbn [fst] in Hsame. subst made.
  unfold py_getitem.
  unfold mbind at 1, M_bind at 1, lift at 1. rewrite Hr.
  unfold mbind at 1, M_bind at 1, lift at 1. rewrite Ht.
  unfold mbind at 1, M_bind at 1. rewrite print_rendered by exact Hm.
  unfold mbind at 1, M_bind at 1, lift at 1.
  unfold mbind at 1, M_bind at 1, lift at 1. rewrite Hs.
  cbn [py_len py_iter]. run.
  match goal with
  | |- context [for_each stickers ?body ?w0] =>
      destruct (for_each_sticker_ok
                  (path_join output_folder (last_segment link)) stickers w0 Hall)
        as [w3 Hloop]
  end.
  rewrite Hloop. by eexists.
Qed.


End Shaped.

(** C6, as amended: the converter removes the source exactly when every
    step succeeds: the source is read, is re-encoded, the destination is
    written and the removal itself succeeds.  Then the source is removed
    after the destination holds the image, nothing is printed and the call
    returns.  When a step fails, a source that is not the destination is
    left as it was, and the call prints the error and returns, when the
    message of the error is valid markup. *)
Theorem convert_removes_source_iff webp_path png_path w :
  let w' := (_convert_webp_to_png E webp_path png_path w).2 in
  calls w' = calls w ++ [convert_webp_to_png_call webp_path png_path]
  ∧ (converts E webp_path png_path w = true →
     ∃ source image,
       files w !! webp_path = Some source
       ∧ reencode_png E source = Some image
       ∧ _convert_webp_to_png E webp_path png_path w = (Ok (), w')
       ∧ files w' = delete webp_path (<[png_path := image]> (files w))
       ∧ console w' = console w)
  ∧ (converts E webp_path png_path w = false →
     (webp_path ≠ png_path → files w' !! webp_path = files w !! webp_path)
     ∧ ((∀ e, markup_error E (length (console w)) (ConvertError e) = false) →
        ∃ e, _convert_webp_to_png E webp_path png_path w = (Ok (), w')
             ∧ console w' = console w ++ [ConvertError e]))
  ∧ (is_Some (files w !! webp_path) →
     files w' !! webp_path = None ↔ converts E webp_path png_path w = true).
Proof.
  cbv zeta. rewrite convert_run. cbv zeta. unfold converts.
  assert (∀ e w1,
            calls w1 = calls w ++ [convert_webp_to_png_call webp_path png_path] →
            console w1 = console w →
            calls (print E (ConvertError e) w1).2
            = calls w ++ [convert_webp_to_png_call webp_path png_path]
            ∧ files (print E (ConvertError e) w1).2 = files w1
            ∧ ((∀ e, markup_error E (length (console w)) (ConvertError e) = false) →
               ∃ e', print E (ConvertError e) w1
                     = (Ok (), (print E (ConvertError e) w1).2)
                     ∧ console (print E (ConvertError e) w1).2
                       = console w ++ [ConvertError e'])) as Hprint.
  { intros e w1 Hc Ho. rewrite print_run.
    destruct (markup_error _ _ _) eqn:Hm; cbn [fst snd say calls files console]; rewrite ?Hc, ?Ho.
    - repeat split. intros Hr. rewrite Ho, (Hr e) in Hm. done.
    - repeat split. intros _. by eexists. }
  destruct (unreadable E webp_path) eqn:Hrd; cbn [negb andb].
  { destruct (Hprint OSError
                (log_call (convert_webp_to_png_call webp_path png_path) w)
                eq_refl eq_refl) as (Hc & Hf & Hlog).
    rewrite Hc, Hf. cbn [log_call files].
    repeat split; try done. intros Hnone.
    match goal with Hsome : is_Some _ |- _ => destruct Hsome as [source Hsrc] end.
    by rewrite Hsrc in Hnone. }
  destruct (files w !! webp_path) as [source |] eqn:Hsrc.
  - destruct (reencode_png E source) as [image |] eqn:Himg.
    + destruct (unwritable E png_path) eqn:Hdst.
      * destruct (Hprint OSError
                    (log_call (convert_webp_to_png_call webp_path png_path) w)
                    eq_refl eq_refl) as (Hc & Hf & Hlog).
        rewrite Hc, Hf. cbn [negb andb log_call files].
        repeat split; try done; try by intros [? ?].
        by rewrite Hsrc.
      * destruct (unremovable E webp_path) eqn:Hrm.
        -- destruct (Hprint OSError
                       (with_files (<[png_path := image]> (files w))
                          (log_call (convert_webp_to_png_call webp_path png_path) w))
                       eq_refl eq_refl) as (Hc & Hf & Hlog).
           rewrite Hc, Hf. cbn [negb andb with_files files].
           repeat split; try done.
           ++ intros Hne. by rewrite lookup_insert_ne.
           ++ intros Hnone.
              destruct (decide (png_path = webp_path)) as [-> | Hne].
              ** by rewrite lookup_insert_eq in Hnone.
              ** rewrite lookup_insert_ne, Hsrc in Hnone by done. done.
        -- cbn [negb andb snd with_files files log_call calls console].
           repeat split; try done.
           ++ intros _. by exists source, image.
           ++ by rewrite lookup_delete_eq.
    + destruct (Hprint UnidentifiedImageError
                  (log_call (convert_webp_to_png_call webp_path png_path) w)
                  eq_refl eq_refl) as (Hc & Hf & Hlog).
      rewrite Hc, Hf. cbn [log_call files].
      repeat split; try done. by rewrite Hsrc.
  - destruct (Hprint OSError
                (log_call (convert_webp_to_png_call webp_path png_path) w)
                eq_refl eq_refl) as (Hc & Hf & Hlog).
    rewrite Hc, Hf. cbn [log_call files].
    repeat split; try done; by intros [? ?].
Qed.

End Downloader.

(** ** The downloader on the example pack *)

Lemma pack_fetch_failure_witness :
  let E := Example.service (Some Example.not_ok) Example.three_bytes in
  let w := Example.empty_world in
  let request :=
    make_api_request_call (txt "getStickerSet")
      (txt "name", JStr (last_segment Example.link)) in
  ∃ w', download_sticker_pack E Example.link OUTPUT_FOLDER w = (Ok (), w')
        ∧ last (console w') = Some PackUnavailable
        ∧ dirs w' = dirs w ∧ files w' = files w
        ∧ download_task w' = download_task w
        ∧ convert_task w' = convert_task w
        ∧ calls w' = calls w ++ [request].
Proof.
  apply (pack_fetch_failure
           (Example.service (Some Example.not_ok) Example.three_bytes)
           Example.link OUTPUT_FOLDER Example.empty_world).
  - vm_compute. reflexivity.
  - intros e He. reflexivity.
Defined.

(** C3 on the sticker [BBB], stored as [.tgs]: the converter is not called
    and the convert counter is advanced. *)
Lemma convert_counter_advances_for_tgs :
  let E := Example.service None Example.three_bytes in
  let w' := (process_sticker E Example.pack_folder Example.stickerB
               Example.empty_world).2 in
  is_webp (file_extension_of (file_info_for E Example.stickerB Example.empty_world))
  = false
  ∧ convert_calls (calls w') = 0%nat
  ∧ completed (convert_task Example.empty_world) = 0%nat
  ∧ completed (convert_task w') = 1%nat.
Proof. repeat split; vm_compute; reflexivity. Qed.

Lemma convert_counter_advance_witness :
  let E := Example.service None Example.three_bytes in
  let w := Example.empty_world in
  let w' := (process_sticker E Example.pack_folder Example.stickerA w).2 in
  let file_info := file_info_for E Example.stickerA w in
  completed (convert_task w')
  = (completed (convert_task w)
     + if lookup_succeeded file_info then 1 else 0)%nat
  ∧ convert_calls (calls w')
    = (convert_calls (calls w)
       + if lookup_succeeded file_info && is_webp (file_extension_of file_info)
         then 1 else 0)%nat.
Proof.
  apply (convert_counter_advance
           (Example.service None Example.three_bytes)
           Example.pack_folder Example.stickerA Example.empty_world).
  vm_compute. reflexivity.
Defined.

(** C6 on a disk on which the source cannot be removed: the source opens
    and is re-encoded and the destination is written, and the source is
    still there; the failed removal is printed. *)
Lemma failed_removal_keeps_source :
  let E := Example.locked None Example.three_bytes in
  let webp_path := txt "stickers/UtyaTheDuck/AAA_.webp" in
  let png_path := txt "stickers/UtyaTheDuck/AAA_.png" in
  let w := Example.with_file webp_path [1; 2; 3] in
  let run := _convert_webp_to_png E webp_path png_path w in
  files w !! webp_path = Some [1; 2; 3]
  ∧ reencode_png E [1; 2; 3] = Some [80; 78; 71; 1; 2; 3]
  ∧ unwritable E png_path = false
  ∧ run.1 = Ok ()
  ∧ files run.2 !! png_path = Some [80; 78; 71; 1; 2; 3]
  ∧ files run.2 !! webp_path = Some [1; 2; 3]
  ∧ console run.2 = [ConvertError OSError].
Proof. repeat split; vm_compute; reflexivity. Qed.

(** C7 on the example pack: two stickers, three bytes each.  The loop leaves
    the download task at eight completed units of three, because
    [_download_file] updates the same task with sizes in bytes. *)
Theorem download_counter_counts_bytes :
  let E := Example.service
             (Some (Example.pack_of [Example.stickerA; Example.stickerB]))
             Example.three_bytes in
  let run := download_sticker_pack E Example.link OUTPUT_FOLDER Example.empty_world in
  run.1 = Ok ()
  ∧ length [Example.stickerA; Example.stickerB] = 2%nat
  ∧ download_task run.2 = {| total := 3; completed := 8 |}
  ∧ convert_task run.2 = {| total := 2; completed := 2 |}.
Proof. repeat split; vm_compute; reflexivity. Qed.


(** A title that closes a tag that was not opened: the [print] of line 120
    raises a [MarkupError], after the directories were created. *)
Lemma closing_tag_in_title_raises :
  let E := Example.service (Some Example.cats) Example.three_bytes in
  let run := download_sticker_pack E Example.link OUTPUT_FOLDER Example.empty_world in
  run.1 = Raise MarkupError
  ∧ dirs run.2 = {[ txt "stickers"; Example.pack_folder ]}
  ∧ console run.2 = [].
Proof. repeat split; vm_compute; reflexivity. Qed.

(** A source that is not there and whose name closes a tag that was not
    opened: the [print] of line 102 raises a [MarkupError] out of the
    converter, and nothing is printed. *)
Lemma closing_tag_in_path_raises :
  let E := Example.bracketed None Example.three_bytes in
  let run := _convert_webp_to_png E (txt "[/b].webp") (txt "x.png")
               Example.empty_world in
  run.1 = Raise MarkupError ∧ console run.2 = [] ∧ files run.2 = ∅.
Proof. repeat split; vm_compute; reflexivity. Qed.



(** ** More on the helpers of the downloader *)
Section Helpers.
Context `{Python} (E : env).

(** X1: [_make_api_request] catches the request exceptions and nothing
    else.  It returns the body of the response and prints nothing; or, when
    the request raises a [RequestException], prints the error and returns
    [None]; an exception of another class leaves it, and so does the
    [MarkupError] of an error message that is no valid markup.  In every
    case it records one call and leaves the files, the directories and the
    progress tasks alone. *)
Theorem api_request_outcomes endpoint param w :
  let run := _make_api_request E endpoint param w in
  calls run.2 = calls w ++ [make_api_request_call endpoint param]
  ∧ files run.2 = files w ∧ dirs run.2 = dirs w
  ∧ download_task run.2 = download_task w
  ∧ convert_task run.2 = convert_task w
  ∧ match api_response E (S (length (calls w))) endpoint param with
    | Ok answer => run.1 = Ok answer ∧ console run.2 = console w
    | Raise e =>
        if is_RequestException e then
          if markup_error E (length (console w)) ApiRequestError
          then run.1 = Raise MarkupError ∧ console run.2 = console w
          else run.1 = Ok JNull ∧ console run.2 = console w ++ [ApiRequestError]
        else run.1 = Raise e ∧ console run.2 = console w
    end.
Proof.
  cbv zeta. rewrite make_api_request_run. cbv zeta. cbn [log_call calls].
  rewrite length_app, Nat.add_1_r.
  destruct (api_response E _ endpoint param) as [answer | e]; [done |].
  destruct (is_RequestException e); [| done].
  by destruct (markup_error E _ _).
Qed.


(** X3: [_download_file] changes no file when the request is refused (it
    prints the error, a valid markup, and returns), when the
    [content-length] header is not a number (a [ValueError] leaves it) and
    when the file cannot be opened (an [OSError] leaves it); in the last two
    cases nothing is printed. *)
Theorem download_file_leaves_files file_path save_path w :
  let s := stream_response E (S (length (calls w))) file_path in
  (s = Refused →
   markup_error E (length (console w)) DownloadError = false →
   ∃ w', _download_file E file_path save_path w = (Ok (), w')
         ∧ files w' = files w ∧ console w' = console w ++ [DownloadError])
  ∧ (∀ chunks broken, s = Body BadHeader chunks broken →
     ∃ w', _download_file E file_path save_path w = (Raise ValueError, w')
           ∧ files w' = files w ∧ console w' = console w)
  ∧ (∀ header chunks broken, s = Body header chunks broken →
     header ≠ BadHeader → unwritable E save_path = true →
     ∃ w', _download_file E file_path save_path w = (Raise OSError, w')
           ∧ files w' = files w ∧ console w' = console w).
Proof.
  intros s. subst s. rewrite download_file_run. cbv zeta.
  cbn [log_call calls]. rewrite length_app, Nat.add_1_r.
  split; [| split].
  - intros -> Hm. rewrite print_rendered by done. by eexists.
  - intros chunks broken ->. by eexists.
  - intros header chunks broken -> Hh ->.
    assert (∀ T (a b : T), match header with BadHeader => a | _ => b end = b)
      as -> by (by destruct header).
    by eexists.
Qed.

Lemma download_file_body file_path save_path w header chunks :
  stream_response E (S (length (calls w))) file_path = Body header chunks false →
  header ≠ BadHeader →
  unwritable E save_path = false →
  ∃ w', _download_file E file_path save_path w = (Ok (), w')
    ∧ files w' = <[save_path := concat chunks]> (files w)
    ∧ console w' = console w
    ∧ calls w' = calls w ++ [download_file_call file_path save_path]
    ∧ dirs w' = dirs w ∧ convert_task w' = convert_task w.
Proof.
  intros Hs Hh Hw.
  destruct (download_file_ok E file_path save_path w) as [w' Hrun].
  - rewrite Hs. cbn. destruct header; [| | done]; by rewrite Hw.
  - by rewrite Hs.
  - exists w'. split; [done |].
    apply download_file_inv in Hrun as (_ & Hc & Ho & Hv & Hd & _ & Hf).
    rewrite Hs in Ho, Hf. cbn in Ho. by rewrite Hc, Ho, Hv, Hd, Hf, app_nil_r.
Qed.

(** X4: a sticker stored as [.webp] whose download arrives whole and whose
    image is converted ends as the PNG alone: the downloaded file is written,
    the PNG is written beside it and the downloaded file is removed; nothing
    is printed. *)
Theorem converted_sticker_leaves_png
    pack_folder sticker file_info result file_path stem w header chunks image :
  py_getitem file_info (txt "result") = Ok result →
  py_getitem result (txt "file_path") = Ok (JStr file_path) →
  sticker_stem sticker = Ok stem →
  let file_extension := (splitext file_path).2 in
  let webp_save_path := path_join pack_folder (stem ++ file_extension) in
  let png_save_path := path_join pack_folder (stem ++ txt ".png") in
  is_webp file_extension = true →
  stream_response E (S (length (calls w))) file_path = Body header chunks false →
  header ≠ BadHeader →
  unwritable E webp_save_path = false → unwritable E png_save_path = false →
  reencode_png E (concat chunks) = Some image →
  unreadable E webp_save_path = false →
  unremovable E webp_save_path = false →
  ∃ w', fetch_sticker E pack_folder sticker file_info w = (Ok (), w')
    ∧ files w'
      = delete webp_save_path
          (<[png_save_path := image]>
             (<[webp_save_path := concat chunks]> (files w)))
    ∧ console w' = console w
    ∧ (webp_save_path ≠ png_save_path →
       files w' !! png_save_path = Some image
       ∧ files w' !! webp_save_path = None).
Proof.
  intros Hres Hpath Hstem ext save png Hwebp Hs Hh Hw Hwp Himg Hrd Hrm.
  rewrite (fetch_sticker_run _ _ _ _ _ _ _ _ Hres Hpath Hstem). cbv zeta.
  fold ext. fold save. fold png. rewrite Hwebp.
  destruct (download_file_body file_path save w header chunks Hs Hh Hw)
    as (w1 & Hrun & Hf1 & Ho1 & _).
  unfold mbind at 1, M_bind at 1. rewrite Hrun.
  unfold mbind at 1, M_bind at 1. rewrite convert_run. cbv zeta.
  rewrite Hrd, Hf1, lookup_insert_eq, Himg, Hwp, Hrm.
  eexists. split; [reflexivity |]. cbn. rewrite Ho1.
  split; [done |]. split; [done |]. intros Hne.
  rewrite lookup_delete_ne, lookup_insert_eq, lookup_delete_eq by done. done.
Qed.

(** X5: a sticker that is not stored as [.webp] and whose download arrives
    whole is kept as it was downloaded: the file holds the chunks, the
    converter is not called and nothing is printed. *)
Theorem other_sticker_is_kept
    pack_folder sticker file_info result file_path stem w header chunks :
  py_getitem file_info (txt "result") = Ok result →
  py_getitem result (txt "file_path") = Ok (JStr file_path) →
  sticker_stem sticker = Ok stem →
  let file_extension := (splitext file_path).2 in
  let save_path := path_join pack_folder (stem ++ file_extension) in
  is_webp file_extension = false →
  stream_response E (S (length (calls w))) file_path = Body header chunks false →
  header ≠ BadHeader →
  unwritable E save_path = false →
  ∃ w', fetch_sticker E pack_folder sticker file_info w = (Ok (), w')
    ∧ files w' = <[save_path := concat chunks]> (files w)
    ∧ console w' = console w
    ∧ calls w' = calls w ++ [download_file_call file_path save_path].
Proof.
  intros Hres Hpath Hstem ext save Hwebp Hs Hh Hw.
  rewrite (fetch_sticker_run _ _ _ _ _ _ _ _ Hres Hpath Hstem). cbv zeta.
  fold ext. fold save. rewrite Hwebp.
  destruct (download_file_body file_path save w header chunks Hs Hh Hw)
    as (w1 & Hrun & Hf1 & Ho1 & Hc1 & _).
  unfold mbind at 1, M_bind at 1. rewrite Hrun.
  eexists. split; [reflexivity |]. cbn. by rewrite Hf1, Ho1, Hc1.
Qed.

(** X6: an item whose file-location lookup is answered by absence, by a
    falsy body or by a result that is not ok is skipped without an
    exception: one request is recorded, no file and no directory changes,
    the converter and the convert task are left alone, and the download task
    is advanced by one.  The lookup is answered when its request raises
    nothing but a [RequestException] whose message is valid markup. *)
Theorem failed_lookup_skips_item pack_folder sticker file_id w :
  py_getitem sticker (txt "file_id") = Ok file_id →
  request_returns E (txt "getFile") (txt "file_id", file_id) w = true →
  is_ok (file_info_for E sticker w) = Ok false →
  ∃ w', process_sticker E pack_folder sticker w = (Ok (), w')
    ∧ calls w'
      = calls w ++ [make_api_request_call (txt "getFile") (txt "file_id", file_id)]
    ∧ files w' = files w ∧ dirs w' = dirs w
    ∧ convert_task w' = convert_task w
    ∧ download_task w' = advance 1 (download_task w).
Proof.
  intros Hid Hret Hok. unfold process_sticker.
  unfold mbind at 1, M_bind at 1, lift at 1. rewrite Hid.
  destruct (make_api_request_ok E _ _ _ Hret) as (file_info & w1 & Hinfo).
  fold (_get_file_info E file_id) in Hinfo.
  destruct (get_file_info_inv E _ _ _ _ _ Hid Hinfo) as (-> & _).
  unfold mbind at 1, M_bind at 1. rewrite Hinfo.
  unfold mbind at 1, M_bind at 1, lift at 1. rewrite Hok.
  apply make_api_request_inv in Hinfo as (Hc & Hf & Hd & Hn & Hv & _).
  eexists. split; [reflexivity |]. cbn. by rewrite Hc, Hf, Hd, Hn, Hv.
Qed.

(** *** The loop over the stickers *)

Lemma requested_files_app cs cs' :
  requested_files (cs ++ cs') = requested_files cs ++ requested_files cs'.
Proof.
  induction cs as [| c cs IH]; [done |]. cbn [app requested_files].
  destruct c as [endpoint [key id] | |]; [| done | done].
  destruct (text_eqb endpoint (txt "getFile")); by rewrite IH.
Qed.

Lemma process_sticker_requests pack_folder sticker w w' :
  process_sticker E pack_folder sticker w = (Ok (), w') →
  ∃ file_id,
    py_getitem sticker (txt "file_id") = Ok file_id
    ∧ requested_files (calls w') = requested_files (calls w) ++ [file_id].
Proof.
  intros Hrun.
  apply process_sticker_inv in Hrun
    as (file_id & w1 & w2 & Hid & Hinfo & _ & Hfetch & ->).
  exists file_id. split; [done |].
  destruct (get_file_info_inv E _ _ _ _ _ Hid Hinfo) as (_ & Hc1 & _).
  assert (requested_files (calls w1) = requested_files (calls w) ++ [file_id])
    as Hreq by (by rewrite Hc1, requested_files_app).
  cbn. destruct (lookup_succeeded _); [| by subst w2].
  destruct (fetch_sticker_lookups E _ _ _ _ _ Hfetch)
    as (result & file_path & stem & Hres & Hpath & Hstem).
  destruct (fetch_sticker_inv E _ _ _ _ _ _ _ _ Hres Hpath Hstem Hfetch)
    as (_ & Hc2 & _).
  rewrite Hc2, requested_files_app, Hreq.
  destruct (is_webp _); cbn; by rewrite app_nil_r.
Qed.

(** X7: a loop over the stickers that runs to its end has looked up every
    sticker once, in the order of the pack, under the sticker's [file_id],
    whatever lookups, downloads or conversions failed on the way. *)
Theorem every_sticker_is_looked_up pack_folder stickers w w' :
  for_each stickers (process_sticker E pack_folder) w = (Ok (), w') →
  ∃ file_ids,
    Forall2 (λ sticker file_id, py_getitem sticker (txt "file_id") = Ok file_id)
      stickers file_ids
    ∧ requested_files (calls w') = requested_files (calls w) ++ file_ids.
Proof.
  revert w. induction stickers as [| sticker stickers IH]; intros w.
  - intros [= <-]. exists []. split; [constructor | by rewrite app_nil_r].
  - cbn [for_each]. intros Hrun.
    apply bind_inv in Hrun as ([] & w1 & Hitem & Hrest).
    destruct (process_sticker_requests _ _ _ _ Hitem) as (file_id & Hid & Hreq).
    destruct (IH w1 Hrest) as (file_ids & Hall & Hreqs).
    exists (file_id :: file_ids). split; [by constructor |].
    by rewrite Hreqs, Hreq, <- app_assoc.
Qed.

Lemma for_each_sticker_counts pack_folder stickers w w' :
  for_each stickers (process_sticker E pack_folder) w = (Ok (), w') →
  (completed (convert_task w')
   ≤ completed (convert_task w) + length stickers)%nat
  ∧ (completed (download_task w) + length stickers
     ≤ completed (download_task w'))%nat
  ∧ total (convert_task w') = total (convert_task w)
  ∧ dirs w' = dirs w.
Proof.
  revert w. induction stickers as [| sticker stickers IH]; intros w.
  - intros [= <-]. cbn. repeat split; lia.
  - cbn [for_each]. intros Hrun.
    apply bind_inv in Hrun as ([] & w1 & Hitem & Hrest).
    destruct (process_sticker_counts E _ _ _ _ Hitem) as (Hv & _ & Hn & Ht & Hd).
    destruct (IH w1 Hrest) as (Hv' & Hn' & Ht' & Hd'). cbv zeta in *.
    rewrite Ht', Ht, Hd', Hd. cbn [length].
    repeat split; try done.
    + destruct (lookup_succeeded _); lia.
    + destruct (lookup_succeeded _); lia.
Qed.

(** X8: a loop over the stickers that runs to its end advances the convert
    counter by at most one unit a sticker and the download counter by at
    least one unit a sticker; it keeps the total of the convert task and
    creates no directory. *)
Theorem loop_counters pack_folder stickers w w' :
  for_each stickers (process_sticker E pack_folder) w = (Ok (), w') →
  (completed (convert_task w')
   ≤ completed (convert_task w) + length stickers)%nat
  ∧ (completed (download_task w) + length stickers
     ≤ completed (download_task w'))%nat
  ∧ total (convert_task w') = total (convert_task w)
  ∧ dirs w' = dirs w.
Proof. apply for_each_sticker_counts. Qed.

Lemma len_iter stickers n items :
  py_len stickers = Ok n → py_iter stickers = Ok items → length items = n.
Proof.
  destruct stickers; try done; cbn; intros [= <-] [= <-];
    by rewrite ?length_map.
Qed.

(** The directories after [os.makedirs] has returned. *)
Lemma ensure_dirs_made present made places made' :
  ensure_dirs E present made places = (Ok (), made') →
  made' = list_to_set places ∪ made.
Proof.
  revert made. induction places as [| place places IH]; intros made.
  - cbn. intros [= <-]. apply set_eq. intros x.
    rewrite elem_of_union, elem_of_empty. tauto.
  - cbn [ensure_dirs list_to_set].
    destruct (bool_decide (place ∈ made)) eqn:Hin.
    + apply bool_decide_eq_true in Hin. intros ->%IH.
      apply set_eq. intros x.
      rewrite !elem_of_union, elem_of_singleton.
      split; [tauto | intros [[-> | ?] | ?]; tauto].
    + destruct (_ || _); [done |]. intros ->%IH.
      apply set_eq. intros x.
      rewrite !elem_of_union, elem_of_singleton. tauto.
Qed.

Lemma makedirs_made path w w' :
  makedirs E path w = (Ok (), w') →
  dirs w' = list_to_set (makedirs_places path) ∪ dirs w.
Proof.
  unfold makedirs. destruct (text_eqb path []); [done |].
  destruct (ensure_dirs _ _ _ _) as [r made] eqn:Hmade.
  intros [= -> <-]. by apply ensure_dirs_made in Hmade.
Qed.

(** X9: a call of [download_sticker_pack] that returns has ended in one of
    two ways.  Either it printed that the pack could not be retrieved, and
    then no file and no directory changed; or it printed the completion
    message, and then the directories are those that were there and those
    that lead to the pack folder, the pack folder included, and the convert
    task, whose total is the number of stickers, is not advanced beyond its
    total. *)
Theorem download_ends_in_two_ways link output_folder w w' :
  download_sticker_pack E link output_folder w = (Ok (), w') →
  (last (console w') = Some PackUnavailable
   ∧ files w' = files w ∧ dirs w' = dirs w)
  ∨ (last (console w') = Some DownloadComplete
     ∧ dirs w'
       = list_to_set (makedirs_places (path_join output_folder (last_segment link)))
         ∪ dirs w
     ∧ (completed (convert_task w') ≤ total (convert_task w'))%nat).
Proof.
  intros Hrun.
  apply download_sticker_pack_inv in Hrun
    as (pack_info & w1 & Hget & Hrest).
  apply make_api_request_inv in Hget as (_ & Hf1 & Hd1 & _).
  destruct Hrest as [[_ ->]
    | (w2 & title & stickers & n & items & w3 & w4
       & _ & Hmk & Hp & Hn & Hit & Hloop & ->)].
  { left. cbn. by rewrite last_snoc. }
  right. apply makedirs_made in Hmk. apply print_inv in Hp. subst w3.
  destruct (for_each_sticker_counts _ _ _ _ Hloop) as (Hv & _ & Htot & Hd).
  cbn in Hv, Htot, Hd. cbn.
  rewrite last_snoc, Hd, Hmk, Hd1, Htot. rewrite (len_iter _ _ _ Hn Hit) in Hv.
  by repeat split.
Qed.

End Helpers.

(** ** The pack folder *)

Lemma rfind_None c p : rfind c p = None → c ∉ p.
Proof.
  induction p as [| x p IH]; [intros _; apply not_elem_of_nil |]. cbn.
  destruct (rfind c p); [done |].
  destruct (N.eqb_spec x c) as [| Hne]; [done |]. intros _.
  apply not_elem_of_cons. split; [done | by apply IH].
Qed.

Lemma not_elem_of_rfind c p : c ∉ p → rfind c p = None.
Proof.
  induction p as [| x p IH]; [done |]. intros Hin.
  apply not_elem_of_cons in Hin as [Hne Hin]. cbn. rewrite IH by done.
  destruct (N.eqb_spec x c); [congruence | done].
Qed.

Lemma rfind_drop c p i : rfind c p = Some i → c ∉ drop (S i) p.
Proof.
  revert i. induction p as [| x p IH]; intros i; [done |]. cbn [rfind].
  destruct (rfind c p) as [j |] eqn:Hp.
  - intros [= <-]. by apply IH.
  - destruct (x =? c); [| done]. intros [= <-]. by apply rfind_None.
Qed.

Lemma rfind_last c a b : c ∉ b → rfind c (a ++ c :: b) = Some (length a).
Proof.
  intros Hb. induction a as [| x a IH].
  - cbn. by rewrite not_elem_of_rfind, N.eqb_refl.
  - cbn. by rewrite IH.
Qed.

Lemma path_join_relative a c b :
  c ≠ 47 →
  path_join a (c :: b)
  = match a with
    | [] => c :: b
    | _ => if bool_decide (last a = Some 47) then a ++ c :: b else a ++ 47 :: c :: b
    end.
Proof.
  intros Hc. unfold path_join.
  destruct c as [| p]; [done |].
  do 6 (try destruct p as [p | p |]; try done).
Qed.

Lemma split_slash_plain name : 47 ∉ name → split_slash name = [name].
Proof.
  induction name as [| c name IH]; [done |]. intros Hin.
  apply not_elem_of_cons in Hin as [Hc Hin]. cbn [split_slash].
  destruct (N.eqb_spec c 47); [congruence |]. by rewrite IH.
Qed.

Lemma split_slash_app a b :
  47 ∉ a → split_slash (a ++ 47 :: b) = a :: split_slash b.
Proof.
  induction a as [| c a IH]; [done |]. intros Hin.
  apply not_elem_of_cons in Hin as [Hc Hin]. cbn [app split_slash].
  destruct (N.eqb_spec c 47); [congruence |]. by rewrite IH.
Qed.

(** X10: the pack name taken from a link holds no slash, whatever the link
    is, and the pack folder is the path [stickers/] followed by that name.
    Unless the name is empty, [.] or [..], the directories that
    [os.makedirs] needs for it are [stickers] and the pack folder: the pack
    folder is an entry of the output folder. *)
Theorem pack_folder_is_entry_of_stickers link :
  let name := last_segment link in
  let pack_folder := path_join OUTPUT_FOLDER name in
  (47 ∉ name)
  ∧ pack_folder = txt "stickers/" ++ name
  ∧ (name ≠ [] → name ≠ txt "." → name ≠ txt ".." →
     makedirs_places pack_folder = [txt "stickers"; pack_folder]).
Proof.
  cbv zeta.
  assert (47 ∉ last_segment link) as Hno.
  { unfold last_segment. destruct (rfind 47 link) as [i |] eqn:Hi.
    - by apply rfind_drop.
    - by apply rfind_None. }
  assert (path_join OUTPUT_FOLDER (last_segment link)
          = txt "stickers/" ++ last_segment link) as ->.
  { destruct (last_segment link) as [| c name]; [done |].
    apply not_elem_of_cons in Hno as [Hc _].
    by rewrite path_join_relative. }
  split; [done |]. split; [done |]. intros Hempty Hdot Hdots.
  unfold makedirs_places.
  change (txt "stickers/" ++ last_segment link)
    with (txt "stickers" ++ 47 :: last_segment link).
  rewrite split_slash_app, split_slash_plain; [| done |]; cycle 1.
  { vm_compute. intros Hin.
    by repeat (apply elem_of_cons in Hin as [? | Hin]; [done |]); inversion Hin. }
  change (match txt "stickers" ++ 47 :: last_segment link with
          | 47 :: _ => true
          | _ => false
          end) with false.
  cbn [places_from].
  change (walk false [] (txt "stickers")) with [txt "stickers"].
  change (creatable [txt "stickers"]) with true. cbv iota.
  change (place_path false [txt "stickers"]) with (txt "stickers").
  unfold walk, creatable, text_eqb. rewrite !bool_decide_false by done.
  cbn [orb negb]. unfold place_path. cbn [reverse rev_append app flat_map].
  rewrite bool_decide_false by done. cbn [negb app]. by rewrite app_nil_r.
Qed.

(** X11: the pack name of a link is what follows its last slash: a link
    that ends in a slash and a name without slash gives that name. *)
Theorem pack_name_follows_last_slash prefix name :
  47 ∉ name → last_segment (prefix ++ 47 :: name) = name.
Proof.
  intros Hname. unfold last_segment. rewrite rfind_last by done.
  change (prefix ++ 47 :: name) with (prefix ++ [47] ++ name).
  rewrite app_assoc.
  replace (S (length prefix)) with (length (prefix ++ [47]))
    by (rewrite length_app; cbn; lia).
  apply drop_app_length.
Qed.

Lemma pack_name_follows_last_slash_witness :
  last_segment (txt "https://t.me/addstickers" ++ 47 :: txt "UtyaTheDuck")
  = txt "UtyaTheDuck".
Proof.
  apply (pack_name_follows_last_slash (txt "https://t.me/addstickers")).
  vm_compute. intros Hin.
  by repeat (apply elem_of_cons in Hin as [? | Hin]; [done |]); inversion Hin.
Defined.

(** ** The emoji in the file name *)

(** X12: whatever the emoji annotation of a sticker is, the text that goes
    from it into the file name holds alphanumeric characters only; in
    particular no slash, no dot and no underscore. *)
Theorem sanitized_emoji_is_path_safe `{Python} emoji r :
  sanitize emoji = Ok r →
  Forall (λ c, isalnum c = true) r ∧ (47 ∉ r) ∧ (46 ∉ r) ∧ (95 ∉ r).
Proof.
  intros Hr. apply sanitize_alnum in Hr.
  repeat split; [done | | |]; by apply alnum_without.
Qed.

Lemma sanitized_emoji_is_path_safe_witness :
  let r := txt "ab1" in
  Forall (λ c, isalnum c = true) r ∧ (47 ∉ r) ∧ (46 ∉ r) ∧ (95 ∉ r).
Proof.
  apply (sanitized_emoji_is_path_safe (JArr [JStr (txt "ab"); JStr (txt "../"); JStr (txt "1")])).
  vm_compute. reflexivity.
Defined.

(** ** More on the credential store *)
Section Store.
Context `{Python} (E : env).

(** X13: what [load_token] returns or raises when there is a
    configuration file, by its content.  A file that [open] cannot read
    raises [OSError]; one that cannot be decoded raises
    [UnicodeDecodeError]; a text in which [json.load] finds nesting beyond
    the recursion limit, or an integer of too many digits, raises the
    [RecursionError] or [ValueError] of [json.load]; a text that is JSON and
    no object raises [AttributeError]; an object with the field returns the
    value of the field as it is, a string or not.  The world is left as it
    was. *)
Theorem load_token_by_content w content :
  files w !! CONFIG_FILE = Some content →
  (unreadable E CONFIG_FILE = true → load_token E w = (Raise OSError, w))
  ∧ (unreadable E CONFIG_FILE = false →
     (decode content = None → load_token E w = (Raise UnicodeDecodeError, w))
     ∧ ∀ s, read_text content = Ok s →
         (∀ e, Json.loads s = Raise e → e ≠ JSONDecodeError →
               load_token E w = (Raise e, w))
         ∧ (∀ v, Json.loads s = Ok v → (∀ d, v ≠ JObj d) →
                 load_token E w = (Raise AttributeError, w))
         ∧ (∀ d v, Json.loads s = Ok (JObj d) →
                   dict_lookup (txt "bot_token") d = Some v →
                   load_token E w = (Ok v, w))).
Proof.
  intros Hfile. rewrite load_token_run, Hfile.
  split; intros ->; [done |]. split.
  - intros Hd. unfold read_text. by rewrite Hd.
  - intros s ->. split; [| split].
    + intros e -> He. by destruct e.
    + intros v -> Hv. destruct v; try done. by destruct (Hv fields).
    + intros d v -> Hv. unfold py_get. by rewrite Hv.
Qed.


Lemma load_token_absent w :
  unreadable E CONFIG_FILE = false →
  files w !! CONFIG_FILE = None → load_token E w = (Ok JNull, w).
Proof. intros Hr Habs. by rewrite load_token_run, Hr, Habs. Qed.

Lemma load_token_saved token w :
  unreadable E CONFIG_FILE = false →
  valid_text token → no_surrogate_pair token = true →
  let w1 := with_files
              (<[CONFIG_FILE := Json.dumps_singleton (txt "bot_token") token]>
                 (files w)) w in
  load_token E w1 = (Ok (JStr token), w1).
Proof.
  intros Hr Hv Hn. cbv zeta. rewrite load_token_run, Hr. cbn [with_files files].
  rewrite lookup_insert_eq, JsonFacts.read_text_dumps_singleton.
  rewrite JsonFacts.loads_dumps_singleton; try done.
  unfold valid_text. by repeat constructor.
Qed.

End Store.

(** ** The interactive shell *)
Section ShellFacts.
Context `{Python} (E : env).

(** X15: a first start at which nothing has the name of the configuration
    file asks for a token, saves the answer and goes on with it; a later
    start on the world it leaves loads that token without asking.  This
    holds for every answer that is not empty and has no high surrogate
    directly followed by a low one, when the configuration file can be
    written and read. *)
Theorem token_survives_restart answer rest w :
  files w !! CONFIG_FILE = None →
  unreadable E CONFIG_FILE = false →
  unwritable E CONFIG_FILE = false →
  answer ≠ [] → valid_text answer → no_surrogate_pair answer = true →
  ∃ w1, startup E (answer :: rest) w
        = (Done (JStr answer, rest), w1, [NoSavedToken; TokenSaved])
    ∧ ∀ answers, startup E answers w1
                 = (Done (JStr answer, answers), w1, [TokenLoaded]).
Proof.
  intros Hnone Hr Hw Hne Hv Hn. unfold startup.
  rewrite (load_token_absent E w Hr Hnone). cbn [truthy negb].
  unfold save_token. rewrite Hw. run.
  eexists. split; [reflexivity |]. intros answers.
  pose proof (load_token_saved E answer w Hr Hv Hn) as Hload. cbv zeta in Hload.
  unfold with_files in Hload. rewrite Hload. cbn [truthy].
  unfold text_eqb. by rewrite bool_decide_false.
Qed.

(** X16: on a start at which nothing has the name of the configuration
    file, and the file can be written and read, an empty answer to the
    token prompt is saved like any other, and counts as no token at the next
    start, which asks again. *)
Theorem empty_token_is_asked_again rest w :
  files w !! CONFIG_FILE = None →
  unreadable E CONFIG_FILE = false →
  unwritable E CONFIG_FILE = false →
  ∃ w1, startup E ([] :: rest) w
        = (Done (JStr [], rest), w1, [NoSavedToken; TokenSaved])
    ∧ files w1 !! CONFIG_FILE
      = Some (txt "{" ++ 34 :: txt "bot_token" ++ 34 :: txt ": " ++ [34; 34; 125])
    ∧ (∀ answer answers, ∃ w2,
         startup E (answer :: answers) w1
         = (Done (JStr answer, answers), w2, [NoSavedToken; TokenSaved]))
    ∧ startup E [] w1 = (NoInput, w1, [NoSavedToken]).
Proof.
  intros Hnone Hr Hw. unfold startup.
  rewrite (load_token_absent E w Hr Hnone). cbn [truthy negb].
  unfold save_token. rewrite Hw. run.
  eexists. split; [reflexivity |].
  assert (valid_text []) as Hv by constructor.
  pose proof (load_token_saved E [] w Hr Hv eq_refl) as Hload. cbv zeta in Hload.
  unfold with_files in Hload. rewrite Hload. cbn [truthy files].
  split; [by rewrite lookup_insert_eq |].
  split; [| done]. intros answer answers. by eexists.
Qed.

(** X17: the loop reads nothing after the first [quit]: the answers that
    follow it do not matter, whatever the answers before it led to. *)
Theorem nothing_is_read_after_quit before quit after w :
  lower quit = txt "quit" →
  prompt_loop E (before ++ quit :: after) w = prompt_loop E (before ++ [quit]) w.
Proof.
  intros Hquit. revert w.
  induction before as [| link before IH]; intros w.
  - cbn. by rewrite Hquit.
  - cbn [app prompt_loop]. destruct (text_eqb _ _); [done |].
    destruct (download_sticker_pack E link OUTPUT_FOLDER w) as [[[] | e] w'];
      [apply IH | done].
Qed.

Lemma prompt_loop_needs_quit answers w :
  Forall (λ answer, lower answer ≠ txt "quit") answers →
  (prompt_loop E answers w).1 ≠ Done ().
Proof.
  intros Hall. revert w.
  induction Hall as [| link answers Hlink _ IH]; intros w; [done |].
  cbn [prompt_loop]. unfold text_eqb. rewrite bool_decide_false by done.
  destruct (download_sticker_pack E link OUTPUT_FOLDER w) as [[[] | e] w'];
    [apply IH | done].
Qed.

(** X18: [quit] is the only way out of [main] that is no failure: when no
    answer of the operator is [quit] in some case of letters, [main] ends
    with an exception or at the end of the input, whatever token is stored
    and whatever the downloads do. *)
Theorem only_quit_ends_main answers w :
  Forall (λ answer, lower answer ≠ txt "quit") answers →
  (main E answers w).1.1 ≠ Done ().
Proof.
  intros Hall. unfold main, startup.
  destruct (load_token E w) as [[bot_token | e] w1]; [| done].
  destruct (negb (truthy bot_token)).
  - destruct Hall as [| answer rest _ Hrest]; [done |].
    destruct (save_token E answer w1) as [[[] | e] w2]; [| done].
    pose proof (prompt_loop_needs_quit rest w2 Hrest) as Hloop.
    by destruct (prompt_loop E rest w2).
  - pose proof (prompt_loop_needs_quit answers w1 Hall) as Hloop.
    by destruct (prompt_loop E answers w1).
Qed.

(** X19: a download that raises ends the loop: when the downloads of the
    first links return and the download of the next link raises, the loop
    ends with that exception in the world the download left, and the
    answers after that link are not read. *)
Theorem exception_ends_the_loop links link after w w1 e w2 :
  lower link ≠ txt "quit" →
  prompt_loop E links w = (NoInput, w1) →
  download_sticker_pack E link OUTPUT_FOLDER w1 = (Raise e, w2) →
  prompt_loop E (links ++ link :: after) w = (Crash e, w2).
Proof.
  intros Hlink. revert w.
  induction links as [| first links IH]; intros w.
  - cbn. intros [= <-] Hraise.
    unfold text_eqb. by rewrite bool_decide_false, Hraise.
  - cbn [app prompt_loop]. destruct (text_eqb _ _); [done |].
    destruct (download_sticker_pack E first OUTPUT_FOLDER w) as [[[] | e'] w'];
      [| done].
    by apply IH.
Qed.

End ShellFacts.

(** ** What a download leaves alone *)
Section Frame.
Context `{Python} (E : env).

Lemma leaves_lift {A} (r : outcome A) : leaves_plain_paths (lift r).
Proof. by intros w path _. Qed.

Lemma leaves_modify (f : world → world) :
  (∀ w, files (f w) = files w) → leaves_plain_paths (modify f).
Proof. intros Hf w path _. cbn. by rewrite Hf. Qed.

Lemma leaves_bind {A B} (m : M A) (f : A → M B) :
  leaves_plain_paths m →
  (∀ a w w', m w = (Ok a, w') → leaves_plain_paths (f a)) →
  leaves_plain_paths (m ≫= f).
Proof.
  intros Hm Hf w path Hpath. specialize (Hm w path Hpath).
  unfold mbind, M_bind. destruct (m w) as [[a | e] w1] eqn:Hrun; [| done].
  cbn in Hm. rewrite <- Hm. by eapply Hf.
Qed.

Lemma leaves_for_each {A} (l : list A) (body : A → M unit) :
  (∀ a, leaves_plain_paths (body a)) → leaves_plain_paths (for_each l body).
Proof.
  intros Hbody. induction l as [| a l IH]; [done |].
  cbn [for_each]. apply leaves_bind; [apply Hbody | by intros].
Qed.

Lemma leaves_print m : leaves_plain_paths (print E m).
Proof. intros w path _. rewrite print_run. by destruct (markup_error _ _ _). Qed.

Lemma files_print m w : files (print E m w).2 = files w.
Proof. rewrite print_run. by destruct (markup_error _ _ _). Qed.

Lemma leaves_make_api_request endpoint param :
  leaves_plain_paths (_make_api_request E endpoint param).
Proof.
  intros w path _. rewrite make_api_request_run. cbv zeta.
  destruct (api_response E _ _ _) as [body | e]; [done |].
  destruct (is_RequestException e); [| done].
  by destruct (markup_error E _ _).
Qed.

Lemma leaves_download_file file_path save_path :
  95 ∈ save_path → leaves_plain_paths (_download_file E file_path save_path).
Proof.
  intros Hsave w path Hpath.
  assert (path ≠ save_path) as Hne by (by intros ->).
  rewrite download_file_run. cbv zeta.
  destruct (stream_response E _ _) as [| header chunks broken];
    [by rewrite files_print |].
  assert (∀ w2 : world,
            files w2 = files w →
            files (if unwritable E save_path then (Raise OSError, w2)
                   else let w3 := chunks_written save_path chunks
                                    (with_files (<[save_path := []]> (files w)) w2) in
                        if broken then print E DownloadError w3
                        else (Ok (), w3)).2 !! path
            = files w !! path) as Hbody.
  { intros w2 Hw2. destruct (unwritable E save_path); [by cbn; rewrite Hw2 |].
    cbv zeta.
    match goal with
    | |- context [chunks_written ?p ?c ?w0] =>
        destruct (chunks_written_frame p c w0) as (_ & _ & _ & _ & _ & _ & _ & Ho)
    end.
    cbv zeta in Ho. specialize (Ho path Hne). cbn [with_files files] in Ho.
    rewrite lookup_insert_ne in Ho by done.
    destruct broken; [by rewrite files_print | done]. }
  destruct header; [by apply Hbody | by apply Hbody | done].
Qed.

Lemma leaves_convert webp_path png_path :
  95 ∈ webp_path → 95 ∈ png_path →
  leaves_plain_paths (_convert_webp_to_png E webp_path png_path).
Proof.
  intros Hwebp Hpng w path Hpath.
  assert (path ≠ webp_path ∧ path ≠ png_path) as [Hne1 Hne2]
    by (by split; intros ->).
  rewrite convert_run. cbv zeta.
  destruct (unreadable E webp_path); [by rewrite files_print |].
  destruct (files w !! webp_path) as [source |]; [| by rewrite files_print].
  destruct (reencode_png E source) as [image |]; [| by rewrite files_print].
  destruct (unwritable E png_path); [by rewrite files_print |].
  destruct (unremovable E webp_path).
  - rewrite files_print. cbn. by rewrite lookup_insert_ne.
  - cbn. by rewrite lookup_delete_ne, lookup_insert_ne.
Qed.

Lemma leaves_makedirs path : leaves_plain_paths (makedirs E path).
Proof.
  intros w p _. destruct (makedirs E path w) as [r w'] eqn:Hmk.
  apply makedirs_inv in Hmk as (Hf & _). cbn. by rewrite Hf.
Qed.

Lemma sticker_stem_underscore sticker stem :
  sticker_stem sticker = Ok stem → 95 ∈ stem.
Proof.
  unfold sticker_stem.
  destruct (py_getitem sticker _) as [uid |]; [| done]. cbn.
  destruct (py_get sticker _ _) as [emoji |]; [| done]. cbn.
  destruct (sanitize emoji) as [sanitized |]; [| done]. cbn.
  intros [= <-]. apply elem_of_app. right. apply elem_of_cons. by left.
Qed.

Lemma path_join_elem c a b : c ∈ b → c ∈ path_join a b.
Proof.
  intros Hc. destruct b as [| x b]; [by apply elem_of_nil in Hc |].
  destruct (decide (x = 47)) as [-> | Hx]; [done |].
  rewrite path_join_relative by done.
  destruct a as [| y a]; [done |].
  destruct (bool_decide _); apply elem_of_app; right; [done |].
  apply elem_of_cons. by right.
Qed.

Lemma leaves_fetch_sticker pack_folder sticker file_info :
  leaves_plain_paths (fetch_sticker E pack_folder sticker file_info).
Proof.
  unfold fetch_sticker.
  apply leaves_bind; [apply leaves_lift |]. intros result _ _ _.
  apply leaves_bind; [apply leaves_lift |]. intros file_path _ _ _.
  destruct file_path as [| | | | file_path | |]; try by intros w path _.
  apply leaves_bind; [apply leaves_lift |]. intros stem w w' Hstem.
  apply lift_inv in Hstem as [Hstem _].
  apply sticker_stem_underscore in Hstem.
  assert (∀ tail, 95 ∈ path_join pack_folder (stem ++ tail)) as Hjoin.
  { intros tail. apply path_join_elem, elem_of_app. by left. }
  apply leaves_bind; [by apply leaves_download_file |]. intros _ _ _ _.
  apply leaves_bind.
  - destruct (is_webp _); [by apply leaves_convert | by intros w0 path _].
  - intros _ _ _ _. by intros w0 path _.
Qed.

Lemma leaves_process_sticker pack_folder sticker :
  leaves_plain_paths (process_sticker E pack_folder sticker).
Proof.
  unfold process_sticker.
  apply leaves_bind; [apply leaves_lift |]. intros file_id _ _ _.
  apply leaves_bind; [apply leaves_make_api_request |]. intros file_info _ _ _.
  apply leaves_bind; [apply leaves_lift |]. intros ok _ _ _.
  apply leaves_bind.
  - destruct ok; [apply leaves_fetch_sticker | by intros w path _].
  - intros _ _ _ _. by intros w path _.
Qed.

Lemma leaves_download_sticker_pack link output_folder :
  leaves_plain_paths (download_sticker_pack E link output_folder).
Proof.
  unfold download_sticker_pack, _get_sticker_set.
  apply leaves_bind; [apply leaves_make_api_request |]. intros pack_info _ _ _.
  apply leaves_bind; [apply leaves_lift |]. intros ok _ _ _.
  destruct ok; cbn [negb]; [| apply leaves_print].
  apply leaves_bind; [apply leaves_makedirs |]. intros _ _ _ _.
  apply leaves_bind; [apply leaves_lift |]. intros result _ _ _.
  apply leaves_bind; [apply leaves_lift |]. intros title _ _ _.
  apply leaves_bind; [apply leaves_print |]. intros _ _ _ _.
  apply leaves_bind; [apply leaves_lift |]. intros result' _ _ _.
  apply leaves_bind; [apply leaves_lift |]. intros stickers _ _ _.
  apply leaves_bind; [apply leaves_lift |]. intros n _ _ _.
  apply leaves_bind; [by intros w path _ |]. intros _ _ _ _.
  apply leaves_bind; [apply leaves_lift |]. intros n' _ _ _.
  apply leaves_bind; [by intros w path _ |]. intros _ _ _ _.
  apply leaves_bind; [apply leaves_lift |]. intros items _ _ _.
  apply leaves_bind.
  - apply leaves_for_each. intros sticker. apply leaves_process_sticker.
  - intros _ _ _ _. apply leaves_print.
Qed.

Lemma config_file_plain : 95 ∉ CONFIG_FILE.
Proof.
  vm_compute. intros Hin.
  by repeat (apply elem_of_cons in Hin as [? | Hin]; [done |]); inversion Hin.
Qed.

Lemma load_token_reads_config w w' :
  files w' !! CONFIG_FILE = files w !! CONFIG_FILE →
  (load_token E w').1 = (load_token E w).1.
Proof.
  intros Hsame. by rewrite !load_token_run, Hsame.
Qed.

Lemma prompt_loop_leaves answers w path :
  95 ∉ path → files (prompt_loop E answers w).2 !! path = files w !! path.
Proof.
  intros Hpath. revert w. induction answers as [| link answers IH]; intros w; [done |].
  cbn [prompt_loop]. destruct (text_eqb _ _); [done |].
  pose proof (leaves_download_sticker_pack link OUTPUT_FOLDER w path Hpath) as Hd.
  destruct (download_sticker_pack E link OUTPUT_FOLDER w) as [[[] | e] w'];
    cbn [snd] in *; [by rewrite IH | done].
Qed.

(** X20: whatever the service answers and whether it returns or raises,
    [download_sticker_pack] changes no file whose path holds no underscore:
    every file it writes or removes is named after a sticker stem.  So the
    configuration file is as before, and with the output folder of [main]
    [load_token] gives what it gave; an output folder named as the
    configuration file would put a directory in its place. *)
Theorem download_keeps_plain_paths link output_folder w :
  let w' := (download_sticker_pack E link output_folder w).2 in
  (∀ path, 95 ∉ path → files w' !! path = files w !! path)
  ∧ files w' !! CONFIG_FILE = files w !! CONFIG_FILE
  ∧ (output_folder = OUTPUT_FOLDER → (load_token E w').1 = (load_token E w).1).
Proof.
  cbv zeta. split; [| split].
  - intros path. apply leaves_download_sticker_pack.
  - apply leaves_download_sticker_pack, config_file_plain.
  - intros _. apply load_token_reads_config, leaves_download_sticker_pack,
      config_file_plain.
Qed.

(** X21: the token [main] has stored is not lost in the loop: however the
    loop over the links ends, the next start loads what this one would
    load, and asks for a token after the loop only if it would have asked
    before it. *)
Theorem loop_keeps_token answers w :
  let w' := (prompt_loop E answers w).2 in
  (load_token E w').1 = (load_token E w).1
  ∧ ∀ later, (startup E later w').1.1 = (startup E later w).1.1.
Proof.
  cbv zeta.
  assert ((load_token E (prompt_loop E answers w).2).1 = (load_token E w).1) as Hload
    by apply load_token_reads_config, prompt_loop_leaves, config_file_plain.
  split; [done |]. intros later. unfold startup.
  destruct (load_token E (prompt_loop E answers w).2) as [r1 w1].
  destruct (load_token E w) as [r2 w2]. cbn [fst] in Hload. subst r2.
  destruct r1 as [bot_token | e]; [| done].
  destruct (truthy bot_token); cbn [negb]; [done |].
  destruct later as [| answer rest]; [done |].
  unfold save_token. by destruct (unwritable E CONFIG_FILE).
Qed.

End Frame.

(** ** The helpers and the shell on the example pack *)


Lemma converted_sticker_leaves_png_witness :
  let E := Example.service None Example.three_bytes in
  let w := Example.empty_world in
  let file_info := Example.file_info (txt "stickers/file_1.webp") in
  let webp_save_path := txt "stickers/UtyaTheDuck/AAA_.webp" in
  let png_save_path := txt "stickers/UtyaTheDuck/AAA_.png" in
  let image := [80; 78; 71; 1; 2; 3] in
  ∃ w', fetch_sticker E Example.pack_folder Example.stickerA file_info w = (Ok (), w')
    ∧ files w'
      = delete webp_save_path
          (<[png_save_path := image]>
             (<[webp_save_path := concat [[1; 2]; [3]]]> (files w)))
    ∧ console w' = console w
    ∧ (webp_save_path ≠ png_save_path →
       files w' !! png_save_path = Some image
       ∧ files w' !! webp_save_path = None).
Proof.
  apply (converted_sticker_leaves_png
           (Example.service None Example.three_bytes)
           Example.pack_folder Example.stickerA
           (Example.file_info (txt "stickers/file_1.webp"))
           (JObj [(txt "file_path", JStr (txt "stickers/file_1.webp"))])
           (txt "stickers/file_1.webp") (txt "AAA_") Example.empty_world
           (Header 3) [[1; 2]; [3]] [80; 78; 71; 1; 2; 3]);
    try reflexivity; done.
Defined.

Lemma other_sticker_is_kept_witness :
  let E := Example.service None Example.three_bytes in
  let w := Example.empty_world in
  let file_info := Example.file_info (txt "stickers/file_2.tgs") in
  let save_path := txt "stickers/UtyaTheDuck/BBB_.tgs" in
  ∃ w', fetch_sticker E Example.pack_folder Example.stickerB file_info w = (Ok (), w')
    ∧ files w' = <[save_path := concat [[1; 2]; [3]]]> (files w)
    ∧ console w' = console w
    ∧ calls w' = calls w ++ [download_file_call (txt "stickers/file_2.tgs") save_path].
Proof.
  apply (other_sticker_is_kept
           (Example.service None Example.three_bytes)
           Example.pack_folder Example.stickerB
           (Example.file_info (txt "stickers/file_2.tgs"))
           (JObj [(txt "file_path", JStr (txt "stickers/file_2.tgs"))])
           (txt "stickers/file_2.tgs") (txt "BBB_") Example.empty_world
           (Header 3) [[1; 2]; [3]]);
    try reflexivity; done.
Defined.

Lemma failed_lookup_skips_item_witness :
  let E := Example.service None Example.three_bytes in
  let w := Example.empty_world in
  let sticker := JObj [(txt "file_id", JInt 7);
                       (txt "file_unique_id", JStr (txt "CCC"))] in
  ∃ w', process_sticker E Example.pack_folder sticker w = (Ok (), w')
    ∧ calls w'
      = calls w ++ [make_api_request_call (txt "getFile") (txt "file_id", JInt 7)]
    ∧ files w' = files w ∧ dirs w' = dirs w
    ∧ convert_task w' = convert_task w
    ∧ download_task w' = advance 1 (download_task w).
Proof.
  apply (failed_lookup_skips_item
           (Example.service None Example.three_bytes) Example.pack_folder
           (JObj [(txt "file_id", JInt 7);
                  (txt "file_unique_id", JStr (txt "CCC"))])
           (JInt 7) Example.empty_world);
    reflexivity.
Defined.

Lemma every_sticker_is_looked_up_witness :
  let E := Example.service None Example.three_bytes in
  let w := Example.empty_world in
  let stickers := [Example.stickerA; Example.stickerB] in
  let w' := (for_each stickers (process_sticker E Example.pack_folder) w).2 in
  ∃ file_ids,
    Forall2 (λ sticker file_id, py_getitem sticker (txt "file_id") = Ok file_id)
      stickers file_ids
    ∧ requested_files (calls w') = requested_files (calls w) ++ file_ids.
Proof.
  apply (every_sticker_is_looked_up
           (Example.service None Example.three_bytes) Example.pack_folder
           [Example.stickerA; Example.stickerB] Example.empty_world).
  vm_compute. reflexivity.
Defined.

Lemma loop_counters_witness :
  let E := Example.service None Refused in
  let w := Example.empty_world in
  let stickers := [Example.stickerA; Example.stickerB] in
  let w' := (for_each stickers (process_sticker E Example.pack_folder) w).2 in
  (completed (convert_task w')
   ≤ completed (convert_task w) + length stickers)%nat
  ∧ (completed (download_task w) + length stickers
     ≤ completed (download_task w'))%nat
  ∧ total (convert_task w') = total (convert_task w)
  ∧ dirs w' = dirs w.
Proof.
  apply (loop_counters
           (Example.service None Refused) Example.pack_folder
           [Example.stickerA; Example.stickerB] Example.empty_world).
  vm_compute. reflexivity.
Defined.

Lemma download_ends_in_two_ways_witness :
  let E := Example.service (Some (Example.pack_of [Example.stickerA]))
             Example.three_bytes in
  let w := Example.empty_world in
  let w' := (download_sticker_pack E Example.link OUTPUT_FOLDER w).2 in
  (last (console w') = Some PackUnavailable
   ∧ files w' = files w ∧ dirs w' = dirs w)
  ∨ (last (console w') = Some DownloadComplete
     ∧ dirs w'
       = list_to_set
           (makedirs_places (path_join OUTPUT_FOLDER (last_segment Example.link)))
         ∪ dirs w
     ∧ (completed (convert_task w') ≤ total (convert_task w'))%nat).
Proof.
  apply (download_ends_in_two_ways
           (Example.service (Some (Example.pack_of [Example.stickerA]))
              Example.three_bytes)
           Example.link OUTPUT_FOLDER Example.empty_world).
  vm_compute. reflexivity.
Defined.

Lemma token_survives_restart_witness :
  let E := Example.service None Refused in
  let answer := txt "110201543:AAHdqTcvCH1vGWJxfSeofSAs0K5PALDsaw" in
  ∃ w1, startup E [answer; txt "quit"] Example.empty_world
        = (Done (JStr answer, [txt "quit"]), w1, [NoSavedToken; TokenSaved])
    ∧ ∀ answers, startup E answers w1
                 = (Done (JStr answer, answers), w1, [TokenLoaded]).
Proof.
  apply (token_survives_restart (Example.service None Refused)
           (txt "110201543:AAHdqTcvCH1vGWJxfSeofSAs0K5PALDsaw") [txt "quit"]
           Example.empty_world).
  - reflexivity.
  - reflexivity.
  - reflexivity.
  - done.
  - unfold valid_text. repeat constructor.
  - reflexivity.
Defined.

Lemma empty_token_is_asked_again_witness :
  let E := Example.service None Refused in
  ∃ w1, startup E [[]; txt "quit"] Example.empty_world
        = (Done (JStr [], [txt "quit"]), w1, [NoSavedToken; TokenSaved])
    ∧ files w1 !! CONFIG_FILE
      = Some (txt "{" ++ 34 :: txt "bot_token" ++ 34 :: txt ": " ++ [34; 34; 125])
    ∧ (∀ answer answers, ∃ w2,
         startup E (answer :: answers) w1
         = (Done (JStr answer, answers), w2, [NoSavedToken; TokenSaved]))
    ∧ startup E [] w1 = (NoInput, w1, [NoSavedToken]).
Proof.
  apply (empty_token_is_asked_again (Example.service None Refused)
           [txt "quit"] Example.empty_world).
  - reflexivity.
  - reflexivity.
  - reflexivity.
Defined.

Lemma nothing_is_read_after_quit_witness :
  let E := Example.service (Some Example.not_ok) Refused in
  prompt_loop E ([Example.link] ++ txt "QUIT" :: [Example.link; txt "quit"])
    Example.empty_world
  = prompt_loop E ([Example.link] ++ [txt "QUIT"]) Example.empty_world.
Proof.
  apply (nothing_is_read_after_quit (Example.service (Some Example.not_ok) Refused)
           [Example.link] (txt "QUIT") [Example.link; txt "quit"]
           Example.empty_world).
  reflexivity.
Defined.

Lemma only_quit_ends_main_witness :
  let E := Example.service (Some Example.not_ok) Refused in
  (main E [txt "110201543:AAHd"; Example.link] Example.empty_world).1.1 ≠ Done ().
Proof.
  apply (only_quit_ends_main (Example.service (Some Example.not_ok) Refused)
           [txt "110201543:AAHd"; Example.link] Example.empty_world).
  repeat constructor; by vm_compute.
Defined.

Lemma exception_ends_the_loop_witness :
  let E := Example.service (Some Example.untitled) Refused in
  let w := Example.empty_world in
  prompt_loop E ([] ++ Example.link :: [txt "quit"]) w
  = (Crash (KeyError (txt "title")),
     (download_sticker_pack E Example.link OUTPUT_FOLDER w).2).
Proof.
  apply (exception_ends_the_loop (Example.service (Some Example.untitled) Refused)
           [] Example.link [txt "quit"] Example.empty_world Example.empty_world
           (KeyError (txt "title"))
           (download_sticker_pack (Example.service (Some Example.untitled) Refused)
              Example.link OUTPUT_FOLDER Example.empty_world).2).
  - by vm_compute.
  - reflexivity.
  - vm_compute. reflexivity.
Defined.

Lemma load_token_by_content_witness :
  let E := Example.service None Refused in
  let w := Example.with_config (txt "[1, 2]") in
  (unreadable E CONFIG_FILE = true → load_token E w = (Raise OSError, w))
  ∧ (unreadable E CONFIG_FILE = false →
     (decode (txt "[1, 2]") = None → load_token E w = (Raise UnicodeDecodeError, w))
     ∧ ∀ s, read_text (txt "[1, 2]") = Ok s →
         (∀ e, Json.loads s = Raise e → e ≠ JSONDecodeError →
               load_token E w = (Raise e, w))
         ∧ (∀ v, Json.loads s = Ok v → (∀ d, v ≠ JObj d) →
                 load_token E w = (Raise AttributeError, w))
         ∧ (∀ d v, Json.loads s = Ok (JObj d) →
                   dict_lookup (txt "bot_token") d = Some v →
                   load_token E w = (Ok v, w))).
Proof.
  apply (load_token_by_content (Example.service None Refused)
           (Example.with_config (txt "[1, 2]")) (txt "[1, 2]")).
  reflexivity.
Defined.
